(** * NeuralODE: adjoint backward pass and evaluation metrics

    A shallow embedding of

    - [experiments/massspringdamper/utils.py]: the dataset builder, the
      evaluation metrics and [visualize] with the files it writes;
    - [tfdiffeq_2.py]: the [grad] closure of [OdeintAdjointMethod] and its
      [augmented_dynamics].

    Python exceptions are values of [exn] carried by [result]; NumPy float64
    arithmetic is IEEE 754 binary64 as specified by [SpecFloat]. *)

From Stdlib Require Import ZArith Bool Lia.
From Corelib Require Import SpecFloat.
From stdpp Require Import base list strings gmap.

Local Open Scope list_scope.

(** ** Python exceptions and results *)

Module Py.

Inductive exn : Type :=
| IndexError
| ValueError
| TypeError
| AttributeError (attr : string)
| FileNotFoundError (path : string)
| InvalidArgumentError
| OverflowError.

Inductive result (A : Type) : Type :=
| Ok (a : A)
| Raise (e : exn).
Arguments Ok {A} a.
Arguments Raise {A} e.

Definition bind {A B} (r : result A) (k : A -> result B) : result B :=
  match r with
  | Ok a => k a
  | Raise e => Raise e
  end.

Definition is_ok {A} (r : result A) : bool :=
  match r with Ok _ => true | Raise _ => false end.

(** [l[i]] on a tuple or list: [IndexError] out of range. *)
Definition getitem {A} (l : list A) (i : nat) : result A :=
  match l !! i with
  | Some a => Ok a
  | None => Raise IndexError
  end.

(** A comprehension whose body may raise. *)
Fixpoint for_each {A B} (f : A -> result B) (l : list A) : result (list B) :=
  match l with
  | [] => Ok []
  | a :: l' =>
      bind (f a) (fun b => bind (for_each f l') (fun bs => Ok (b :: bs)))
  end.

(** [zip(xs, ys)]: stops at the shorter sequence. *)
Fixpoint zip {A B} (xs : list A) (ys : list B) : list (A * B) :=
  match xs, ys with
  | x :: xs', y :: ys' => (x, y) :: zip xs' ys'
  | _, _ => []
  end.

(** [l[a:b]] for [0 <= a]. *)
Definition slice {A} (a b : nat) (l : list A) : list A :=
  take (b - a)%nat (drop a l).

End Py.

Import Py.

(** ** Files and directories *)

Module FS.

(** The text of [s] before its last [/] (character 47), when it has one. *)
Fixpoint before_last_slash (s : string) : option string :=
  match s with
  | EmptyString => None
  | String c s' =>
      match before_last_slash s' with
      | Some d => Some (String c d)
      | None => if Ascii.eqb c (Ascii.ascii_of_nat 47) then Some EmptyString else None
      end
  end.

(** The directory a file named [path] lies in; empty for a name without
    [/], which lies in the working directory. *)
Definition dirname (path : string) : string :=
  default EmptyString (before_last_slash path).

(** The directories that exist and the files with their contents; the
    files of a store lie in directories it lists. *)
Record store (A : Type) : Type := mk_store {
  dirs : gset string;
  files : gmap string A
}.
Arguments mk_store {A} dirs files.
Arguments dirs {A} s.
Arguments files {A} s.

Definition empty_store {A} : store A := mk_store ∅ ∅.

Definition isdir {A} (d : string) (fs : store A) : bool :=
  bool_decide (d = EmptyString \/ d ∈ dirs fs).

(** [f = open(path, mode); f.write(content); f.close()] for a mode that
    writes or appends: opening raises [FileNotFoundError] when the
    directory of the file does not exist; [update] gives the new content
    from the old one, if any. *)
Definition open_and_write {A} (path : string) (update : option A -> A)
    (fs : store A) : result (store A) :=
  if isdir (dirname path) fs
  then Ok (mk_store (dirs fs) (<[path := update (files fs !! path)]> (files fs)))
  else Raise (FileNotFoundError path).

(** Mode ['w'] or ['wb']: the content replaces what was there. *)
Definition write_file {A} (path : string) (content : A) (fs : store A)
    : result (store A) :=
  open_and_write path (fun _ => content) fs.

End FS.

Declare Scope py_scope.
Delimit Scope py_scope with py.
Notation "'let*' x ':=' e 'in' k" := (bind e (fun x => k))
  (at level 10, x name, e at level 100, k at level 200) : py_scope.
Notation "'let*' ' p ':=' e 'in' k" :=
  (bind e (fun x => match x with p => k end))
  (at level 10, p pattern, e at level 100, k at level 200) : py_scope.
Local Open Scope py_scope.

(** ** IEEE 754 binary64 *)

Module F64.

Definition prec : Z := 53.
Definition emax : Z := 1024.

Definition float := spec_float.

Definition add : float -> float -> float := SFadd prec emax.
Definition sub : float -> float -> float := SFsub prec emax.
Definition mul : float -> float -> float := SFmul prec emax.
Definition div : float -> float -> float := SFdiv prec emax.
Definition abs : float -> float := SFabs.
Definition eqb : float -> float -> bool := SFeqb.
Definition ltb : float -> float -> bool := SFltb.

(** Conversion of an integer, rounding to nearest even. *)
Definition of_Z (z : Z) : float := binary_normalize prec emax z 0 false.

Definition zero : float := S754_zero false.
Definition one : float := Eval cbv in of_Z 1.
Definition neg_one : float := Eval cbv in of_Z (-1).
Definition half : float := Eval cbv in div (of_Z 1) (of_Z 2).
Definition nan : float := S754_nan.
Definition infinity : float := S754_infinity false.

Definition is_zero (x : float) : bool :=
  match x with S754_zero _ => true | _ => false end.

Definition is_finite (x : float) : bool :=
  match x with S754_zero _ | S754_finite _ _ _ => true | _ => false end.

(** Truth value of a float ([bool(x)], [np.where]): everything but a zero. *)
Definition truthy (x : float) : bool := negb (is_zero x).

End F64.

(** ** NumPy arrays *)

Module NP.

(** A float64 array: its shape and its elements in row-major order. *)
Record ndarray : Type := mk_ndarray {
  shape : list nat;
  data : list F64.float
}.

Definition numel (sh : list nat) : nat := foldr Nat.mul 1%nat sh.
Definition ndim (a : ndarray) : nat := length (shape a).

Definition scalar (x : F64.float) : ndarray := mk_ndarray [] [x].
Definition vector (l : list F64.float) : ndarray := mk_ndarray [length l] l.

(** An index into an axis of length [n]; negative indices count from the end. *)
Definition norm_index (i : Z) (n : nat) : result nat :=
  let j := if (i <? 0)%Z then (i + Z.of_nat n)%Z else i in
  if ((0 <=? j) && (j <? Z.of_nat n))%Z then Ok (Z.to_nat j) else Raise IndexError.

(** [a[i]]: the [i]-th slice along the first axis. *)
Definition getitem0 (a : ndarray) (i : Z) : result ndarray :=
  match shape a with
  | [] => Raise IndexError
  | n :: sh =>
      let* j := norm_index i n in
      Ok (mk_ndarray sh (take (numel sh) (drop (j * numel sh) (data a))))
  end.

(** [a[:, j]] on a 2-D array, the shape of a trajectory. *)
Definition column (a : ndarray) (j : nat) : result ndarray :=
  match shape a with
  | [n; k] =>
      if (j <? k)%nat
      then Ok (mk_ndarray [n]
                 (omap (fun i => data a !! (i * k + j)%nat) (seq 0 n)))
      else Raise IndexError
  | _ => Raise IndexError
  end.

(** Element-wise binary operation.  Operands of equal shape are combined
    point-wise; a 0-d operand or a one-element 1-d operand is broadcast.
    Two 1-d operands of different lengths, neither of length one, raise
    [ValueError] as in NumPy.  The metrics below only combine operands of
    rank at most one. *)
Definition binop (f : F64.float -> F64.float -> F64.float)
    (a b : ndarray) : result ndarray :=
  if decide (shape a = shape b)
  then Ok (mk_ndarray (shape a) (zip_with f (data a) (data b)))
  else match shape a, data a, shape b, data b with
       | [], [x], _, _ => Ok (mk_ndarray (shape b) (map (f x) (data b)))
       | _, _, [], [y] => Ok (mk_ndarray (shape a) (map (fun x => f x y) (data a)))
       | [1%nat], [x], [_], _ => Ok (mk_ndarray (shape b) (map (f x) (data b)))
       | [_], _, [1%nat], [y] =>
           Ok (mk_ndarray (shape a) (map (fun x => f x y) (data a)))
       | _, _, _, _ => Raise ValueError
       end.

(** A Python float combined with an array. *)
Definition scale (c : F64.float) (a : ndarray) : ndarray :=
  mk_ndarray (shape a) (map (F64.mul c) (data a)).

(** [np.sign]: [1], [-1] or [0]; the sign of a NaN is NaN. *)
Definition sign (x : F64.float) : F64.float :=
  if F64.ltb F64.zero x then F64.one
  else if F64.ltb x F64.zero then F64.neg_one
  else if F64.eqb x F64.zero then F64.zero
  else x.

(** [np.diff] of a 1-d array: successive differences. *)
Fixpoint diff (l : list F64.float) : list F64.float :=
  match l with
  | a :: (b :: _) as l' => F64.sub b a :: diff l'
  | _ => []
  end.

(** [np.where(c)[0]] of a 1-d array: the indices of its non-zero elements. *)
Fixpoint where_from (i : nat) (l : list F64.float) : list nat :=
  match l with
  | [] => []
  | x :: l' => if F64.truthy x then i :: where_from (S i) l'
               else where_from (S i) l'
  end.
Definition where_nonzero (l : list F64.float) : list nat := where_from 0 l.

(** [np.mean] of a 1-d array: the sum over the count.  The additions are
    taken from left to right; an empty array gives [0.0 / 0 = nan]. *)
Definition sum (l : list F64.float) : F64.float := foldl F64.add F64.zero l.
Definition mean (l : list F64.float) : F64.float :=
  F64.div (sum l) (F64.of_Z (Z.of_nat (length l))).

(** [np.stack] of arrays of one shape along a new first axis. *)
Definition stack (l : list ndarray) : result ndarray :=
  match l with
  | [] => Raise ValueError
  | a :: _ =>
      if forallb (fun b => bool_decide (shape b = shape a)) l
      then Ok (mk_ndarray (length l :: shape a) (concat (map data l)))
      else Raise ValueError
  end.

(** [np.array([a])]: one more leading axis of length one. *)
Definition array_of_one (a : ndarray) : ndarray :=
  mk_ndarray (1%nat :: shape a) (data a).

(** Rounding of one float64 to float32 (to nearest even, overflow to
    infinity), kept as the float32 value it denotes. *)
Definition to_float32 (x : F64.float) : F64.float :=
  match x with
  | S754_finite s m e => binary_round 24 128 s m e
  | _ => x
  end.

(** [a.astype(np.float32)]. *)
Definition astype_float32 (a : ndarray) : ndarray :=
  mk_ndarray (shape a) (map to_float32 (data a)).

End NP.

(** ** experiments/massspringdamper/utils.py: the metrics *)

Module Utils.

Import NP.

(** [0.5*k] for a Python integer [k]: the integer is converted to a float,
    rounding to nearest even, and [OverflowError] is raised when it is
    beyond the range of the floats. *)
Definition half_times (k : Z) : result F64.float :=
  let x := F64.of_Z k in
  if F64.is_finite x then Ok (F64.mul F64.half x) else Raise OverflowError.

(** [0.5*k*a*a], evaluated left to right: [0.5*k] first, then the
    component [a] of the state. *)
Definition energy_term (k : Z) (a : result ndarray) : result ndarray :=
  let* c := half_times k in
  let* a := a in
  binop F64.mul (scale c a) a.

(** [0.5*k*a*a + 0.5*m*b*b]; [k] and [m] are Python integers, [a] and [b]
    the two indexing expressions, each evaluated where it stands. *)
Definition energy_expr (k m : Z) (a b : result ndarray) : result ndarray :=
  let* ka := energy_term k a in
  let* mb := energy_term m b in
  binop F64.add ka mb.

(** [total_energy(state, k, m)]: a state of rank 1 gives a scalar, a batch
    of states (rank 2) gives one energy per row, any other rank raises. *)
Definition total_energy (state : ndarray) (k m : Z) : result ndarray :=
  match ndim state with
  | 1%nat => energy_expr k m (getitem0 state 0) (getitem0 state 1)
  | 2%nat => energy_expr k m (column state 0) (column state 1)
  | _ => Raise ValueError
  end.

(** [relative_energy_drift(x_pred, x_true, t)]; [t] defaults to [-1]. *)
Definition relative_energy_drift (x_pred x_true : ndarray) (t : Z)
    : result ndarray :=
  let* state_pred := getitem0 x_pred t in
  let* energy_pred := total_energy state_pred 1 1 in
  let* state_true := getitem0 x_true t in
  let* energy_true := total_energy state_true 1 1 in
  let* d := binop F64.sub energy_pred energy_true in
  binop F64.div d energy_true.

(** [zero_crossings(x)] for a 1-d signal:
    [np.array(np.where(np.diff(np.sign(x)))[0])]. *)
Definition zero_crossings (x : list F64.float) : list nat :=
  where_nonzero (diff (map sign x)).

(** An integer index as float64, as NumPy converts it when it meets a
    float operand. *)
Definition as_float (i : nat) : F64.float := F64.of_Z (Z.of_nat i).

Definition index_array (c : list nat) : ndarray := vector (map as_float c).

(** [1 / c] for an integer index array [c]: true division, element-wise;
    [1 / 0] is [inf] and raises nothing. *)
Definition recip (i : nat) : F64.float := F64.div F64.one (as_float i).

Definition reciprocal (c : list nat) : ndarray := vector (map recip c).

(** The phase error at a pair of matched crossings, times the reference
    crossing: [(1 / r - 1 / p) * r]. *)
Definition phase_term (r p : nat) : F64.float :=
  F64.mul (F64.sub (recip r) (recip p)) (as_float r).

(** The array handed to [np.mean] by [relative_phase_error]. *)
Definition phase_terms (ref_crossings pred_crossings : list nat)
    : result ndarray :=
  let n_crossings := Nat.min (length pred_crossings) (length ref_crossings) in
  let* phase_error :=
    binop F64.sub (reciprocal (take n_crossings ref_crossings))
                  (reciprocal (take n_crossings pred_crossings)) in
  binop F64.mul phase_error (index_array (take n_crossings ref_crossings)).

(** [relative_phase_error(x_pred, x_val)]. *)
Definition relative_phase_error (x_pred x_val : ndarray) : result F64.float :=
  let* pos_val := column x_val 0 in
  let ref_crossings := zero_crossings (data pos_val) in
  let* pos_pred := column x_pred 0 in
  let pred_crossings := zero_crossings (data pos_pred) in
  let* terms := phase_terms ref_crossings pred_crossings in
  Ok (mean (data terms)).

(** [total_energy(x[t])], the energy the drift is normalised by. *)
Definition energy_at (x : ndarray) (t : Z) : result ndarray :=
  let* state := getitem0 x t in
  total_energy state 1 1.

Definition all_zero (a : ndarray) : bool := forallb F64.is_zero (data a).
Definition all_nonzero (a : ndarray) : bool :=
  forallb (fun x => negb (F64.is_zero x)) (data a).
Definition all_finite (a : ndarray) : bool := forallb F64.is_finite (data a).

(** The statement that the drift of a trajectory against itself is zero at
    every index where its energy is non-zero. *)
Definition drift_zero_whenever_nonzero : Prop :=
  forall x t e, energy_at x t = Ok e -> all_nonzero e = true ->
    exists z, relative_energy_drift x x t = Ok z /\ all_zero z = true.

(** A signal whose sign differs between samples 0 and 1. *)
Definition sign_change_at_start (x : list F64.float) : bool :=
  match x with
  | a :: b :: _ => negb (F64.eqb (sign b) (sign a))
  | _ => false
  end.

(** A trajectory with the given positions and zero velocity. *)
Definition trajectory_of (positions : list Z) : ndarray :=
  mk_ndarray [length positions; 2%nat]
    (concat (map (fun z => [F64.of_Z z; F64.zero]) positions)).

(** The trajectory with the single state [(2^600, 0)]. *)
Definition x_huge : ndarray :=
  mk_ndarray [1%nat; 2%nat] [S754_finite false 4503599627370496 548; F64.zero].

End Utils.

(** ** experiments/massspringdamper/utils.py: the dataset builder *)

Module Dataset.

Import NP FS.

(** A [MassSpringDamper(x=..., x_dt=...)] object; [None] stands for the
    constructor's default initial velocity. *)
Record MassSpringDamper : Type := mk_msd {
  msd_x : F64.float;
  msd_x_dt : option F64.float
}.

(** The four arrays returned by [create_dataset] and [load_dataset]. *)
Record dataset : Type := mk_dataset {
  x_train : ndarray;
  y_train : ndarray;
  x_val : ndarray;
  y_val : ndarray
}.

Definition delta_t : F64.float := S754_finite false 5764607523034235 (-59).
Definition np_pi : F64.float := S754_finite false 7074237752028440 (-51).
Definition five : F64.float := Eval cbv in F64.of_Z 5.
Definition one_and_half : F64.float := S754_finite false 6755399441055744 (-52).

Definition x_train_path : string := "experiments/datasets/mass_spring_damper_x_train.npy".
Definition y_train_path : string := "experiments/datasets/mass_spring_damper_y_train.npy".
Definition x_val_path : string := "experiments/datasets/mass_spring_damper_x_val.npy".
Definition y_val_path : string := "experiments/datasets/mass_spring_damper_y_val.npy".

(** [np.save(path, a)] on a store of array files: the file is opened for
    writing, which raises [FileNotFoundError] when its directory does not
    exist. *)
Definition np_save (path : string) (a : ndarray) (fs : store ndarray)
    : result (store ndarray) :=
  write_file path a fs.

(** [np.load(path)]. *)
Definition np_load (path : string) (fs : store ndarray) : result ndarray :=
  match files fs !! path with
  | Some a => Ok a
  | None => Raise (FileNotFoundError path)
  end.

Section Simulator.

(** The simulator class [MassSpringDamper] is imported from a module that
    is not among the sources; its two methods are parameters here:
    [step(dt, n_steps)] returns the simulated trajectory and
    [call(t, x)] the derivative at the states [x]. *)
Variable msd_step : MassSpringDamper -> F64.float -> nat -> ndarray.
Variable msd_call : MassSpringDamper -> F64.float -> ndarray -> ndarray.

(** The uniform draws of [np.random.random], in the order they are made. *)
Variable random : nat -> F64.float.

Definition np_random_random (first count : nat) : list F64.float :=
  map random (seq first count).

(** One iteration of the training loop: the pair appended to
    [x_train] and [y_train]. *)
Definition simulate_train (samples_per_series : nat) (x0 : list F64.float)
    (i : nat) : result (ndarray * ndarray) :=
  let* x0_i := getitem x0 i in
  let msd := mk_msd x0_i None in
  let x := msd_step msd
             (F64.mul (F64.of_Z (Z.of_nat samples_per_series - 1)) delta_t)
             samples_per_series in
  Ok (x, msd_call msd F64.zero x).

(** One of the two validation simulations: the pair appended to [x_val]
    and [y_val]; the target is wrapped in a one-element list before
    conversion, [np.array([msd.call(0., x_val[-1])])]. *)
Definition simulate_val (samples_per_series : nat) (x x_dt : F64.float)
    : ndarray * ndarray :=
  let msd := mk_msd x (Some x_dt) in
  let xs := msd_step msd
              (F64.mul (F64.of_Z (Z.of_nat samples_per_series - 1)) delta_t)
              samples_per_series in
  (xs, array_of_one (msd_call msd F64.zero xs)).

Definition create_dataset (n_series samples_per_series : nat)
    (save_to_disk : bool) (fs : store ndarray)
    : result (dataset * store ndarray) :=
  let x0_in := np_random_random 0 (n_series / 2) in
  let x0_out :=
    map (fun r => F64.sub (F64.add r np_pi) F64.one)
        (np_random_random (n_series / 2) (n_series - n_series / 2)) in
  let x0 := x0_in ++ x0_out in
  let* train := for_each (simulate_train samples_per_series x0) (seq 0 n_series) in
  let* x_train := stack (map fst train) in
  let* y_train := stack (map snd train) in
  let v1 := simulate_val samples_per_series five F64.half in
  let v2 := simulate_val samples_per_series one_and_half F64.half in
  let* x_val := stack [fst v1; fst v2] in
  let* y_val := stack [snd v1; snd v2] in
  let* fs' :=
    if save_to_disk
    then
      let* fs1 := np_save x_train_path x_train fs in
      let* fs2 := np_save y_train_path y_train fs1 in
      let* fs3 := np_save x_val_path x_val fs2 in
      np_save y_val_path y_val fs3
    else Ok fs in
  Ok (mk_dataset x_train y_train x_val y_val, fs').

End Simulator.

Definition load_dataset (fs : store ndarray) : result dataset :=
  let* x_train := np_load x_train_path fs in
  let* y_train := np_load y_train_path fs in
  let* x_val := np_load x_val_path fs in
  let* y_val := np_load y_val_path fs in
  Ok (mk_dataset (astype_float32 x_train) (astype_float32 y_train)
                 (astype_float32 x_val) (astype_float32 y_val)).

(** A stand-in simulator with the documented shapes: [step] returns
    [n_steps] copies of the initial state, [call] halves every entry of the
    array it is given and keeps its shape. *)
Definition hold_step (msd : MassSpringDamper) (dt : F64.float) (n_steps : nat)
    : ndarray :=
  mk_ndarray [n_steps; 2%nat]
    (concat (replicate n_steps [msd_x msd; default F64.zero (msd_x_dt msd)])).

Definition hold_call (msd : MassSpringDamper) (t : F64.float) (x : ndarray)
    : ndarray :=
  mk_ndarray (shape x) (map (F64.mul F64.half) (data x)).

Definition constant_draws (i : nat) : F64.float := F64.half.

(** The directory of the four files, and a store that holds it and no
    file. *)
Definition dataset_dir : string := "experiments/datasets".
Definition dataset_store : store ndarray := mk_store {[ dataset_dir ]} ∅.

End Dataset.

(** ** experiments/massspringdamper/utils.py: the results log of [visualize] *)

Module Log.

Definition newline : string := String (Ascii.ascii_of_nat 10) EmptyString.

(** The header written by [visualize], as the two literals it concatenates. *)
Definition title_string : string :=
  String.append
    "wall_time,epoch,energy_drift_interp,energy_drift_extrap, phase_error_interp,"
    (String.append "phase_error_extrap, traj_err_interp, traj_err_extrap" newline).

(** The hyperparameters read from [args], already rendered by [str]. *)
Record args : Type := mk_args {
  lr : string;
  dataset_size : string;
  batch_size : string
}.

(** The eight values of a data row, already rendered by [format]. *)
Record metrics : Type := mk_metrics {
  wall_time : string;
  epoch : string;
  energy_drift_interp : string;
  energy_drift_extrap : string;
  phase_error_interp : string;
  phase_error_extrap : string;
  traj_error_interp : string;
  traj_error_extrap : string
}.

Definition join_comma (l : list string) : string :=
  String.concat "," l.

(** ["{},{},{},{},{},{},{},{}\n".format(...)]. *)
Definition format_row (m : metrics) : string :=
  String.append
    (join_comma [wall_time m; epoch m;
                 energy_drift_interp m; energy_drift_extrap m;
                 phase_error_interp m; phase_error_extrap m;
                 traj_error_interp m; traj_error_extrap m])
    newline.

Definition file_path (PLOT_DIR TIME_OF_RUN : string) (a : args) : string :=
  String.append PLOT_DIR (String.append TIME_OF_RUN (String.append "results"
    (String.append (lr a) (String.append (dataset_size a)
      (String.append (batch_size a) ".csv"))))).

(** [os.path.isfile(path)] on a store of text files. *)
Definition isfile (path : string) (fs : gmap string string) : bool :=
  bool_decide (is_Some (fs !! path)).

(** [fd = open(path, 'a'); fd.write(s); fd.close()]: the file is created
    when absent and [s] goes after what it already holds. *)
Definition append_to (path s : string) (fs : gmap string string)
    : gmap string string :=
  <[path := String.append (default EmptyString (fs !! path)) s]> fs.

(** Lines 304-312, the last statements of [visualize], on the files of a
    store whose directory for the log exists: the row is appended, after
    the header when the file is not there yet. *)
Definition visualize_log (PLOT_DIR TIME_OF_RUN : string) (a : args)
    (m : metrics) (fs : gmap string string) : gmap string string :=
  let string := format_row m in
  let file_path := file_path PLOT_DIR TIME_OF_RUN a in
  let fs1 :=
    if negb (isfile file_path fs) then append_to file_path title_string fs
    else fs in
  append_to file_path string fs1.

(** The header as the specification words it. *)
Definition claimed_header : string :=
  "wall_time,epoch,energy_drift_interp,energy_drift_extrap,phase_error_interp,phase_error_extrap,traj_err_interp,traj_err_extrap".

(** The header as [visualize] writes it, without its line end. *)
Definition written_header : string :=
  "wall_time,epoch,energy_drift_interp,energy_drift_extrap, phase_error_interp,phase_error_extrap, traj_err_interp, traj_err_extrap".

Definition sample_args : args := mk_args "0.001" "51" "32".
Definition sample_row : metrics :=
  mk_metrics "12.5" "0" "0.01" "0.02" "0.03" "0.04" "0.05" "0.06".

(** The rows of a file: its text cut at each line end. *)
Fixpoint rows_from (cur : string) (s : string) : list string :=
  match s with
  | EmptyString => match cur with EmptyString => [] | _ => [cur] end
  | String c s' =>
      if Ascii.eqb c (Ascii.ascii_of_nat 10) then cur :: rows_from EmptyString s'
      else rows_from (String.append cur (String c EmptyString)) s'
  end.
Definition rows (s : string) : list string := rows_from EmptyString s.

End Log.

(** ** TensorFlow tensors *)

Module TF.

Inductive dtype : Type := float32 | float64 | int32.

#[global] Instance dtype_eq_dec : EqDecision dtype.
Proof. solve_decision. Defined.

(** A tensor: shape, element type, placement and elements in row-major
    order.  The adjoint works in double precision. *)
Record Tensor : Type := mk_tensor {
  shape : list nat;
  dtype_of : dtype;
  device : string;
  data : list F64.float
}.

Definition numel (sh : list nat) : nat := foldr Nat.mul 1%nat sh.
Definition rank (x : Tensor) : nat := length (shape x).

(** The attributes of a tensor object that the sources read. *)
Inductive attr_value : Type :=
| AShape (sh : list nat)
| ADtype (d : dtype)
| ADevice (dev : string).

(** [getattr(x, name)]: a name that is not an attribute raises
    [AttributeError]. *)
Definition getattr (x : Tensor) (name : string) : result attr_value :=
  if String.eqb name "shape" then Ok (AShape (shape x))
  else if String.eqb name "dtype" then Ok (ADtype (dtype_of x))
  else if String.eqb name "device" then Ok (ADevice (device x))
  else Raise (AttributeError name).

Definition as_dtype (v : attr_value) : result dtype :=
  match v with ADtype d => Ok d | _ => Raise TypeError end.

(** [x[i]] along the first axis. *)
Definition index (x : Tensor) (i : nat) : result Tensor :=
  match shape x with
  | [] => Raise IndexError
  | n :: sh =>
      if (i <? n)%nat
      then Ok (mk_tensor sh (dtype_of x) (device x)
                 (take (numel sh) (drop (i * numel sh) (data x))))
      else Raise IndexError
  end.

(** [x[-1]]. *)
Definition index_last (x : Tensor) : result Tensor :=
  match shape x with
  | [] => Raise IndexError
  | n :: _ => index x (n - 1)
  end.

(** Iteration over a tensor (unpacking, [zip(x, ...)]): its slices along the
    first axis; a scalar cannot be iterated. *)
Definition unstack (x : Tensor) : result (list Tensor) :=
  match shape x with
  | [] => Raise TypeError
  | n :: _ => for_each (index x) (seq 0 n)
  end.

(** [tf.zeros_like(x, dtype=d)]. *)
Definition zeros_like (x : Tensor) (d : dtype) : Tensor :=
  mk_tensor (shape x) d (device x) (replicate (numel (shape x)) F64.zero).

(** [tf.convert_to_tensor(0., dtype=d)] created on device [dev]. *)
Definition scalar_zero (d : dtype) (dev : string) : Tensor :=
  mk_tensor [] d dev [F64.zero].

(** [move_to_device(x, dev)]. *)
Definition move_to_device (x : Tensor) (dev : string) : Tensor :=
  mk_tensor (shape x) (dtype_of x) dev (data x).

(** [cast_double(x)] on a tensor. *)
Definition cast_double (x : Tensor) : Tensor :=
  mk_tensor (shape x) float64 (device x) (data x).

(** [tf.reshape(x, [1, -1])], [tf.reshape(x, [-1, 1])], [tf.reshape(x, [-1])]. *)
Definition reshape_row (x : Tensor) : Tensor :=
  mk_tensor [1%nat; numel (shape x)] (dtype_of x) (device x) (data x).
Definition reshape_col (x : Tensor) : Tensor :=
  mk_tensor [numel (shape x); 1%nat] (dtype_of x) (device x) (data x).
Definition reshape_flat (x : Tensor) : Tensor :=
  mk_tensor [numel (shape x)] (dtype_of x) (device x) (data x).

(** [tf.reshape(x, sh)] for a shape without [-1]. *)
Definition reshape (x : Tensor) (sh : list nat) : result Tensor :=
  if (numel sh =? numel (shape x))%nat
  then Ok (mk_tensor sh (dtype_of x) (device x) (data x))
  else Raise InvalidArgumentError.

(** [tf.expand_dims(x, axis=0)]. *)
Definition expand_dims0 (x : Tensor) : Tensor :=
  mk_tensor (1%nat :: shape x) (dtype_of x) (device x) (data x).

(** [tf.convert_to_tensor([a, b])] of two tensors of one shape. *)
Definition pack2 (a b : Tensor) : result Tensor :=
  if decide (shape a = shape b /\ dtype_of a = dtype_of b)
  then Ok (mk_tensor (2%nat :: shape a) (dtype_of a) (device a) (data a ++ data b))
  else Raise ValueError.

(** [tf.stack(l)]: tensors of one shape and type along a new first axis. *)
Definition tf_stack (l : list Tensor) : result Tensor :=
  match l with
  | [] => Raise ValueError
  | a :: _ =>
      if forallb (fun b => bool_decide (shape b = shape a /\ dtype_of b = dtype_of a)) l
      then Ok (mk_tensor (length l :: shape a) (dtype_of a) (device a)
                 (concat (map data l)))
      else Raise InvalidArgumentError
  end.

Definition leading (x : Tensor) : nat := hd 0%nat (shape x).

(** [tf.concat(l, 0)]: a single tensor is returned as it is; otherwise the
    tensors must have rank at least one, one element type and equal
    trailing dimensions. *)
Definition tf_concat (l : list Tensor) : result Tensor :=
  match l with
  | [] => Raise ValueError
  | [a] => Ok a
  | a :: _ =>
      if forallb (fun b => bool_decide (shape b <> [] /\ tail (shape b) = tail (shape a)
                                        /\ dtype_of b = dtype_of a)) l
      then Ok (mk_tensor (sum_list (map leading l) :: tail (shape a))
                 (dtype_of a) (device a) (concat (map data l)))
      else Raise InvalidArgumentError
  end.

(** The helpers below are imported from tfdiffeq.misc, which is not among
    the sources; each is modelled by what its name and its use say. *)

(** [_numel(x)]: the number of elements of [x]. *)
Definition _numel (x : Tensor) : nat := numel (shape x).

(** [_check_len(x)]: [x.shape[0]] for a tensor, [len(x)] for a tuple. *)
Definition _check_len (x : Tensor) : result nat := getitem (shape x) 0.

Definition _check_len_tuple (l : list Tensor) : nat := length l.

(** [tf.convert_to_tensor([])]. *)
Definition empty_tensor (dev : string) : Tensor := mk_tensor [0%nat] float32 dev [].

(** The concatenation of flattened tensors, empty when there is none. *)
Definition flat_concat (dev : string) (flat : list Tensor) : result Tensor :=
  match flat with
  | [] => Ok (empty_tensor dev)
  | _ => tf_concat flat
  end.

(** [_flatten(sequence)]: every tensor reshaped to one axis, concatenated. *)
Definition _flatten (dev : string) (sequence : list Tensor) : result Tensor :=
  flat_concat dev (map reshape_flat sequence).

(** Modelled from the spec: [_flatten_convert_none_to_zeros] belongs to the
    imported package tfdiffeq and is not among the sources.  A gradient that
    is missing for a parameter is treated as exactly zero: it is replaced by
    zeros of that parameter's shape and type before the gradients are
    flattened and concatenated. *)
Definition _flatten_convert_none_to_zeros (dev : string)
    (sequence : list (option Tensor)) (like_sequence : list Tensor)
    : result Tensor :=
  flat_concat dev
    (map (fun pq => match fst pq with
                    | Some p => reshape_flat p
                    | None => reshape_flat (zeros_like (snd pq) (dtype_of (snd pq)))
                    end)
         (zip sequence like_sequence)).

End TF.

(** ** tfdiffeq_2.py: the backward pass of [OdeintAdjointMethod] *)

Module Adjoint.

Import TF.

(** The solver settings kept in the global [_arguments]. *)
Record _Arguments : Type := mk_arguments {
  method : option string;
  options : list (string * F64.float);
  rtol : F64.float;
  atol : F64.float
}.

(** One invocation of the solver by the backward pass: what it was given
    and what it returned. *)
Record solver_call : Type := mk_call {
  call_y0 : list Tensor;
  call_times : Tensor;
  call_result : list Tensor
}.

(** The variables the loop of [grad] updates, with the record of the
    solver invocations made so far. *)
Record loop_state : Type := mk_state {
  adj_y : list Tensor;
  adj_time : Tensor;
  adj_params : Tensor;
  time_vjps : list Tensor;
  calls : list solver_call
}.

(** What [grad] returns: the tuple of the entries of [adj_y] followed by
    [time_vjps], and [adj_params_list]. *)
Record grad_result : Type := mk_grad {
  input_grads : list Tensor;
  adj_params_list : list Tensor
}.

(** The operations the backward pass takes from TensorFlow and tfdiffeq,
    and the dynamics it differentiates. *)
Class Framework : Type := mk_framework {
  (** The dynamics [func(t, y)] followed by [cast_double]: the value bound
      to [func_eval] and [func_i], one float64 tensor whose first axis
      ranges over the components of the state. *)
  func : Tensor -> list Tensor -> Tensor;
  (** [tape.gradient(func_eval, sources, output_gradients=gradys)]: one
      entry per source, [None] where the tape has no gradient. *)
  tape_gradient :
    Tensor -> list Tensor -> Tensor -> result (list (option Tensor));
  (** [odeint(f, y0, t, rtol, atol, method, options)]. *)
  odeint :
    (Tensor -> list Tensor -> result (list Tensor)) ->
    list Tensor -> Tensor -> _Arguments -> result (list Tensor);
  (** The arithmetic kernels, with their broadcasting, and [tf.split]. *)
  tf_neg : Tensor -> Tensor;
  tf_add : Tensor -> Tensor -> result Tensor;
  tf_sub : Tensor -> Tensor -> result Tensor;
  tf_matmul : Tensor -> Tensor -> result Tensor;
  tf_split : Tensor -> list nat -> result (list Tensor);
  (** The device new constants are created on. *)
  current_device : string
}.

(** What [grad] captures: the forward solution [ans], the output times
    [t], the global [_arguments] and the trainable [variables]. *)
Class Closure : Type := mk_closure {
  ans : list Tensor;
  t : Tensor;
  _arguments : _Arguments;
  variables : list Tensor
}.

Section Backward.

Context {F : Framework} {E : Closure}.

Definition n_tensors : nat := length ans.
Definition f_params : list Tensor := variables.

(** A gradient as the code keeps it: [None] becomes zeros like the leaf. *)
Definition none_to_zeros (leaf : Tensor) (g : option Tensor) : Tensor :=
  match g with
  | None => zeros_like leaf (dtype_of leaf)
  | Some v => v
  end.

Definition augmented_dynamics (t : Tensor) (y_aug : list Tensor)
    : result (list Tensor) :=
  let y := slice 0 n_tensors y_aug in
  let adj_y := slice n_tensors (2 * n_tensors) y_aug in
  let func_eval := func t y in
  let* gradys := tf_stack (map tf_neg adj_y) in
  let gradys :=
    if (rank gradys <? rank func_eval)%nat then expand_dims0 gradys else gradys in
  let* grads := tape_gradient func_eval ((t :: y) ++ f_params) gradys in
  match grads with
  | [] => Raise ValueError
  | vjp_t :: vjp_y_and_params =>
      let vjp_y := slice 0 n_tensors vjp_y_and_params in
      let vjp_params := drop n_tensors vjp_y_and_params in
      let vjp_t := none_to_zeros t vjp_t in
      let vjp_y := map (fun p => none_to_zeros (snd p) (fst p)) (zip vjp_y y) in
      let* vjp_params :=
        _flatten_convert_none_to_zeros current_device vjp_params f_params in
      let* vjp_params :=
        if (_check_len_tuple f_params =? 0)%nat
        then
          let* v0 := getitem vjp_y 0 in
          let* a := getattr v0 "dype" in
          let* d := as_dtype a in
          let vjp_params := scalar_zero d current_device in
          let* v0 := getitem vjp_y 0 in
          Ok (move_to_device vjp_params (device v0))
        else Ok vjp_params in
      let* func_eval_parts := unstack func_eval in
      Ok (func_eval_parts ++ vjp_y ++ [vjp_t; vjp_params])
  end.

(** [tf.reshape(tf.matmul(tf.reshape(f, [1, -1]), tf.reshape(g, [-1, 1])), [1])]. *)
Definition dot (f g : Tensor) : result Tensor :=
  let* m := tf_matmul (reshape_row f) (reshape_col g) in
  reshape m [1%nat].

(** Python's [0] where a tensor is expected. *)
Definition py_zero : Tensor := scalar_zero int32 current_device.

(** [acc + dot(f, g)] over the remaining pairs. *)
Fixpoint sum_dots (acc : Tensor) (pairs : list (Tensor * Tensor))
    : result Tensor :=
  match pairs with
  | [] => Ok acc
  | (f, g) :: rest =>
      let* d := dot f g in
      let* acc' := tf_add acc d in
      sum_dots acc' rest
  end.

(** [sum(dot(f, g) for f, g in pairs)]: Python starts from [0], which
    TensorFlow converts to the type of the first product it is added to. *)
Definition py_sum_dots (pairs : list (Tensor * Tensor)) : result Tensor :=
  match pairs with
  | [] => Ok py_zero
  | (f, g) :: rest =>
      let* d := dot f g in
      let* acc := tf_add (scalar_zero (dtype_of d) current_device) d in
      sum_dots acc rest
  end.

(** [dLd_cur_t] at output index [i]. *)
Definition time_contribution (grad_output : list Tensor) (i : nat)
    : result Tensor :=
  let* ans_i := for_each (fun ans_ => index ans_ i) ans in
  let* grad_output_i := for_each (fun g => index g i) grad_output in
  let* t_i := index t i in
  let func_i := func t_i ans_i in
  let* func_i_parts := unstack func_i in
  py_sum_dots (zip func_i_parts grad_output_i).

(** [a[1] if _check_len(a) > 0 else a]. *)
Definition at_end_time (a : Tensor) : result Tensor :=
  let* n := _check_len a in
  if (0 <? n)%nat then index a 1 else Ok a.

(** [adj_y_ + grad_output_[j]] over [zip(adj_y, grad_output)]. *)
Definition add_output_grads (grad_output : list Tensor) (j : nat)
    (adj_y : list Tensor) : result (list Tensor) :=
  for_each (fun p => let* g := index (snd p) j in tf_add (fst p) g)
           (zip adj_y grad_output).

(** The parameter adjoint handed to the solver: when it has no element it
    is replaced by [tf.convert_to_tensor(0., dtype=adj_y[0].dtype)] moved
    to [adj_y[0].device]. *)
Definition params_or_placeholder (st : loop_state) : result Tensor :=
  if (_numel (adj_params st) =? 0)%nat
  then
    let* a0 := getitem (adj_y st) 0 in
    Ok (move_to_device (scalar_zero (dtype_of a0) current_device) (device a0))
  else Ok (adj_params st).

(** The body of [for i in range(T - 1, 0, -1)]. *)
Definition loop_body (grad_output : list Tensor) (i : nat) (st : loop_state)
    : result loop_state :=
  let* ans_i := for_each (fun ans_ => index ans_ i) ans in
  let* dLd_cur_t := time_contribution grad_output i in
  let adj_time := cast_double (adj_time st) in
  let* adj_time := tf_sub adj_time dLd_cur_t in
  let time_vjps := time_vjps st ++ [dLd_cur_t] in
  let* adj_params := params_or_placeholder st in
  let aug_y0 := ans_i ++ adj_y st ++ [adj_time; adj_params] in
  let* t_i := index t i in
  let* t_prev := index t (i - 1) in
  let* times := pack2 t_i t_prev in
  let* aug_ans := odeint augmented_dynamics aug_y0 times _arguments in
  let adj_y := slice n_tensors (2 * n_tensors) aug_ans in
  let* adj_time := getitem aug_ans (2 * n_tensors) in
  let* adj_params := getitem aug_ans (2 * n_tensors + 1) in
  let* adj_y := for_each at_end_time adj_y in
  let* adj_time := at_end_time adj_time in
  let* adj_params := at_end_time adj_params in
  let* adj_y := add_output_grads grad_output (i - 1) adj_y in
  Ok (mk_state adj_y adj_time adj_params time_vjps
        (calls st ++ [mk_call aug_y0 times aug_ans])).

(** [for i in range(n, 0, -1)]: the body runs at [n], [n - 1], ..., [1]. *)
Fixpoint loop (grad_output : list Tensor) (n : nat) (st : loop_state)
    : result loop_state :=
  match n with
  | O => Ok st
  | S n' =>
      let* st' := loop_body grad_output (S n') st in
      loop grad_output n' st'
  end.

(** [T = ans[0].shape[0]]. *)
Definition output_count : result nat :=
  let* ans0 := getitem ans 0 in
  getitem (shape ans0) 0.

(** The state the loop starts from. *)
Definition initial_state (flat_params : Tensor) (adj_y : list Tensor)
    : loop_state :=
  let adj_params := zeros_like flat_params (dtype_of flat_params) in
  let adj_time :=
    move_to_device (scalar_zero (dtype_of t) current_device) (device t) in
  mk_state adj_y adj_time adj_params [] [].

(** What follows the loop: the time gradients are put in chronological
    order and the flat parameter adjoint is cut back into the shapes of
    the variables. *)
Definition finish (st : loop_state) : result (grad_result * list solver_call) :=
  let time_vjps := time_vjps st ++ [adj_time st] in
  let* time_vjps := tf_concat (reverse time_vjps) in
  let var_flat_lens := map _numel variables in
  let var_shapes := map shape variables in
  let* adj_params_splits := tf_split (adj_params st) var_flat_lens in
  let* adj_params_list :=
    for_each (fun p => reshape (fst p) (snd p)) (zip adj_params_splits var_shapes) in
  Ok (mk_grad (adj_y st ++ [time_vjps]) adj_params_list, calls st).

(** [grad], called with the output gradients as positional arguments and
    [variables] by keyword.  [grad_output] is the tuple of the positional
    arguments, so the branch for a single tensor is never taken. *)
Definition grad (grad_output : list Tensor)
    : result (grad_result * list solver_call) :=
  let* flat_params := _flatten current_device variables in
  let* T := output_count in
  let* adj_y := for_each index_last grad_output in
  let* st := loop grad_output (T - 1) (initial_state flat_params adj_y) in
  finish st.

(** What the loop keeps of a tensor returned by the solver: its entry at
    the end time, [a[1]], when its first axis has a positive length, and the
    tensor itself when that axis is empty. *)
Definition value_at_end (r a : Tensor) : Prop :=
  exists n sh, shape r = n :: sh
               /\ if (0 <? n)%nat then index r 1 = Ok a else a = r.

(** [corrected] is [at_prev] with the output gradient at index [j] added,
    component by component, over the shorter of the two tuples:
    [corrected[k] = at_prev[k] + grad_output[k][j]]. *)
Definition corrected_by (grad_output : list Tensor) (j : nat)
    (at_prev corrected : list Tensor) : Prop :=
  length corrected = Nat.min (length at_prev) (length grad_output)
  /\ forall k a g,
       at_prev !! k = Some a -> grad_output !! k = Some g ->
       exists g_j c,
         index g j = Ok g_j /\ tf_add a g_j = Ok c /\ corrected !! k = Some c.

(** [d] is the product of the row [f] with the column [g], as a tensor of
    shape [[1]]. *)
Definition dot_product (f g d : Tensor) : Prop :=
  exists m, tf_matmul (reshape_row f) (reshape_col g) = Ok m
            /\ reshape m [1%nat] = Ok d.

(** [total] is [acc + ds[0] + ds[1] + ...], added from left to right. *)
Fixpoint running_sum (acc : Tensor) (ds : list Tensor) (total : Tensor) : Prop :=
  match ds with
  | [] => total = acc
  | d :: ds' => exists acc', tf_add acc d = Ok acc' /\ running_sum acc' ds' total
  end.

(** [d] is the time contribution at the output index [i]: the dynamics is
    evaluated at [t[i]] and the state [ans[.][i]], each of its rows is
    multiplied with the output gradient [grad_output[.][i]] of the same
    component, and the products are added up from zero. *)
Definition is_time_contribution (grad_output : list Tensor) (i : nat)
    (d : Tensor) : Prop :=
  exists t_i y_i g_i f_i products,
    index t i = Ok t_i
    /\ Forall2 (fun a y => index a i = Ok y) ans y_i
    /\ Forall2 (fun g gi => index g i = Ok gi) grad_output g_i
    /\ unstack (func t_i y_i) = Ok f_i
    /\ Forall2 (fun p prod => dot_product (fst p) (snd p) prod)
          (zip f_i g_i) products
    /\ match products with
       | [] => d = py_zero
       | p :: _ =>
           running_sum (scalar_zero (dtype_of p) current_device) products d
       end.

(** The adjoint of the state along the solver calls made for the output
    indices [i], [i - 1], ..., [1]: the call for index [j] integrates from
    [t[j]] to [t[j - 1]] starting from the current adjoint, and the
    adjoint it returns at [t[j - 1]] receives [grad_output[j - 1]] before
    the next call. *)
Fixpoint adjoint_chain (grad_output : list Tensor) (i : nat)
    (adj_in : list Tensor) (trace : list solver_call) (adj_out : list Tensor)
    : Prop :=
  match i, trace with
  | O, [] => adj_out = adj_in
  | S i', c :: rest =>
      (exists ans_i adj_time adj_params,
          for_each (fun ans_ => index ans_ (S i')) ans = Ok ans_i
          /\ call_y0 c = ans_i ++ adj_in ++ [adj_time; adj_params])
      /\ (exists t_i t_prev,
            index t (S i') = Ok t_i /\ index t i' = Ok t_prev
            /\ pack2 t_i t_prev = Ok (call_times c))
      /\ odeint augmented_dynamics (call_y0 c) (call_times c) _arguments
         = Ok (call_result c)
      /\ exists at_prev corrected,
           Forall2 value_at_end
             (slice n_tensors (2 * n_tensors) (call_result c)) at_prev
           /\ corrected_by grad_output i' at_prev corrected
           /\ adjoint_chain grad_output i' corrected rest adj_out
  | _, _ => False
  end.

(** The running time adjoint along the same calls: at index [j] the
    contribution [dLd_cur_t] is subtracted before the call and recorded in
    [vjps]; after the call the time adjoint is read back at [t[j - 1]]. *)
Fixpoint time_chain (grad_output : list Tensor) (i : nat)
    (adj_time_in : Tensor) (trace : list solver_call) (vjps : list Tensor)
    (adj_time_out : Tensor) : Prop :=
  match i, trace, vjps with
  | O, [], [] => adj_time_out = adj_time_in
  | S i', c :: rest, d :: vjps' =>
      is_time_contribution grad_output (S i') d
      /\ (exists adj_time' front adj_params,
            tf_sub (cast_double adj_time_in) d = Ok adj_time'
            /\ call_y0 c = front ++ [adj_time'; adj_params])
      /\ exists a adj_time_next,
           getitem (call_result c) (2 * n_tensors) = Ok a
           /\ value_at_end a adj_time_next
           /\ time_chain grad_output i' adj_time_next rest vjps' adj_time_out
  | _, _, _ => False
  end.

End Backward.

(** [grad] as it is called: with the output gradients and the keyword
    argument [variables], whose default is [None].  With [None] the first
    statement, [_flatten(variables)], iterates over [None] and raises
    [TypeError]. *)
Definition grad_call {F : Framework} (ans0 : list Tensor) (t0 : Tensor)
    (args : _Arguments) (variables0 : option (list Tensor))
    (grad_output : list Tensor) : result (grad_result * list solver_call) :=
  match variables0 with
  | None => Raise TypeError
  | Some vs => @grad F (mk_closure ans0 t0 args vs) grad_output
  end.

(** The call [tf.custom_gradient] makes for the backward pass: the keyword
    [variables] is passed only when the forward pass has read at least one
    trainable variable; otherwise [grad] is called with the output
    gradients alone. *)
Definition custom_gradient_grad {F : Framework} (ans0 : list Tensor)
    (t0 : Tensor) (args : _Arguments) (trainable : list Tensor)
    (grad_output : list Tensor) : result (grad_result * list solver_call) :=
  grad_call ans0 t0 args
    (match trainable with [] => None | _ :: _ => Some trainable end)
    grad_output.

End Adjoint.

(** ** A concrete framework: element-wise kernels and a one-step solver

    The backward pass is parametric in the dynamics, the tape, the solver
    and the arithmetic kernels.  This instance lets it run on concrete
    tensors: the kernels act element-wise (an operand with one element is
    broadcast), the solver takes a single explicit Euler step between its
    two time points. *)

Module Euler.

Import TF Adjoint.

Definition broadcast (f : F64.float -> F64.float -> F64.float)
    (a b : Tensor) : result Tensor :=
  match data a, data b with
  | [x], [y] =>
      Ok (mk_tensor (if (rank a <? rank b)%nat then shape b else shape a)
                    (dtype_of a) (device a) [f x y])
  | [x], _ =>
      Ok (mk_tensor (shape b) (dtype_of b) (device b) (map (f x) (data b)))
  | _, [y] =>
      Ok (mk_tensor (shape a) (dtype_of a) (device a) (map (fun x => f x y) (data a)))
  | _, _ =>
      if (length (data a) =? length (data b))%nat
      then Ok (mk_tensor (shape a) (dtype_of a) (device a)
                 (zip_with f (data a) (data b)))
      else Raise InvalidArgumentError
  end.

Definition tf_neg (x : Tensor) : Tensor :=
  mk_tensor (shape x) (dtype_of x) (device x) (map SFopp (data x)).

Definition tf_add : Tensor -> Tensor -> result Tensor := broadcast F64.add.
Definition tf_sub : Tensor -> Tensor -> result Tensor := broadcast F64.sub.

(** The product of a [1 x n] row and an [n x 1] column. *)
Definition tf_matmul (a b : Tensor) : result Tensor :=
  match shape a, shape b with
  | [1%nat; n], [n'; 1%nat] =>
      if (n =? n')%nat
      then Ok (mk_tensor [1%nat; 1%nat] (dtype_of a) (device a)
                 [foldl F64.add F64.zero (zip_with F64.mul (data a) (data b))])
      else Raise InvalidArgumentError
  | _, _ => Raise InvalidArgumentError
  end.

Fixpoint split_data (x : Tensor) (l : list F64.float) (sizes : list nat)
    : list Tensor :=
  match sizes with
  | [] => []
  | n :: sizes' =>
      mk_tensor [n] (dtype_of x) (device x) (take n l)
      :: split_data x (drop n l) sizes'
  end.

Definition tf_split (x : Tensor) (sizes : list nat) : result (list Tensor) :=
  match sizes with
  | [] => Raise InvalidArgumentError
  | _ =>
      if (sum_list sizes =? length (data x))%nat
      then Ok (split_data x (data x) sizes)
      else Raise InvalidArgumentError
  end.

(** The dynamics [dy/dt = y]: the state components stacked. *)
Definition func (t : Tensor) (y : list Tensor) : Tensor :=
  match tf_stack (map cast_double y) with
  | Ok s => s
  | Raise _ => mk_tensor [0%nat] float64 EmptyString []
  end.

(** A tape that knows the gradient with respect to the state only: it
    returns the output gradient for each state component and [None] for the
    time and for the parameters. *)
Definition tape_gradient (func_eval : Tensor) (sources : list Tensor)
    (gradys : Tensor) : result (list (option Tensor)) :=
  Ok (imap (fun k src =>
              if ((0 <? k) && (k <=? leading func_eval))%nat
              then Some (mk_tensor (shape src) float64 (device src)
                           (take (numel (shape src))
                                 (drop ((k - 1) * numel (shape src)) (data gradys))))
              else None)
           sources).

(** The dynamics [dy/dt = c * y], and its tape: [c] times the output
    gradient for each state component. *)
Definition times_constant (c : F64.float) (x : Tensor) : Tensor :=
  mk_tensor (shape x) (dtype_of x) (device x) (map (F64.mul c) (data x)).

Definition scaled_func (c : F64.float) (t : Tensor) (y : list Tensor) : Tensor :=
  times_constant c (func t y).

Definition scaled_tape_gradient (c : F64.float) (func_eval : Tensor)
    (sources : list Tensor) (gradys : Tensor) : result (list (option Tensor)) :=
  tape_gradient func_eval sources (times_constant c gradys).

(** One explicit Euler step from [times[0]] to [times[1]]; the result holds
    the state at both times. *)
Definition euler_step (h : F64.float) (y k : Tensor) : result Tensor :=
  let* hk := broadcast F64.mul k (mk_tensor [] float64 (device y) [h]) in
  let* y1 := broadcast F64.add y hk in
  Ok (mk_tensor (2%nat :: shape y) (dtype_of y) (device y) (data y ++ data y1)).

Definition odeint (f : Tensor -> list Tensor -> result (list Tensor))
    (y0 : list Tensor) (times : Tensor) (a : _Arguments)
    : result (list Tensor) :=
  let* t0 := index times 0 in
  let* t1 := index times 1 in
  let* h := broadcast F64.sub t1 t0 in
  let* k := f t0 y0 in
  for_each (fun p => euler_step (hd F64.zero (data h)) (fst p) (snd p)) (zip y0 k).

Definition cpu : string := "/cpu:0".

Definition solver_settings : _Arguments :=
  mk_arguments None [] (S754_finite false 4722366482869645 (-72))
                       (S754_finite false 4951760157141521 (-92)).

#[local] Instance framework : Framework :=
  mk_framework func tape_gradient odeint tf_neg tf_add tf_sub tf_matmul tf_split cpu.

(** The same framework with the dynamics [dy/dt = c * y]. *)
Definition scaled_framework (c : F64.float) : Framework :=
  mk_framework (scaled_func c) (scaled_tape_gradient c) odeint
    tf_neg tf_add tf_sub tf_matmul tf_split cpu.

(** The backward pass and its augmented dynamics on this framework. *)
Definition grad (ans : list Tensor) (t : Tensor) (variables grad_output : list Tensor)
    : result (grad_result * list solver_call) :=
  @Adjoint.grad framework (mk_closure ans t solver_settings variables) grad_output.

(** The backward pass for the dynamics [dy/dt = c * y]. *)
Definition grad_scaled (c : F64.float) (ans : list Tensor) (t : Tensor)
    (variables grad_output : list Tensor)
    : result (grad_result * list solver_call) :=
  @Adjoint.grad (scaled_framework c) (mk_closure ans t solver_settings variables)
    grad_output.

Definition augmented_dynamics (ans variables : list Tensor) (t : Tensor)
    (y_aug : list Tensor) : result (list Tensor) :=
  @Adjoint.augmented_dynamics framework
    (mk_closure ans t solver_settings variables) t y_aug.

(** Three output times [0, 0.5, 1], a scalar state, one scalar parameter. *)
Definition vec (l : list Z) (scale : F64.float) : Tensor :=
  mk_tensor [length l] float64 cpu (map (fun z => F64.mul (F64.of_Z z) scale) l).

(** The elements [z / 4] for [z] in [l]. *)
Definition quarters (l : list Z) : list F64.float :=
  map (fun z => F64.div (F64.of_Z z) (F64.of_Z 4)) l.

(** A scalar float64 tensor holding the integer [z]. *)
Definition vec_item (z : Z) : Tensor := mk_tensor [] float64 cpu [F64.of_Z z].

Definition t3 : Tensor := vec [0; 1; 2]%Z F64.half.
Definition ans3 : list Tensor := [vec [1; 2; 4]%Z F64.one].
Definition grad_output3 : list Tensor := [vec [3; 5; 7]%Z F64.one].
Definition one_variable : list Tensor := [mk_tensor [] float64 cpu [F64.one]].

End Euler.

From Stdlib Require Import Sorted DecimalString.

(** ** experiments/massspringdamper/utils.py: the remaining functions *)

Module Harness.

Import NP.

(** A float whose sign bit is [s], or a NaN. *)
Definition carries (s : bool) (x : F64.float) : Prop :=
  match x with
  | S754_nan => True
  | S754_zero s' | S754_infinity s' | S754_finite s' _ _ => s' = s
  end.

(** Neither a negative number nor a negative zero. *)
Definition not_negative (x : F64.float) : bool :=
  match x with
  | S754_nan => true
  | S754_zero s | S754_infinity s | S754_finite s _ _ => negb s
  end.

(** [trajectory_error(x_pred, x_val)]: [np.mean(np.abs(x_pred - x_val))],
    the mean over all elements. *)
Definition trajectory_error (x_pred x_val : ndarray) : result F64.float :=
  let* d := binop F64.sub x_pred x_val in
  Ok (mean (map F64.abs (data d))).

(** [a.reshape(dims)] where at most one entry of [dims] is [-1]: the
    entry is inferred from the size of [a]; a size that does not fit raises
    [ValueError]. *)
Definition known_size (dims : list Z) : Z :=
  foldr (fun d acc => if (d =? -1)%Z then acc else (d * acc)%Z) 1%Z dims.

Definition unknown_count (dims : list Z) : nat :=
  length (filter (fun d => d = (-1)%Z) dims).

Definition np_reshape (a : ndarray) (dims : list Z) : result ndarray :=
  let size := Z.of_nat (numel (shape a)) in
  let known := known_size dims in
  match unknown_count dims with
  | O =>
      if (known =? size)%Z
      then Ok (mk_ndarray (map Z.to_nat dims) (data a))
      else Raise ValueError
  | 1%nat =>
      if ((0 <? known) && (size mod known =? 0))%Z
      then Ok (mk_ndarray
                 (map (fun d => Z.to_nat (if (d =? -1)%Z then (size / known)%Z else d))
                      dims)
                 (data a))
      else Raise ValueError
  | _ => Raise ValueError
  end.

(** The first statement of [visualize]: [x_val = x_val.reshape(2, -1, 2)]. *)
Definition visualize_reshape (x_val : ndarray) : result ndarray :=
  np_reshape x_val [2; -1; 2]%Z.

(** [-x], element-wise. *)
Definition negative (a : ndarray) : ndarray :=
  mk_ndarray (shape a) (map SFopp (data a)).

(** [tf.stack([a, b], axis=-1)] of two vectors of one length: the rows
    [(a[i], b[i])]. *)
Definition stack_last (a b : ndarray) : result ndarray :=
  match shape a with
  | [n] =>
      if decide (shape b = shape a)
      then Ok (mk_ndarray [n; 2%nat]
                 (concat (zip_with (fun x y => [x; y]) (data a) (data b))))
      else Raise ValueError
  | _ => Raise ValueError
  end.

(** [Lambda.call(t, y)] on a float64 array, the reference field with
    [m = 1], [c = 1], [d = 0]:
    [tf.stack([y[:, 1], -(d*y[:, 1] + c*y[:, 0]) / m], axis=-1)]. *)
Definition Lambda_call (t : F64.float) (y : ndarray) : result ndarray :=
  let m := 1%Z in
  let c := 1%Z in
  let d := 0%Z in
  let* velocity := column y 1 in
  let* v := column y 1 in
  let* x := column y 0 in
  let* s := binop F64.add (scale (F64.of_Z d) v) (scale (F64.of_Z c) x) in
  let acceleration :=
    mk_ndarray (shape s)
      (map (fun z => F64.div z (F64.of_Z m)) (data (negative s))) in
  stack_last velocity acceleration.

(** [tf.expand_dims(x, axis=0)] and [r[0]] on arrays. *)
Definition expand_dims0 (x : ndarray) : ndarray :=
  mk_ndarray (1%nat :: shape x) (data x).

Section ModelFunc.

(** The wrapped [tf.keras.Model], called on a batch. *)
Variable model : ndarray -> result ndarray.

(** [modelFunc.call(t, x)]. *)
Definition modelFunc_call (t : F64.float) (x : ndarray) : result ndarray :=
  if (length (shape x) =? 1)%nat
  then
    let* r := model (expand_dims0 x) in
    getitem0 r 0
  else model x.

End ModelFunc.

(** [RunningAverageMeter]: the momentum and the attributes [val], [avg]. *)
Record RunningAverageMeter : Type := mk_meter {
  momentum : F64.float;
  val : option F64.float;
  avg : F64.float
}.

(** [reset()]: [val = None], [avg = 0]. *)
Definition reset (self : RunningAverageMeter) : RunningAverageMeter :=
  mk_meter (momentum self) None F64.zero.

(** [RunningAverageMeter(momentum)]. *)
Definition new_meter (momentum : F64.float) : RunningAverageMeter :=
  reset (mk_meter momentum None F64.zero).

(** [self.avg * self.momentum + val * (1 - self.momentum)]. *)
Definition blend (momentum avg val : F64.float) : F64.float :=
  F64.add (F64.mul avg momentum) (F64.mul val (F64.sub F64.one momentum)).

(** [update(val)]. *)
Definition update (self : RunningAverageMeter) (v : F64.float)
    : RunningAverageMeter :=
  let avg' :=
    match val self with
    | None => v
    | Some _ => blend (momentum self) (avg self) v
    end in
  mk_meter (momentum self) (Some v) avg'.

(** [0.99], the default momentum. *)
Definition default_momentum : F64.float :=
  S754_finite false 8917127262193582 (-53).

End Harness.

(** ** experiments/massspringdamper/utils.py: [visualize] as a whole *)

Module Visualize.

Import NP Utils Harness Log FS.

(** [str(z)] and ['{:03d}'.format(z)] for a Python integer: the decimal
    digits, padded with zeros to three characters, the sign included. *)
Definition str_int (z : Z) : string := NilZero.string_of_int (Z.to_int z).

Fixpoint zeros (n : nat) : string :=
  match n with
  | O => EmptyString
  | S n' => String.append "0" (zeros n')
  end.

Definition zero_padded (width : nat) (digits : string) : string :=
  String.append (zeros (width - String.length digits)) digits.

Definition format_03d (z : Z) : string :=
  if (z <? 0)%Z
  then String.append "-" (zero_padded 2 (str_int (Z.abs z)))
  else zero_padded 3 (str_int z).

(** The file [plt.savefig(PLOT_DIR + '/{:03d}'.format(epoch))] writes:
    matplotlib appends the extension of its default format, [png], to a
    name that has none. *)
Definition plot_path (PLOT_DIR : string) (epoch : Z) : string :=
  String.append PLOT_DIR
    (String.append "/" (String.append (format_03d epoch) ".png")).

(** [for x_ in a]: the entries along the first axis; a 0-d array cannot be
    iterated. *)
Definition iterate (a : ndarray) : result (list ndarray) :=
  match shape a with
  | [] => Raise TypeError
  | n :: _ => for_each (fun i => getitem0 a (Z.of_nat i)) (seq 0 n)
  end.

Section Harness.

(** The model, [odeint] and matplotlib are not among the sources; what
    [visualize] takes from them is a parameter here. *)

(** Lines 165-192: the predicted trajectories [x_t_extrap] and
    [x_t_interp], rolled out by the model from the first states of the
    reshaped [x_val]. *)
Variable rollout : ndarray -> result (ndarray * ndarray).

(** Lines 194-279: the five panels drawn from [x_val] and [x_t]. *)
Variable draw_axes : ndarray -> ndarray -> result unit.

(** Lines 280-281: the energy panel drawn from the energies of the
    interpolated states, and the picture [savefig] writes. *)
Variable draw_energy : list ndarray -> result string.

(** Lines 295-296: the seconds between [TIME_OF_RUN] and now; [strptime]
    raises [ValueError] for a [TIME_OF_RUN] that is not of the form
    [%Y%m%d-%H%M%S]. *)
Variable wall_time : string -> result F64.float.

(** ['{}'.format(v)] for a float or a NumPy value. *)
Variable format_value : ndarray -> string.

(** Lines 164-281: everything up to the picture. *)
Definition evaluate (x_val : ndarray) : result (ndarray * ndarray * string) :=
  let* x_val := np_reshape x_val [2; -1; 2]%Z in
  let* '(x_t_extrap, x_t_interp) := rollout x_val in
  let* x_t := stack [x_t_extrap; x_t_interp] in
  let* _ := draw_axes x_val x_t in
  let* states := iterate x_t_interp in
  let* energies := for_each (fun x_ => total_energy x_ 1 1) states in
  let* picture := draw_energy energies in
  Ok (x_val, x_t, picture).

(** Lines 285-300: the metrics and the values of the row. *)
Definition compute_metrics (x_val x_t : ndarray) (TIME_OF_RUN : string)
    (epoch : Z) : result metrics :=
  let* x_t0 := getitem0 x_t 0 in
  let* x_val0 := getitem0 x_val 0 in
  let* energy_drift_extrap := relative_energy_drift x_t0 x_val0 (-1) in
  let* phase_error_extrap := relative_phase_error x_t0 x_val0 in
  let* traj_error_extrap := trajectory_error x_t0 x_val0 in
  let* x_t1 := getitem0 x_t 1 in
  let* x_val1 := getitem0 x_val 1 in
  let* energy_drift_interp := relative_energy_drift x_t1 x_val1 (-1) in
  let* phase_error_interp := relative_phase_error x_t1 x_val1 in
  let* traj_error_interp := trajectory_error x_t1 x_val1 in
  let* wall := wall_time TIME_OF_RUN in
  Ok (mk_metrics (format_value (scalar wall)) (str_int epoch)
        (format_value energy_drift_interp) (format_value energy_drift_extrap)
        (format_value (scalar phase_error_interp))
        (format_value (scalar phase_error_extrap))
        (format_value (scalar traj_error_interp))
        (format_value (scalar traj_error_extrap))).

(** [visualize(model, x_val, PLOT_DIR, TIME_OF_RUN, args, ..., epoch)] on a
    store of text and picture files: the store it leaves, and [None] or the
    exception raised.  The picture is written before the metrics are
    computed, so it stays when a later statement raises. *)
Definition visualize (x_val : ndarray) (PLOT_DIR TIME_OF_RUN : string)
    (a : args) (epoch : Z) (fs : store string) : store string * result unit :=
  match evaluate x_val with
  | Raise e => (fs, Raise e)
  | Ok (x_val, x_t, picture) =>
      match write_file (plot_path PLOT_DIR epoch) picture fs with
      | Raise e => (fs, Raise e)
      | Ok fs1 =>
          match compute_metrics x_val x_t TIME_OF_RUN epoch with
          | Raise e => (fs1, Raise e)
          | Ok m =>
              let file_path := file_path PLOT_DIR TIME_OF_RUN a in
              if isdir (dirname file_path) fs1
              then (mk_store (dirs fs1)
                      (visualize_log PLOT_DIR TIME_OF_RUN a m (files fs1)),
                    Ok tt)
              else (fs1, Raise (FileNotFoundError file_path))
          end
      end
  end.

End Harness.

(** Stand-ins to run [visualize]: a model that reproduces the reference,
    drawing that always succeeds, a clock that reads twelve seconds after a
    well-formed [TIME_OF_RUN], and values rendered by their number of
    elements. *)
Definition exact_rollout (x_val : ndarray) : result (ndarray * ndarray) :=
  let* a := getitem0 x_val 0 in
  let* b := getitem0 x_val 1 in
  Ok (a, b).

Definition blank_axes (x_val x_t : ndarray) : result unit := Ok tt.
Definition blank_energy (energies : list ndarray) : result string := Ok "picture".

Definition twelve_seconds (TIME_OF_RUN : string) : result F64.float :=
  if (String.length TIME_OF_RUN =? 15)%nat then Ok (F64.of_Z 12)
  else Raise ValueError.

Definition count_format (v : ndarray) : string :=
  str_int (Z.of_nat (length (data v))).

(** Two series of two states, and a store with the directory [plots]. *)
Definition two_series : ndarray :=
  mk_ndarray [2%nat; 2%nat; 2%nat]
    (map F64.of_Z [3; 0; 4; 0; 1; 0; 2; 0]%Z).

Definition plots_store : store string := mk_store {[ "plots" ]} ∅.

Definition run (TIME_OF_RUN : string) (epoch : Z) (fs : store string)
    : store string * result unit :=
  visualize exact_rollout blank_axes blank_energy twelve_seconds count_format
    two_series "plots" TIME_OF_RUN sample_args epoch fs.

End Visualize.

(** ** Repeated evaluation and the files of the dataset *)

Module Runs.

Import Log.

(** [visualize] called once per element of [ms], in order. *)
Definition visualize_log_all (PLOT_DIR TIME_OF_RUN : string) (a : args)
    (ms : list metrics) (fs : gmap string string) : gmap string string :=
  foldl (fun fs m => visualize_log PLOT_DIR TIME_OF_RUN a m fs) fs ms.

(** A text without a line end. *)
Fixpoint no_newline (s : string) : bool :=
  match s with
  | EmptyString => true
  | String c s' => negb (Ascii.eqb c (Ascii.ascii_of_nat 10)) && no_newline s'
  end.

Definition fields (m : metrics) : list string :=
  [wall_time m; epoch m; energy_drift_interp m; energy_drift_extrap m;
   phase_error_interp m; phase_error_extrap m;
   traj_error_interp m; traj_error_extrap m].

(** The last character of a text. *)
Fixpoint last_char (s : string) : option Ascii.ascii :=
  match s with
  | EmptyString => None
  | String c s' =>
      match last_char s' with
      | Some d => Some d
      | None => Some c
      end
  end.

(** A data row without its line end. *)
Definition row_text (m : metrics) : string := join_comma (fields m).

(** The first of the four dataset files, in the order [load_dataset] reads
    them, that the store does not hold. *)
Definition first_missing (fs : FS.store NP.ndarray) : option string :=
  find (fun p => bool_decide (FS.files fs !! p = None))
       [Dataset.x_train_path; Dataset.y_train_path;
        Dataset.x_val_path; Dataset.y_val_path].

(** A single output time on the concrete framework, and two variables of
    different shapes. *)
Definition t1 : TF.Tensor := Euler.vec [0]%Z F64.half.
Definition ans1 : list TF.Tensor := [Euler.vec [1]%Z F64.one].
Definition grad_output1 : list TF.Tensor := [Euler.vec [3]%Z F64.one].
Definition two_variables : list TF.Tensor :=
  [TF.mk_tensor [2%nat; 1%nat] TF.float64 Euler.cpu [F64.one; F64.one];
   TF.mk_tensor [] TF.float64 Euler.cpu [F64.one]].

(** The initial position of series [i] of [n_series]: the [i]-th draw, and
    in the second half the draw [+ np.pi - 1]. *)
Definition initial_position (random : nat -> F64.float) (n_series i : nat)
    : F64.float :=
  if (i <? n_series / 2)%nat then random i
  else F64.sub (F64.add (random i) Dataset.np_pi) F64.one.

End Runs.

(** * Properties *)

(** ** Floating-point facts *)

Section FloatFacts.

Lemma is_zero_eqb x : F64.is_zero x = F64.eqb x F64.zero.
Proof. destruct x as [s|s| |s m e]; try destruct s; reflexivity. Qed.

Lemma shl_align_same m e : shl_align m e e = (m, e).
Proof. unfold shl_align. rewrite Z.sub_diag. reflexivity. Qed.

(** A finite number minus itself is [+0], with no rounding involved. *)
Lemma sub_self_finite s m e :
  F64.sub (S754_finite s m e) (S754_finite s m e) = S754_zero false.
Proof.
  unfold F64.sub, SFsub. rewrite Z.min_id, shl_align_same. simpl fst.
  rewrite Z.sub_diag. reflexivity.
Qed.

Lemma drift_self_finite x :
  F64.is_finite x = true -> F64.is_zero x = false ->
  F64.is_zero (F64.div (F64.sub x x) x) = true.
Proof.
  destruct x as [s|s| |s m e]; try discriminate. intros _ _.
  rewrite sub_self_finite. reflexivity.
Qed.

(** Infinities and NaN absorb sums and quotients. *)
Lemma add_nonfinite_l x y :
  F64.is_finite x = false -> F64.is_finite (F64.add x y) = false.
Proof.
  destruct x as [[]|[]| |[] m e]; try discriminate; intros _;
    destruct y as [[]|[]| |[] m' e']; reflexivity.
Qed.

Lemma add_nonfinite_r x y :
  F64.is_finite y = false -> F64.is_finite (F64.add x y) = false.
Proof.
  destruct y as [[]|[]| |[] m e]; try discriminate; intros _;
    destruct x as [[]|[]| |[] m' e']; reflexivity.
Qed.

Lemma div_nonfinite x y :
  F64.is_finite x = false -> F64.is_finite (F64.div x y) = false.
Proof.
  destruct x as [[]|[]| |[] m e]; try discriminate; intros _;
    destruct y as [[]|[]| |[] m' e']; reflexivity.
Qed.

Lemma foldl_add_nonfinite (l : list F64.float) acc :
  F64.is_finite acc = false \/ Exists (fun x => F64.is_finite x = false) l ->
  F64.is_finite (foldl F64.add acc l) = false.
Proof.
  revert acc. induction l as [|x l IH]; intros acc [H|H]; cbn [foldl].
  - exact H.
  - inversion H.
  - apply IH. left. apply add_nonfinite_l, H.
  - apply IH. inversion H; subst.
    + left. apply add_nonfinite_r. assumption.
    + right. assumption.
Qed.

Lemma mean_nonfinite (l : list F64.float) :
  Exists (fun x => F64.is_finite x = false) l -> F64.is_finite (NP.mean l) = false.
Proof.
  intros H. unfold NP.mean. apply div_nonfinite. unfold NP.sum.
  apply foldl_add_nonfinite. right. exact H.
Qed.

End FloatFacts.

(** ** Results and arrays *)

Section ArrayFacts.

Import NP.

Lemma for_each_all_ok {A B} (f : A -> result B) (g : A -> B) (l : list A) :
  (forall a, In a l -> f a = Ok (g a)) -> for_each f l = Ok (map g l).
Proof.
  induction l as [|a l IH]; intros H; cbn [for_each map]; [reflexivity|].
  rewrite (H a) by (left; reflexivity). cbn [bind].
  rewrite IH by (intros b Hb; apply H; right; exact Hb). reflexivity.
Qed.

Lemma binop_same_shape f a b :
  shape a = shape b ->
  binop f a b = Ok (mk_ndarray (shape a) (zip_with f (data a) (data b))).
Proof. intros H. unfold binop. rewrite decide_True by exact H. reflexivity. Qed.

Lemma stack_uniform (l : list ndarray) (sh : list nat) :
  l <> [] -> Forall (fun a => shape a = sh) l ->
  exists s, stack l = Ok s /\ shape s = length l :: sh.
Proof.
  intros Hne Hall. destruct l as [|a l]; [congruence|]. unfold stack.
  assert (Ha : shape a = sh) by (inversion Hall; assumption).
  replace (forallb _ (a :: l)) with true.
  - eexists. split; [reflexivity|]. cbn [shape]. rewrite Ha. reflexivity.
  - symmetry. apply forallb_forall. intros b Hb. apply bool_decide_eq_true.
    rewrite Forall_forall in Hall. rewrite (Hall b), Ha; [reflexivity|].
    apply list_elem_of_In. exact Hb.
Qed.

End ArrayFacts.

(** ** Relative energy drift *)

Section EnergyDrift.

Import NP Utils.

Lemma drift_data_zero (d : list F64.float) :
  forallb F64.is_finite d = true ->
  forallb (fun x => negb (F64.is_zero x)) d = true ->
  forallb F64.is_zero (zip_with F64.div (zip_with F64.sub d d) d) = true.
Proof.
  induction d as [|x d IH]; simpl; [reflexivity|].
  intros Hf Hn.
  apply andb_prop in Hf as [Hx Hf]. apply andb_prop in Hn as [Hz Hn].
  apply andb_true_intro. split.
  - apply drift_self_finite; [exact Hx|].
    destruct (F64.is_zero x); [discriminate|reflexivity].
  - apply IH; assumption.
Qed.

(** C7, as amended.  For every trajectory [x] and index [t] at which the
    total energy of [x] (a scalar for a state of rank 1, one value per row
    for a batch of rank 2) is finite and non-zero in every entry,
    [relative_energy_drift(x, x, t)] returns zero in every entry. *)
Theorem relative_energy_drift_self (x : ndarray) (t : Z) (e : ndarray) :
  energy_at x t = Ok e ->
  all_finite e = true ->
  all_nonzero e = true ->
  exists z, relative_energy_drift x x t = Ok z
            /\ shape z = shape e
            /\ length (data z) = length (data e)
            /\ all_zero z = true.
Proof.
  unfold energy_at, relative_energy_drift. intros He Hf Hn.
  destruct (getitem0 x t) as [state|]; simpl in *; [|discriminate].
  rewrite He. simpl.
  rewrite (binop_same_shape F64.sub e e eq_refl). simpl.
  rewrite binop_same_shape by reflexivity. simpl.
  eexists. split; [reflexivity|]. simpl. split; [reflexivity|]. split.
  - rewrite !length_zip_with. lia.
  - apply drift_data_zero; assumption.
Qed.

(** The states [(3, 0)] and [(4, 0)]: the energy at the last index is 8. *)
Lemma relative_energy_drift_self_witness :
  exists z, relative_energy_drift (trajectory_of [3; 4]%Z)
                                  (trajectory_of [3; 4]%Z) (-1) = Ok z
            /\ shape z = []
            /\ length (data z) = 1%nat
            /\ all_zero z = true.
Proof.
  destruct (relative_energy_drift_self (trajectory_of [3; 4]%Z) (-1)
              (scalar (F64.of_Z 8)))
    as [z Hz]; [vm_compute; reflexivity | reflexivity | reflexivity |].
  exists z. exact Hz.
Defined.

(** C7, as stated, fails: the single state [(2^600, 0)] is finite, its
    energy overflows to [inf], which is not zero, and the drift of the
    trajectory against itself is [(inf - inf) / inf = nan]. *)
Lemma relative_energy_drift_overflow :
  energy_at x_huge (-1) = Ok (scalar F64.infinity)
  /\ all_nonzero (scalar F64.infinity) = true
  /\ relative_energy_drift x_huge x_huge (-1) = Ok (scalar F64.nan)
  /\ ~ drift_zero_whenever_nonzero.
Proof.
  assert (He : energy_at x_huge (-1) = Ok (scalar F64.infinity))
    by (vm_compute; reflexivity).
  assert (Hd : relative_energy_drift x_huge x_huge (-1) = Ok (scalar F64.nan))
    by (vm_compute; reflexivity).
  repeat split; try assumption.
  intros H. destruct (H x_huge (-1)%Z _ He eq_refl) as [z [Hz Hzero]].
  rewrite Hd in Hz. inversion Hz; subst. discriminate.
Qed.

End EnergyDrift.

(** ** Relative phase error *)

Section PhaseError.

Import NP Utils.

Lemma phase_terms_data (ref pred : list nat) :
  let n := Nat.min (length pred) (length ref) in
  phase_terms ref pred
  = Ok (mk_ndarray [n]
          (zip_with F64.mul
             (zip_with F64.sub (map recip (take n ref)) (map recip (take n pred)))
             (map as_float (take n ref)))).
Proof.
  intros n. unfold phase_terms. fold n.
  assert (Hr : length (take n ref) = n) by (rewrite length_take; lia).
  assert (Hp : length (take n pred) = n) by (rewrite length_take; lia).
  rewrite binop_same_shape; cbn [reciprocal vector shape data].
  2:{ rewrite !length_map, Hr, Hp. reflexivity. }
  cbn [bind]. rewrite binop_same_shape; cbn [index_array vector shape data].
  2:{ rewrite !length_map. reflexivity. }
  rewrite !length_map, Hr. reflexivity.
Qed.

Lemma phase_terms_lookup (l1 l2 : list nat) k r p :
  l1 !! k = Some r -> l2 !! k = Some p ->
  zip_with F64.mul
    (zip_with F64.sub (map recip l1) (map recip l2))
    (map as_float l1) !! k = Some (phase_term r p).
Proof.
  intros H1 H2.
  rewrite !lookup_zip_with, !list_lookup_fmap, H1, H2. reflexivity.
Qed.

Lemma relative_phase_error_value x_pred x_val pos_pred pos_val :
  column x_val 0 = Ok pos_val ->
  column x_pred 0 = Ok pos_pred ->
  let ref := zero_crossings (data pos_val) in
  let pred := zero_crossings (data pos_pred) in
  let n := Nat.min (length pred) (length ref) in
  relative_phase_error x_pred x_val
  = Ok (mean (zip_with F64.mul
                (zip_with F64.sub (map recip (take n ref)) (map recip (take n pred)))
                (map as_float (take n ref)))).
Proof.
  intros Hv Hp ref pred n.
  unfold relative_phase_error. rewrite Hv. cbn [bind]. rewrite Hp. cbn [bind].
  fold ref pred. rewrite phase_terms_data. reflexivity.
Qed.

(** C8.  Whatever the two crossing counts are, [relative_phase_error]
    returns the mean of exactly [n = min(count_pred, count_ref)] terms, and
    the [k]-th term is built from the [k]-th crossing of each signal; no
    error is raised when the counts differ. *)
Theorem relative_phase_error_truncates
    (x_pred x_val pos_pred pos_val : ndarray) :
  column x_val 0 = Ok pos_val ->
  column x_pred 0 = Ok pos_pred ->
  let ref_crossings := zero_crossings (data pos_val) in
  let pred_crossings := zero_crossings (data pos_pred) in
  let n := Nat.min (length pred_crossings) (length ref_crossings) in
  exists terms,
    phase_terms ref_crossings pred_crossings = Ok terms
    /\ relative_phase_error x_pred x_val = Ok (mean (data terms))
    /\ shape terms = [n]
    /\ length (data terms) = n
    /\ length (take n ref_crossings) = n
    /\ length (take n pred_crossings) = n
    /\ forall k, (k < n)%nat ->
         exists r p, ref_crossings !! k = Some r
                     /\ pred_crossings !! k = Some p
                     /\ data terms !! k = Some (phase_term r p).
Proof.
  intros Hv Hp ref_crossings pred_crossings n.
  eexists. split; [apply phase_terms_data|].
  split.
  { rewrite (relative_phase_error_value _ _ _ _ Hv Hp). reflexivity. }
  fold ref_crossings pred_crossings n. cbn [shape data].
  split; [reflexivity|]. split.
  { rewrite !length_zip_with, !length_map, !length_take. lia. }
  split; [rewrite length_take; lia|]. split; [rewrite length_take; lia|].
  intros k Hk.
  destruct (lookup_lt_is_Some_2 ref_crossings k) as [r Hr]; [lia|].
  destruct (lookup_lt_is_Some_2 pred_crossings k) as [p Hq]; [lia|].
  exists r, p. split; [exact Hr|]. split; [exact Hq|].
  apply phase_terms_lookup; rewrite lookup_take_lt by lia; assumption.
Qed.

(** A prediction with two crossings against a reference with four. *)
Lemma relative_phase_error_truncates_witness :
  length (zero_crossings (map F64.of_Z [1; -1; -1; 1; 1]%Z)) = 2%nat
  /\ length (zero_crossings (map F64.of_Z [1; 1; -1; 1; -1; 1]%Z)) = 4%nat
  /\ exists terms,
       relative_phase_error (trajectory_of [1; -1; -1; 1; 1]%Z)
                            (trajectory_of [1; 1; -1; 1; -1; 1]%Z)
       = Ok (mean (data terms))
       /\ length (data terms) = 2%nat.
Proof.
  split; [reflexivity|]. split; [reflexivity|].
  destruct (relative_phase_error_truncates
              (trajectory_of [1; -1; -1; 1; 1]%Z)
              (trajectory_of [1; 1; -1; 1; -1; 1]%Z)
              _ _ eq_refl eq_refl)
    as (terms & _ & Hv & _ & Hl & _).
  exists terms. split; [exact Hv | exact Hl].
Defined.

Lemma sign_cases x :
  sign x = F64.one \/ sign x = F64.neg_one \/ sign x = F64.zero \/ sign x = F64.nan.
Proof. destruct x as [s|s| |s m e]; try destruct s; cbv; auto. Qed.

Lemma sign_diff_truthy a b :
  F64.eqb (sign b) (sign a) = false ->
  F64.truthy (F64.sub (sign b) (sign a)) = true.
Proof.
  destruct (sign_cases a) as [Ha|[Ha|[Ha|Ha]]], (sign_cases b) as [Hb|[Hb|[Hb|Hb]]];
    rewrite Ha, Hb; vm_compute; congruence.
Qed.

Lemma zero_crossings_start (x : list F64.float) :
  sign_change_at_start x = true -> head (zero_crossings x) = Some 0%nat.
Proof.
  destruct x as [|a [|b rest]]; try discriminate.
  cbn [sign_change_at_start]. intros H. apply negb_true_iff in H.
  unfold zero_crossings, where_nonzero. cbn [map diff where_from].
  rewrite (sign_diff_truthy a b H). reflexivity.
Qed.

Lemma term_ref_zero (y : F64.float) :
  F64.is_finite (F64.mul (F64.sub (recip 0) y) (as_float 0)) = false.
Proof. destruct y as [[]|[]| |[] m e]; reflexivity. Qed.

Lemma term_pred_zero (y z : F64.float) :
  F64.is_finite (F64.mul (F64.sub y (recip 0)) z) = false.
Proof.
  destruct y as [[]|[]| |[] m e]; destruct z as [[]|[]| |[] m' e']; reflexivity.
Qed.

Lemma terms_nonfinite (l1 l2 : list nat) :
  length l1 = length l2 ->
  In 0%nat l1 \/ In 0%nat l2 ->
  Exists (fun x => F64.is_finite x = false)
    (zip_with F64.mul
       (zip_with F64.sub (map recip l1) (map recip l2))
       (map as_float l1)).
Proof.
  revert l2. induction l1 as [|r l1 IH]; intros [|p l2] Hlen H; try discriminate.
  - destruct H as [[]|[]].
  - cbn [map zip_with].
    destruct (Nat.eq_dec r 0) as [->|Hr].
    { apply Exists_cons_hd. apply term_ref_zero. }
    destruct (Nat.eq_dec p 0) as [->|Hq].
    { apply Exists_cons_hd. apply term_pred_zero. }
    apply Exists_cons_tl. apply IH; [simpl in Hlen; lia|].
    destruct H as [[H|H]|[H|H]]; try congruence; auto.
Qed.

Lemma head_take_pos {A} (l : list A) n a :
  head l = Some a -> (0 < n)%nat -> head (take n l) = Some a /\ In a (take n l).
Proof.
  destruct l as [|b l]; [discriminate|]. destruct n; [lia|].
  cbn. intros [= ->] _. auto.
Qed.

Lemma reciprocal_head_zero (l : list nat) :
  head l = Some 0%nat ->
  head (data (reciprocal l)) = Some (F64.div F64.one F64.zero).
Proof. destruct l as [|a l]; cbn; [discriminate|]. intros [= ->]. reflexivity. Qed.

(** C10.  [relative_phase_error] divides [1] by every retained crossing
    index: its value is the mean of the terms built from these reciprocals.  If index 0 is among the retained crossings of either signal the
    result is not finite, so a finite result needs all of them non-zero.  A
    signal whose sign changes between samples 0 and 1 has 0 as its first
    crossing; when at least one crossing is retained its reciprocal [1 / 0]
    is evaluated, and in every case the value returned is not finite (with
    no retained crossing the mean itself is [0.0 / 0]). *)
Theorem relative_phase_error_zero_index
    (x_pred x_val pos_pred pos_val : ndarray) :
  column x_val 0 = Ok pos_val ->
  column x_pred 0 = Ok pos_pred ->
  let ref_crossings := zero_crossings (data pos_val) in
  let pred_crossings := zero_crossings (data pos_pred) in
  let n := Nat.min (length pred_crossings) (length ref_crossings) in
  relative_phase_error x_pred x_val
  = Ok (mean (zip_with F64.mul
                (zip_with F64.sub (data (reciprocal (take n ref_crossings)))
                                  (data (reciprocal (take n pred_crossings))))
                (data (index_array (take n ref_crossings)))))
  /\ (In 0%nat (take n ref_crossings) \/ In 0%nat (take n pred_crossings) ->
     exists v, relative_phase_error x_pred x_val = Ok v /\ F64.is_finite v = false)
  /\ (sign_change_at_start (data pos_val) = true ->
        head ref_crossings = Some 0%nat
        /\ ((0 < n)%nat ->
              head (data (reciprocal (take n ref_crossings)))
              = Some (F64.div F64.one F64.zero))
        /\ exists v, relative_phase_error x_pred x_val = Ok v
                     /\ F64.is_finite v = false)
  /\ (sign_change_at_start (data pos_pred) = true ->
        head pred_crossings = Some 0%nat
        /\ ((0 < n)%nat ->
              head (data (reciprocal (take n pred_crossings)))
              = Some (F64.div F64.one F64.zero))
        /\ exists v, relative_phase_error x_pred x_val = Ok v
                     /\ F64.is_finite v = false).
Proof.
  intros Hv Hp ref_crossings pred_crossings n.
  pose proof (relative_phase_error_value _ _ _ _ Hv Hp) as Hval.
  cbv zeta in Hval. fold ref_crossings pred_crossings n in Hval.
  assert (Hzero : In 0%nat (take n ref_crossings) \/ In 0%nat (take n pred_crossings) ->
     exists v, relative_phase_error x_pred x_val = Ok v /\ F64.is_finite v = false).
  { intros H. eexists. split; [exact Hval|].
    apply mean_nonfinite, terms_nonfinite; [|exact H].
    rewrite !length_take. lia. }
  assert (Hempty : n = 0%nat ->
     exists v, relative_phase_error x_pred x_val = Ok v /\ F64.is_finite v = false).
  { intros Hn. eexists. split; [exact Hval|]. rewrite Hn. reflexivity. }
  split; [exact Hval|].
  split; [exact Hzero|]. split; intros Hs; apply zero_crossings_start in Hs.
  - split; [exact Hs|]. split.
    + intros Hn. apply reciprocal_head_zero, (head_take_pos _ n _ Hs Hn).
    + destruct (Nat.eq_dec n 0) as [Hn|Hn]; [auto|].
      apply Hzero. left. apply (head_take_pos _ n _ Hs). lia.
  - split; [exact Hs|]. split.
    + intros Hn. apply reciprocal_head_zero, (head_take_pos _ n _ Hs Hn).
    + destruct (Nat.eq_dec n 0) as [Hn|Hn]; [auto|].
      apply Hzero. right. apply (head_take_pos _ n _ Hs). lia.
Qed.

(** A prediction that changes sign between its first two samples. *)
Lemma relative_phase_error_zero_index_witness :
  head (zero_crossings (map F64.of_Z [1; -1; -1; 1; 1]%Z)) = Some 0%nat
  /\ exists v, relative_phase_error (trajectory_of [1; -1; -1; 1; 1]%Z)
                                    (trajectory_of [1; 1; -1; 1; -1; 1]%Z) = Ok v
               /\ F64.is_finite v = false.
Proof.
  pose proof (relative_phase_error_zero_index
                (trajectory_of [1; -1; -1; 1; 1]%Z)
                (trajectory_of [1; 1; -1; 1; -1; 1]%Z)
                _ _ eq_refl eq_refl) as [_ [_ [_ H]]].
  destruct (H eq_refl) as [Hh [_ Hv]].
  split; [exact Hh | exact Hv].
Defined.

End PhaseError.

(** ** The results log *)

Section ResultsLog.

Import Log.

Lemma append_to_lookup path s (fs : gmap string string) :
  append_to path s fs !! path
  = Some (String.append (default EmptyString (fs !! path)) s).
Proof. unfold append_to. apply lookup_insert_eq. Qed.

Lemma append_to_other path q s (fs : gmap string string) :
  q <> path -> append_to path s fs !! q = fs !! q.
Proof. intros H. unfold append_to. apply lookup_insert_ne. congruence. Qed.

Lemma isfile_spec path (fs : gmap string string) :
  isfile path fs = match fs !! path with Some _ => true | None => false end.
Proof.
  unfold isfile. destruct (fs !! path) eqn:Hp.
  - apply bool_decide_eq_true. eauto.
  - apply bool_decide_eq_false. intros [x Hx]. discriminate.
Qed.

Lemma visualize_log_lookup PLOT_DIR TIME_OF_RUN a m (fs : gmap string string) :
  visualize_log PLOT_DIR TIME_OF_RUN a m fs !! file_path PLOT_DIR TIME_OF_RUN a
  = Some (String.append
            (match fs !! file_path PLOT_DIR TIME_OF_RUN a with
             | Some old => old
             | None => title_string
             end)
            (format_row m)).
Proof.
  unfold visualize_log. cbv zeta. rewrite append_to_lookup, isfile_spec.
  destruct (fs !! file_path PLOT_DIR TIME_OF_RUN a) eqn:Hp; cbn [negb].
  - rewrite Hp. reflexivity.
  - rewrite append_to_lookup, Hp. reflexivity.
Qed.

Lemma title_string_written : title_string = String.append written_header newline.
Proof. reflexivity. Qed.

End ResultsLog.


(** ** The dataset builder *)

Section DatasetShapes.

Import NP FS Dataset.

Variable msd_step : MassSpringDamper -> F64.float -> nat -> ndarray.
Variable msd_call : MassSpringDamper -> F64.float -> ndarray -> ndarray.
Variable random : nat -> F64.float.

Lemma np_save_outcome (path : string) (a : ndarray) (fs : store ndarray) :
  np_save path a fs
  = if isdir (dirname path) fs
    then Ok (mk_store (dirs fs) (<[path := a]> (files fs)))
    else Raise (FileNotFoundError path).
Proof. reflexivity. Qed.

Lemma isdir_same_dirs {A} (d : string) (fs fs' : store A) :
  dirs fs' = dirs fs -> isdir d fs' = isdir d fs.
Proof. unfold isdir. intros ->. reflexivity. Qed.

(** The four [np.save] calls, one after the other. *)
Lemma save_all (x_t y_t x_v y_v : ndarray) (fs : store ndarray) :
  (let* fs1 := np_save x_train_path x_t fs in
   let* fs2 := np_save y_train_path y_t fs1 in
   let* fs3 := np_save x_val_path x_v fs2 in
   np_save y_val_path y_v fs3)
  = if isdir dataset_dir fs
    then Ok (mk_store (dirs fs)
               (<[y_val_path := y_v]>
                  (<[x_val_path := x_v]>
                     (<[y_train_path := y_t]>
                        (<[x_train_path := x_t]> (files fs))))))
    else Raise (FileNotFoundError x_train_path).
Proof.
  rewrite !np_save_outcome.
  change (dirname x_train_path) with dataset_dir.
  destruct (isdir dataset_dir fs) eqn:Hd; cbn [bind]; [|reflexivity].
  rewrite np_save_outcome. change (dirname y_train_path) with dataset_dir.
  rewrite (isdir_same_dirs dataset_dir fs) by reflexivity. rewrite Hd. cbn [bind].
  rewrite np_save_outcome. change (dirname x_val_path) with dataset_dir.
  rewrite (isdir_same_dirs dataset_dir fs) by reflexivity. rewrite Hd. cbn [bind].
  rewrite np_save_outcome. change (dirname y_val_path) with dataset_dir.
  rewrite (isdir_same_dirs dataset_dir fs) by reflexivity. rewrite Hd.
  reflexivity.
Qed.

(** C5, on the code.  With a simulator of the documented shapes ([step]
    returns [n_steps] states, [call] one derivative per state) and at least
    one series, [create_dataset] builds [x_train], [y_train] and [x_val] of
    rank 3, but [y_val] of rank 4, with shape
    [[2, 1, samples_per_series, 2]]: each validation target is wrapped in a
    one-element list before it is stacked.  It returns these arrays, unless
    it is asked to save them and the directory of the files does not
    exist: then the first [np.save] raises [FileNotFoundError]. *)
Theorem create_dataset_shapes (n_series samples_per_series : nat)
    (save_to_disk : bool) (fs : store ndarray) :
  (forall msd dt n_steps, shape (msd_step msd dt n_steps) = [n_steps; 2%nat]) ->
  (forall msd t x, shape (msd_call msd t x) = shape x) ->
  (0 < n_series)%nat ->
  if negb save_to_disk || isdir dataset_dir fs
  then
    exists d fs',
      create_dataset msd_step msd_call random n_series samples_per_series
        save_to_disk fs = Ok (d, fs')
      /\ shape (x_train d) = [n_series; samples_per_series; 2%nat]
      /\ shape (y_train d) = [n_series; samples_per_series; 2%nat]
      /\ shape (x_val d) = [2%nat; samples_per_series; 2%nat]
      /\ shape (y_val d) = [2%nat; 1%nat; samples_per_series; 2%nat]
  else
    create_dataset msd_step msd_call random n_series samples_per_series
      save_to_disk fs = Raise (FileNotFoundError x_train_path).
Proof.
  intros step_shape call_shape Hn. unfold create_dataset.
  set (x0 := _ ++ _).
  assert (Hx0 : length x0 = n_series).
  { unfold x0, np_random_random. rewrite length_app, !length_map, !length_seq.
    pose proof (Nat.Div0.div_le_upper_bound n_series 2 n_series). lia. }
  set (g := fun i : nat =>
    let msd := mk_msd (nth i x0 F64.zero) None in
    let x := msd_step msd
               (F64.mul (F64.of_Z (Z.of_nat samples_per_series - 1)) delta_t)
               samples_per_series in
    (x, msd_call msd F64.zero x)).
  rewrite (for_each_all_ok _ g).
  2:{ intros i Hi. apply in_seq in Hi. unfold simulate_train, getitem.
      destruct (lookup_lt_is_Some_2 x0 i) as [v Hv]; [lia|]. rewrite Hv. cbn [bind].
      unfold g. cbv zeta. rewrite (nth_lookup_Some _ _ _ _ Hv). reflexivity. }
  cbn [bind].
  destruct (stack_uniform (map fst (map g (seq 0 n_series)))
              [samples_per_series; 2%nat]) as [xt [Hxt Hsxt]].
  { destruct n_series; [lia|]. discriminate. }
  { rewrite Forall_forall. intros a Ha. apply list_elem_of_In in Ha.
    rewrite map_map in Ha. apply in_map_iff in Ha as [i [<- _]]. apply step_shape. }
  destruct (stack_uniform (map snd (map g (seq 0 n_series)))
              [samples_per_series; 2%nat]) as [yt [Hyt Hsyt]].
  { destruct n_series; [lia|]. discriminate. }
  { rewrite Forall_forall. intros a Ha. apply list_elem_of_In in Ha.
    rewrite map_map in Ha. apply in_map_iff in Ha as [i [<- _]].
    cbn. rewrite call_shape. apply step_shape. }
  rewrite Hxt. cbn [bind]. rewrite Hyt. cbn [bind].
  rewrite !length_map, length_seq in Hsxt, Hsyt.
  set (v1 := simulate_val _ _ _ five _).
  set (v2 := simulate_val _ _ _ one_and_half _).
  destruct (stack_uniform [fst v1; fst v2] [samples_per_series; 2%nat])
    as [xv [Hxv Hsxv]]; [discriminate| |].
  { repeat constructor; apply step_shape. }
  destruct (stack_uniform [snd v1; snd v2] [1%nat; samples_per_series; 2%nat])
    as [yv [Hyv Hsyv]]; [discriminate| |].
  { repeat constructor; cbn [snd v1 v2 simulate_val array_of_one shape];
      rewrite call_shape, step_shape; reflexivity. }
  rewrite Hxv. cbn [bind]. rewrite Hyv. cbn [bind].
  destruct save_to_disk; cbn [negb orb].
  - rewrite save_all. destruct (isdir dataset_dir fs); cbn [bind]; [|reflexivity].
    eexists _, _. split; [reflexivity|]. cbn [x_train y_train x_val y_val]. auto.
  - cbn [bind]. eexists _, _. split; [reflexivity|].
    cbn [x_train y_train x_val y_val]. auto.
Qed.


End DatasetShapes.

Section DatasetRuns.

Import NP FS Dataset.

(** Three series of four samples on the stand-in simulator. *)
Lemma create_dataset_shapes_witness :
  exists d fs',
    create_dataset hold_step hold_call constant_draws 3 4 false empty_store
    = Ok (d, fs')
    /\ shape (x_train d) = [3; 4; 2]%nat
    /\ shape (y_train d) = [3; 4; 2]%nat
    /\ shape (x_val d) = [2; 4; 2]%nat
    /\ shape (y_val d) = [2; 1; 4; 2]%nat.
Proof.
  apply (create_dataset_shapes hold_step hold_call constant_draws 3 4 false
           empty_store).
  - intros msd dt n_steps. reflexivity.
  - intros msd t x. reflexivity.
  - lia.
Defined.


End DatasetRuns.

(** ** The backward pass *)

Section BackwardPass.

Import TF Adjoint.

Context {F : Framework} {E : Closure}.

Ltac bind_inv H :=
  repeat match type of H with
  | bind ?e _ = Ok _ =>
      let x := fresh "x" in let Hx := fresh "H" x in
      destruct e as [x|] eqn:Hx; cbn [bind] in H; [|discriminate H]
  end.

(** Everything one iteration of the loop does, read off a successful run. *)
Lemma loop_body_inv grad_output i st st' :
  loop_body grad_output i st = Ok st' ->
  exists ans_i d adj_time' adj_params' t_i t_prev times aug_ans a at_prev,
    for_each (fun ans_ => index ans_ i) ans = Ok ans_i
    /\ time_contribution grad_output i = Ok d
    /\ tf_sub (cast_double (adj_time st)) d = Ok adj_time'
    /\ index t i = Ok t_i /\ index t (i - 1) = Ok t_prev
    /\ pack2 t_i t_prev = Ok times
    /\ odeint augmented_dynamics (ans_i ++ adj_y st ++ [adj_time'; adj_params'])
         times _arguments = Ok aug_ans
    /\ getitem aug_ans (2 * n_tensors) = Ok a
    /\ at_end_time a = Ok (adj_time st')
    /\ for_each at_end_time (slice n_tensors (2 * n_tensors) aug_ans) = Ok at_prev
    /\ add_output_grads grad_output (i - 1) at_prev = Ok (adj_y st')
    /\ time_vjps st' = time_vjps st ++ [d]
    /\ calls st' = calls st
                   ++ [mk_call (ans_i ++ adj_y st ++ [adj_time'; adj_params'])
                         times aug_ans].
Proof.
  unfold loop_body. intros H. bind_inv H.
  injection H as <-. cbn [adj_time adj_y time_vjps calls].
  do 10 eexists. repeat (split; [eassumption || reflexivity|]). reflexivity.
Qed.

(** *** From the code to what it computes *)

Lemma for_each_Forall2 {A B} (f : A -> result B) (l : list A) (r : list B) :
  for_each f l = Ok r -> Forall2 (fun a b => f a = Ok b) l r.
Proof.
  revert r. induction l as [|a l IH]; intros r H; cbn [for_each] in H.
  - injection H as <-. constructor.
  - bind_inv H. injection H as <-. constructor; [assumption | apply IH; reflexivity].
Qed.

Lemma for_each_length {A B} (f : A -> result B) (l : list A) (r : list B) :
  for_each f l = Ok r -> length r = length l.
Proof.
  intros H. apply for_each_Forall2 in H. symmetry.
  eapply Forall2_length. exact H.
Qed.

Lemma for_each_lookup_Some {A B} (f : A -> result B) (l : list A) (r : list B)
    (k : nat) (a : A) :
  for_each f l = Ok r -> l !! k = Some a ->
  exists b, f a = Ok b /\ r !! k = Some b.
Proof.
  intros H Hk. apply for_each_Forall2 in H.
  destruct (Forall2_lookup_l _ _ _ _ _ H Hk) as (b & Hb & Hf). eauto.
Qed.

Lemma zip_length {A B} (l1 : list A) (l2 : list B) :
  length (zip l1 l2) = Nat.min (length l1) (length l2).
Proof.
  revert l2. induction l1 as [|a l1 IH]; intros [|b l2]; cbn; [reflexivity..|].
  rewrite IH. reflexivity.
Qed.

Lemma zip_lookup {A B} (l1 : list A) (l2 : list B) (k : nat) (a : A) (b : B) :
  l1 !! k = Some a -> l2 !! k = Some b -> zip l1 l2 !! k = Some (a, b).
Proof.
  revert l2 k. induction l1 as [|x l1 IH]; intros [|y l2] [|k] Ha Hb;
    try discriminate; cbn in *.
  - congruence.
  - apply IH; assumption.
Qed.

Lemma at_end_time_value (r a : Tensor) :
  at_end_time r = Ok a -> value_at_end r a.
Proof.
  unfold at_end_time, _check_len, getitem, value_at_end. intros H.
  destruct (shape r) as [|n sh] eqn:Hs; cbn in H; [discriminate|].
  exists n, sh. split; [reflexivity|].
  destruct n as [|n]; cbn [Nat.ltb Nat.leb];
    [injection H as <-; reflexivity | exact H].
Qed.

Lemma at_end_times_values (l l' : list Tensor) :
  for_each at_end_time l = Ok l' -> Forall2 value_at_end l l'.
Proof.
  intros H. apply for_each_Forall2 in H.
  eapply Forall2_impl; [exact H|]. intros r a. apply at_end_time_value.
Qed.

Lemma add_output_grads_corrected grad_output j at_prev corrected :
  add_output_grads grad_output j at_prev = Ok corrected ->
  corrected_by grad_output j at_prev corrected.
Proof.
  unfold add_output_grads. intros H. split.
  - rewrite (for_each_length _ _ _ H). apply zip_length.
  - intros k a g Ha Hg.
    destruct (for_each_lookup_Some _ _ _ k (a, g) H (zip_lookup _ _ _ _ _ Ha Hg))
      as (c & Hc & Hk).
    cbn [fst snd] in Hc. destruct (index g j) as [g_j|] eqn:Hgj; cbn [bind] in Hc;
      [|discriminate]. eauto.
Qed.

Lemma dot_is_product (f g d : Tensor) : dot f g = Ok d -> dot_product f g d.
Proof. unfold dot. intros H. bind_inv H. exists x. auto. Qed.

Lemma sum_dots_running (acc : Tensor) (pairs : list (Tensor * Tensor)) (d : Tensor) :
  sum_dots acc pairs = Ok d ->
  exists products,
    Forall2 (fun p prod => dot_product (fst p) (snd p) prod) pairs products
    /\ running_sum acc products d.
Proof.
  revert acc. induction pairs as [|[f g] pairs IH]; intros acc H; cbn [sum_dots] in H.
  - injection H as <-. exists []. split; [constructor | reflexivity].
  - bind_inv H. destruct (IH _ H) as (products & Hall & Hsum).
    exists (x :: products). split.
    + constructor; [apply dot_is_product; assumption | exact Hall].
    + cbn [running_sum]. eauto.
Qed.

Lemma time_contribution_explicit grad_output i d :
  time_contribution grad_output i = Ok d -> is_time_contribution grad_output i d.
Proof.
  unfold time_contribution. intros H. bind_inv H.
  exists x1, x, x0, x2.
  destruct (zip x2 x0) as [|[f g] pairs] eqn:Hz; cbn [py_sum_dots] in H.
  - injection H as <-. exists []. repeat split; try assumption.
    + apply for_each_Forall2. assumption.
    + apply for_each_Forall2. assumption.
    + constructor.
  - bind_inv H. destruct (sum_dots_running _ _ _ H) as (products & Hall & Hsum).
    exists (x3 :: products). repeat split; try assumption.
    + apply for_each_Forall2. assumption.
    + apply for_each_Forall2. assumption.
    + constructor; [apply dot_is_product; assumption | exact Hall].
    + cbn [running_sum]. eauto.
Qed.

Lemma tf_concat_data (l : list Tensor) (r : Tensor) :
  tf_concat l = Ok r -> data r = concat (map data l).
Proof.
  unfold tf_concat. destruct l as [|a [|b l]]; [discriminate| |].
  - intros [= <-]. cbn. rewrite app_nil_r. reflexivity.
  - destruct (forallb _ _); [|discriminate]. intros [= <-]. reflexivity.
Qed.

Lemma pack2_data (a b r : Tensor) :
  pack2 a b = Ok r -> shape r = 2%nat :: shape a /\ data r = data a ++ data b.
Proof.
  unfold pack2. destruct (decide _); [|discriminate]. intros [= <-]. auto.
Qed.

(** *** The loop *)

Lemma loop_adjoint_chain grad_output n st st' :
  loop grad_output n st = Ok st' ->
  exists trace,
    calls st' = calls st ++ trace
    /\ length trace = n
    /\ adjoint_chain grad_output n (adj_y st) trace (adj_y st').
Proof.
  revert st. induction n as [|n IH]; intros st H; cbn [loop] in H.
  - injection H as <-. exists []. rewrite app_nil_r. repeat split.
  - destruct (loop_body grad_output (S n) st) as [st1|] eqn:Hb; cbn [bind] in H;
      [|discriminate].
    apply loop_body_inv in Hb
      as (ans_i & d & at' & ap' & t_i & t_prev & times & aug_ans & a & at_prev
          & Hans & Hd & Hsub & Hti & Htp & Hpack & Hode & Ha & Hat & Hys & Hadd
          & Hv & Hc).
    destruct (IH st1 H) as (tr & Htr & Hlen & Hchain).
    eexists (_ :: tr). split; [|split].
    + rewrite Htr, Hc, <- app_assoc. reflexivity.
    + cbn. rewrite Hlen. reflexivity.
    + cbn [adjoint_chain call_y0 call_times call_result].
      replace (S n - 1)%nat with n in * by lia.
      split; [eauto|]. split; [eauto|]. split; [exact Hode|].
      exists at_prev, (adj_y st1). split; [apply at_end_times_values; exact Hys|].
      split; [apply add_output_grads_corrected; exact Hadd | exact Hchain].
Qed.

Lemma loop_time_chain grad_output n st st' :
  loop grad_output n st = Ok st' ->
  exists trace vjps,
    calls st' = calls st ++ trace
    /\ time_vjps st' = time_vjps st ++ vjps
    /\ length vjps = n
    /\ time_chain grad_output n (adj_time st) trace vjps (adj_time st').
Proof.
  revert st. induction n as [|n IH]; intros st H; cbn [loop] in H.
  - injection H as <-. exists [], []. rewrite !app_nil_r. repeat split.
  - destruct (loop_body grad_output (S n) st) as [st1|] eqn:Hb; cbn [bind] in H;
      [|discriminate].
    apply loop_body_inv in Hb
      as (ans_i & d & at' & ap' & t_i & t_prev & times & aug_ans & a & at_prev
          & Hans & Hd & Hsub & Hti & Htp & Hpack & Hode & Ha & Hat & Hys & Hadd
          & Hv & Hc).
    destruct (IH st1 H) as (tr & vj & Htr & Hvj & Hlen & Hchain).
    eexists (_ :: tr), (d :: vj). split; [|split; [|split]].
    + rewrite Htr, Hc, <- app_assoc. reflexivity.
    + rewrite Hvj, Hv, <- app_assoc. reflexivity.
    + cbn. rewrite Hlen. reflexivity.
    + cbn [time_chain call_y0 call_times call_result].
      split; [apply time_contribution_explicit; exact Hd|]. split.
      * exists at', (ans_i ++ adj_y st), ap'. split; [exact Hsub|].
        rewrite <- app_assoc. reflexivity.
      * exists a, (adj_time st1). split; [exact Ha|].
        split; [apply at_end_time_value; exact Hat | exact Hchain].
Qed.

(** The two time points handed to the [k]-th call. *)
Lemma adjoint_chain_times grad_output n adj_in trace adj_out :
  adjoint_chain grad_output n adj_in trace adj_out ->
  forall k c, trace !! k = Some c ->
    exists t_i t_prev,
      index t (n - k) = Ok t_i /\ index t (n - k - 1) = Ok t_prev
      /\ pack2 t_i t_prev = Ok (call_times c)
      /\ shape (call_times c) = 2%nat :: shape t_i
      /\ data (call_times c) = data t_i ++ data t_prev.
Proof.
  revert adj_in trace. induction n as [|n IH]; intros adj_in [|c0 rest] H k c Hk;
    cbn [adjoint_chain] in H; try contradiction; [discriminate|].
  destruct H as (_ & (t_i & t_prev & Hti & Htp & Hpack) & _
                 & (ys & mid & _ & _ & Hrest)).
  destruct k as [|k].
  - injection Hk as <-. exists t_i, t_prev.
    replace (S n - 0)%nat with (S n) by lia. replace (S n - 1)%nat with n by lia.
    destruct (pack2_data _ _ _ Hpack) as [Hsh Hdata]. auto.
  - cbn in Hk. replace (S n - S k)%nat with (n - k)%nat by lia.
    eapply IH; eassumption.
Qed.

(** What follows the [k]-th call: the state adjoint it returned at the end
    time, with the output gradient of the index reached added, is what the
    next call starts from, or what is returned after the last call. *)
Lemma adjoint_chain_corrections grad_output n adj_in trace adj_out :
  adjoint_chain grad_output n adj_in trace adj_out ->
  forall k c, trace !! k = Some c ->
    exists at_prev corrected,
      Forall2 value_at_end
        (slice n_tensors (2 * n_tensors) (call_result c)) at_prev
      /\ corrected_by grad_output (n - k - 1) at_prev corrected
      /\ match trace !! S k with
         | Some c' =>
             exists ans_i adj_time adj_params,
               for_each (fun ans_ => index ans_ (n - k - 1)) ans = Ok ans_i
               /\ call_y0 c' = ans_i ++ corrected ++ [adj_time; adj_params]
         | None => adj_out = corrected
         end.
Proof.
  revert adj_in trace. induction n as [|n IH]; intros adj_in [|c0 rest] H k c Hk;
    cbn [adjoint_chain] in H; try contradiction; [discriminate|].
  destruct H as (_ & _ & _ & (at_prev & corrected & Hat & Hcorr & Hrest)).
  destruct k as [|k].
  - injection Hk as <-. exists at_prev, corrected.
    replace (S n - 0 - 1)%nat with n by lia.
    split; [exact Hat|]. split; [exact Hcorr|].
    change ((c0 :: rest) !! 1%nat) with (rest !! 0%nat).
    destruct n as [|n], rest as [|c' rest']; cbn [adjoint_chain] in Hrest;
      try contradiction.
    + exact Hrest.
    + destruct Hrest as ((ans_i & at' & ap' & Hans & Hy0) & _).
      cbn. eauto.
  - cbn in Hk. replace (S n - S k - 1)%nat with (n - k - 1)%nat by lia.
    change ((c0 :: rest) !! S (S k)) with (rest !! S k).
    eapply IH; eassumption.
Qed.

(** The contribution recorded for each output index. *)
Lemma time_chain_lookup grad_output n adj_in trace vjps adj_out :
  time_chain grad_output n adj_in trace vjps adj_out ->
  length vjps = n
  /\ forall i, (1 <= i <= n)%nat ->
       exists d, is_time_contribution grad_output i d
                 /\ vjps !! (n - i)%nat = Some d.
Proof.
  revert adj_in trace vjps.
  induction n as [|n IH]; intros adj_in [|c rest] [|d vjps] H;
    cbn [time_chain] in H; try contradiction.
  - split; [reflexivity|]. intros i Hi. lia.
  - destruct H as (Hd & _ & (a & nxt & _ & _ & Hrest)).
    destruct (IH _ _ _ Hrest) as [Hlen Hall]. split; [cbn; lia|].
    intros i Hi. destruct (Nat.eq_dec i (S n)) as [->|Hne].
    + exists d. rewrite Nat.sub_diag. auto.
    + destruct (Hall i) as (d' & Hd' & Hl); [lia|]. exists d'. split; [exact Hd'|].
      replace (S n - i)%nat with (S (n - i)) by lia. exact Hl.
Qed.

(** The subtraction made before the [k]-th call: the contribution is
    taken from the running time adjoint, which is the initial one before
    the first call and afterwards the one the previous call returned at
    its end time, and the difference is handed to the solver. *)
Lemma time_chain_subtractions grad_output n adj_in trace vjps adj_out :
  time_chain grad_output n adj_in trace vjps adj_out ->
  forall k c, trace !! k = Some c ->
    exists d running adj_time' front adj_params,
      vjps !! k = Some d
      /\ is_time_contribution grad_output (n - k) d
      /\ match k with
         | O => running = adj_in
         | S k' =>
             exists c_prev a,
               trace !! k' = Some c_prev
               /\ getitem (call_result c_prev) (2 * n_tensors) = Ok a
               /\ value_at_end a running
         end
      /\ tf_sub (cast_double running) d = Ok adj_time'
      /\ call_y0 c = front ++ [adj_time'; adj_params].
Proof.
  revert adj_in trace vjps.
  induction n as [|n IH]; intros adj_in [|c0 rest] [|d vjps] H k c Hk;
    cbn [time_chain] in H; try contradiction; try discriminate.
  destruct H as (Hd & (at' & front & ap & Hsub & Hy0) & (a & nxt & Ha & Hnxt & Hrest)).
  destruct k as [|k].
  - injection Hk as <-. exists d, adj_in, at', front, ap.
    replace (S n - 0)%nat with (S n) by lia. auto.
  - cbn in Hk. replace (S n - S k)%nat with (n - k)%nat by lia.
    change ((d :: vjps) !! S k) with (vjps !! k).
    destruct (IH _ _ _ Hrest k c Hk)
      as (d' & running & at'' & front' & ap' & H1 & H2 & H3 & H4 & H5).
    exists d', running, at'', front', ap'.
    split; [exact H1|]. split; [exact H2|]. split; [|auto].
    destruct k as [|k'].
    + subst running. exists c0, a. auto.
    + destruct H3 as (c_prev & a' & Hp & Ha' & Hv). exists c_prev, a'. auto.
Qed.

Lemma grad_inv grad_output res trace :
  grad grad_output = Ok (res, trace) ->
  exists flat_params T adj0 st time_grads,
    _flatten current_device variables = Ok flat_params
    /\ output_count = Ok T
    /\ for_each index_last grad_output = Ok adj0
    /\ loop grad_output (T - 1) (initial_state flat_params adj0) = Ok st
    /\ tf_concat (adj_time st :: reverse (time_vjps st)) = Ok time_grads
    /\ input_grads res = adj_y st ++ [time_grads]
    /\ trace = calls st.
Proof.
  unfold grad. intros H. bind_inv H. unfold finish in H. bind_inv H.
  injection H as <- <-. rewrite reverse_snoc in Hx3.
  do 5 eexists. repeat (split; [eassumption || reflexivity|]). reflexivity.
Qed.

(** C1.  When [grad] returns, with [T] output times, the solver has been
    called exactly [T - 1] times; the [k]-th call (from 0) is the one for
    the output index [i = T - 1 - k], so the indices run from [T - 1] down
    to 1; it is given exactly the two time points [[t[i], t[i - 1]]]; and of
    the state adjoint it returns, the value at the end time [t[i - 1]] is
    taken and [grad_output[.][i - 1]] is added to it, component by
    component, and the sum is the state adjoint the next call starts from
    (or the one returned, after the last call). *)
Theorem backward_pass_segments grad_output res trace :
  grad grad_output = Ok (res, trace) ->
  exists T adj0 adj_out time_grads,
    output_count = Ok T
    /\ for_each index_last grad_output = Ok adj0
    /\ length trace = (T - 1)%nat
    /\ (forall k c, trace !! k = Some c ->
          exists t_i t_prev,
            index t (T - 1 - k) = Ok t_i /\ index t (T - 1 - k - 1) = Ok t_prev
            /\ pack2 t_i t_prev = Ok (call_times c)
            /\ shape (call_times c) = 2%nat :: shape t_i
            /\ data (call_times c) = data t_i ++ data t_prev)
    /\ (forall k c, trace !! k = Some c ->
          exists at_prev corrected,
            Forall2 value_at_end
              (slice n_tensors (2 * n_tensors) (call_result c)) at_prev
            /\ length corrected = Nat.min (length at_prev) (length grad_output)
            /\ (forall j a g,
                  at_prev !! j = Some a -> grad_output !! j = Some g ->
                  exists g_prev c_j,
                    index g (T - 1 - k - 1) = Ok g_prev
                    /\ tf_add a g_prev = Ok c_j
                    /\ corrected !! j = Some c_j)
            /\ match trace !! S k with
               | Some c' =>
                   exists ans_i adj_time adj_params,
                     for_each (fun ans_ => index ans_ (T - 1 - k - 1)) ans
                     = Ok ans_i
                     /\ call_y0 c' = ans_i ++ corrected ++ [adj_time; adj_params]
               | None => adj_out = corrected
               end)
    /\ adjoint_chain grad_output (T - 1) adj0 trace adj_out
    /\ input_grads res = adj_out ++ [time_grads].
Proof.
  intros H. apply grad_inv in H
    as (fp & T & adj0 & st & tg & _ & HT & Hadj & Hloop & _ & Hres & ->).
  apply loop_adjoint_chain in Hloop as (tr & Htr & Hlen & Hchain).
  cbn [initial_state calls adj_y app] in Htr, Hchain. rewrite Htr.
  exists T, adj0, (adj_y st), tg.
  repeat (split; [assumption|]). split; [|split; [|split; assumption]].
  - eapply adjoint_chain_times. exact Hchain.
  - intros k c Hk.
    destruct (adjoint_chain_corrections _ _ _ _ _ Hchain k c Hk)
      as (at_prev & corrected & Hat & [Hlenc Hcorr] & Hnext).
    exists at_prev, corrected. auto.
Qed.

(** C2.  When [grad] returns, at each index [i] from [T - 1] down to 1 the
    dynamics was evaluated at [t[i]] and the state [y[i]], its rows were
    multiplied with the columns [grad_output[.][i]] and the products summed;
    this contribution was subtracted from the running time adjoint before
    the solver call for [i], and the gradient returned for the time points
    is the concatenation of the remaining time adjoint (entry 0) and the
    contributions for [i = 1, ..., T - 1] (entry [i]). *)
Theorem backward_pass_time_gradient grad_output res trace :
  grad grad_output = Ok (res, trace) ->
  exists T vjps adj_time_out adj_out time_grads,
    output_count = Ok T
    /\ length vjps = (T - 1)%nat
    /\ (forall i, (1 <= i <= T - 1)%nat ->
          exists d t_i y_i g_i f_i products,
            (adj_time_out :: reverse vjps) !! i = Some d
            /\ index t i = Ok t_i
            /\ Forall2 (fun a y => index a i = Ok y) ans y_i
            /\ Forall2 (fun g gi => index g i = Ok gi) grad_output g_i
            /\ unstack (func t_i y_i) = Ok f_i
            /\ Forall2 (fun p prod =>
                          exists m,
                            tf_matmul (reshape_row (fst p)) (reshape_col (snd p))
                            = Ok m
                            /\ reshape m [1%nat] = Ok prod)
                 (zip f_i g_i) products
            /\ match products with
               | [] => d = py_zero
               | p :: _ =>
                   running_sum (scalar_zero (dtype_of p) current_device)
                     products d
               end)
    /\ (forall k c, trace !! k = Some c ->
          exists d running adj_time' front adj_params,
            vjps !! k = Some d
            /\ is_time_contribution grad_output (T - 1 - k) d
            /\ match k with
               | O =>
                   running
                   = move_to_device (scalar_zero (dtype_of t) current_device)
                       (device t)
               | S k' =>
                   exists c_prev a,
                     trace !! k' = Some c_prev
                     /\ getitem (call_result c_prev) (2 * n_tensors) = Ok a
                     /\ value_at_end a running
               end
            /\ tf_sub (cast_double running) d = Ok adj_time'
            /\ call_y0 c = front ++ [adj_time'; adj_params])
    /\ time_chain grad_output (T - 1)
         (move_to_device (scalar_zero (dtype_of t) current_device) (device t))
         trace vjps adj_time_out
    /\ tf_concat (adj_time_out :: reverse vjps) = Ok time_grads
    /\ data time_grads = concat (map data (adj_time_out :: reverse vjps))
    /\ input_grads res = adj_out ++ [time_grads].
Proof.
  intros H. apply grad_inv in H
    as (fp & T & adj0 & st & tg & _ & HT & Hadj & Hloop & Hcat & Hres & ->).
  apply loop_time_chain in Hloop as (tr & vj & Htr & Hvj & Hlen & Hchain).
  cbn [initial_state calls time_vjps adj_time app] in Htr, Hvj, Hchain.
  rewrite Htr. rewrite Hvj in Hcat.
  exists T, vj, (adj_time st), (adj_y st), tg.
  split; [assumption|]. split; [assumption|]. split; [|split].
  - intros i Hi. destruct (time_chain_lookup _ _ _ _ _ _ Hchain) as [_ Hall].
    destruct (Hall i Hi)
      as (d & (t_i & y_i & g_i & f_i & products & H1 & H2 & H3 & H4 & H5 & H6) & Hl).
    exists d, t_i, y_i, g_i, f_i, products.
    split; [|repeat (split; [assumption|]); exact H6].
    destruct i as [|i]; [lia|].
    change ((adj_time st :: reverse vj) !! S i) with (reverse vj !! i).
    rewrite reverse_lookup by lia. rewrite Hlen. exact Hl.
  - eapply time_chain_subtractions. exact Hchain.
  - split; [exact Hchain|]. split; [exact Hcat|].
    split; [apply tf_concat_data; exact Hcat | exact Hres].
Qed.

Lemma none_to_zeros_None leaf :
  shape (none_to_zeros leaf None) = shape leaf
  /\ dtype_of (none_to_zeros leaf None) = dtype_of leaf
  /\ Forall (fun x => x = F64.zero) (data (none_to_zeros leaf None)).
Proof. repeat split. cbn. apply Forall_replicate. reflexivity. Qed.

Lemma flat_concat_ok dev (l : list Tensor) (d : dtype) :
  l <> [] -> Forall (fun x => dtype_of x = d) l ->
  exists r, flat_concat dev (map reshape_flat l) = Ok r
            /\ data r = concat (map data l)
            /\ dtype_of r = d.
Proof.
  intros Hne Hd. destruct l as [|a [|b l]]; [congruence| |].
  - exists (reshape_flat a). cbn. rewrite app_nil_r. inversion Hd; subst. auto.
  - unfold flat_concat. set (l' := a :: b :: l) in *. cbn [map].
    change (reshape_flat a :: reshape_flat b :: map reshape_flat l)
      with (map reshape_flat l').
    unfold tf_concat. cbn [map l'].
    change (reshape_flat a :: reshape_flat b :: map reshape_flat l)
      with (map reshape_flat l').
    replace (forallb _ (map reshape_flat l')) with true.
    + eexists. split; [reflexivity|]. cbn [data dtype_of reshape_flat].
      split; [|inversion Hd; assumption].
      rewrite map_map. reflexivity.
    + symmetry. apply forallb_forall. intros x Hx.
      apply in_map_iff in Hx as (y & <- & Hy). apply bool_decide_eq_true.
      cbn. repeat split; [discriminate|].
      rewrite Forall_forall in Hd.
      rewrite (Hd y), (Hd a); [reflexivity| |]; apply list_elem_of_In;
        [left; reflexivity|exact Hy].
Qed.

Lemma flatten_convert_eq dev (g_p : list (option Tensor)) (params : list Tensor) :
  _flatten_convert_none_to_zeros dev g_p params
  = flat_concat dev
      (map reshape_flat
         (map (fun pq => none_to_zeros (snd pq) (fst pq)) (zip g_p params))).
Proof.
  unfold _flatten_convert_none_to_zeros. rewrite map_map. f_equal.
  apply map_ext. intros [[p|] q]; reflexivity.
Qed.

Lemma zip_nonempty {A B} (l1 : list A) (l2 : list B) :
  length l1 = length l2 -> l2 <> [] -> zip l1 l2 <> [].
Proof. destruct l1, l2; cbn; congruence. Qed.

Lemma slice_app_l {A} (l1 l2 : list A) :
  slice 0 (length l1) (l1 ++ l2) = l1.
Proof. unfold slice. rewrite Nat.sub_0_r. cbn [drop]. apply take_app_length. Qed.

(** C3.  Inside [augmented_dynamics], once the tape has returned its list
    of gradients (one for the time, one per state component, one per
    parameter), every [None] in it is replaced by zeros of the shape and
    type of the leaf it belongs to and the function returns normally: the
    state and time gradients appear as such in the result, the parameter
    gradients flattened and concatenated.  There is at least one
    parameter. *)
Theorem missing_gradients_become_zeros
    (time : Tensor) (y_aug : list Tensor) (gradys0 : Tensor)
    (g_t : option Tensor) (g_y g_p : list (option Tensor))
    (parts : list Tensor) (d : dtype) :
  let y := slice 0 n_tensors y_aug in
  let adj_y := slice n_tensors (2 * n_tensors) y_aug in
  let func_eval := func time y in
  let gradys :=
    if (rank gradys0 <? rank func_eval)%nat then expand_dims0 gradys0 else gradys0 in
  tf_stack (map tf_neg adj_y) = Ok gradys0 ->
  tape_gradient func_eval ((time :: y) ++ f_params) gradys = Ok (g_t :: g_y ++ g_p) ->
  length g_y = n_tensors ->
  length g_p = length variables ->
  variables <> [] ->
  Forall (fun pq => dtype_of (none_to_zeros (snd pq) (fst pq)) = d)
         (zip g_p variables) ->
  unstack func_eval = Ok parts ->
  exists vjp_params,
    augmented_dynamics time y_aug
    = Ok (parts
          ++ map (fun p => none_to_zeros (snd p) (fst p)) (zip g_y y)
          ++ [none_to_zeros time g_t; vjp_params])
    /\ data vjp_params
       = concat (map (fun pq => data (none_to_zeros (snd pq) (fst pq)))
                     (zip g_p variables))
    /\ forall leaf,
         shape (none_to_zeros leaf None) = shape leaf
         /\ dtype_of (none_to_zeros leaf None) = dtype_of leaf
         /\ Forall (fun x => x = F64.zero) (data (none_to_zeros leaf None)).
Proof.
  intros y adj_y func_eval gradys Hstack Htape Hgy Hgp Hvars Hd Hparts.
  destruct (flat_concat_ok current_device
              (map (fun pq => none_to_zeros (snd pq) (fst pq)) (zip g_p variables)) d)
    as (r & Hr & Hdata & _).
  { intros Hnil. apply map_eq_nil in Hnil. revert Hnil.
    apply zip_nonempty; assumption. }
  { apply Forall_map. exact Hd. }
  exists r. split; [|split].
  - unfold augmented_dynamics. fold y adj_y func_eval.
    rewrite Hstack. cbn [bind]. fold gradys. rewrite Htape. cbn [bind].
    assert (Hs : slice 0 n_tensors (g_y ++ g_p) = g_y)
      by (rewrite <- Hgy; apply slice_app_l).
    assert (Hdrop : drop n_tensors (g_y ++ g_p) = g_p)
      by (rewrite <- Hgy; apply drop_app_length).
    rewrite Hs, Hdrop.
    rewrite flatten_convert_eq. unfold f_params. rewrite Hr. cbn [bind].
    unfold _check_len_tuple. destruct variables as [|v vs] eqn:Hv; [congruence|].
    cbn [length Nat.eqb bind]. fold func_eval. rewrite Hparts. reflexivity.
  - rewrite Hdata, map_map. reflexivity.
  - intros leaf. apply none_to_zeros_None.
Qed.

End BackwardPass.

Section BackwardRuns.

Import TF Adjoint.

Lemma no_parameters_raise (F : Framework) (a : list Tensor) (times : Tensor)
    (args : _Arguments) (time : Tensor) (y_aug : list Tensor) :
  exists e,
    @augmented_dynamics F (mk_closure a times args []) time y_aug = Raise e.
Proof.
  unfold augmented_dynamics, f_params. cbn [variables].
  destruct (tf_stack _) as [g|e]; cbn [bind]; [|eauto].
  destruct (tape_gradient _ _ _) as [[|vjp_t rest]|e]; cbn [bind]; eauto.
  destruct (_flatten_convert_none_to_zeros _ _ _) as [p|e]; cbn [bind]; [|eauto].
  cbn [_check_len_tuple length Nat.eqb].
  destruct (getitem _ 0) as [v0|e]; cbn [bind]; [|eauto].
  exists (AttributeError "dype"). reflexivity.
Qed.

(** C4, on the code.  A dynamics without trainable variables never gets
    its scalar zero: [tf.custom_gradient] then calls [grad] without the
    keyword [variables], which is [None] by default, and the first
    statement of [grad] raises [TypeError], whatever the framework, the
    solution and the output gradients.  Called directly with an empty
    tuple of variables, the loop of [grad] does build the placeholder (a
    scalar zero on the device of the state adjoint), but the augmented
    dynamics, which attempts the same, never returns: it reads the
    attribute [dype], and on the concrete framework, for three output
    times, the backward pass raises [AttributeError] for it. *)
Theorem no_parameters_backward_pass_raises :
  (forall (F : Framework) (a : list Tensor) (times : Tensor) (args : _Arguments)
          (grad_output : list Tensor),
      custom_gradient_grad a times args [] grad_output = Raise TypeError)
  /\ (forall (F : Framework) (a : list Tensor) (times : Tensor) (args : _Arguments)
             (a0 : Tensor) (rest : list Tensor),
        @_flatten current_device [] = Ok (empty_tensor current_device)
        /\ @params_or_placeholder F
             (@initial_state F (mk_closure a times args [])
                (empty_tensor current_device) (a0 :: rest))
           = Ok (mk_tensor [] (dtype_of a0) (device a0) [F64.zero]))
  /\ (forall (F : Framework) (a : list Tensor) (times : Tensor) (args : _Arguments)
             (time : Tensor) (y_aug : list Tensor),
        is_ok (@augmented_dynamics F (mk_closure a times args []) time y_aug)
        = false)
  /\ Euler.augmented_dynamics Euler.ans3 [] (scalar_zero float64 Euler.cpu)
       [scalar_zero float64 Euler.cpu; scalar_zero float64 Euler.cpu;
        scalar_zero float64 Euler.cpu; scalar_zero float64 Euler.cpu]
     = Raise (AttributeError "dype")
  /\ grad_call (F:=Euler.framework) Euler.ans3 Euler.t3 Euler.solver_settings
       (Some []) Euler.grad_output3
     = Raise (AttributeError "dype").
Proof.
  split; [|split; [|split; [|split; vm_compute; reflexivity]]].
  - intros F a times args grad_output. reflexivity.
  - intros F a times args a0 rest. split; reflexivity.
  - intros F a times args time y_aug.
    destruct (no_parameters_raise F a times args time y_aug) as [e ->].
    reflexivity.
Qed.

(** Three output times on the concrete framework with [dy/dt = y], one
    parameter, output gradients [3, 5, 7]: the call for index 2 starts from
    the adjoint 7 and returns 10.5 at [t[1]]; 10.5 + 5 = 15.5 is what the
    call for index 1 starts from; it returns 23.25 at [t[0]], and
    23.25 + 3 = 26.25 is the gradient returned for the state. *)
Lemma backward_pass_segments_witness :
  exists res trace,
    Euler.grad Euler.ans3 Euler.t3 Euler.one_variable Euler.grad_output3
    = Ok (res, trace)
    /\ length trace = 2%nat
    /\ map call_times trace
       = [Euler.vec [2; 1]%Z F64.half; Euler.vec [1; 0]%Z F64.half]
    /\ map (fun c => data <$> call_y0 c !! 1%nat) trace
       = [Some (Euler.quarters [28]%Z); Some (Euler.quarters [62]%Z)]
    /\ map (fun c => data <$> call_result c !! 1%nat) trace
       = [Some (Euler.quarters [28; 42]%Z); Some (Euler.quarters [62; 93]%Z)]
    /\ data <$> input_grads res !! 0%nat = Some (Euler.quarters [105]%Z).
Proof.
  destruct (Euler.grad Euler.ans3 Euler.t3 Euler.one_variable Euler.grad_output3)
    as [[res trace]|e] eqn:Hg; [|vm_compute in Hg; discriminate Hg].
  exists res, trace. split; [reflexivity|].
  destruct (backward_pass_segments (F:=Euler.framework)
              (E:=mk_closure Euler.ans3 Euler.t3 Euler.solver_settings
                    Euler.one_variable) _ _ _ Hg)
    as (T & adj0 & adj_out & tg & HT & _ & Hlen & _).
  vm_compute in HT. injection HT as <-. split; [exact Hlen|].
  vm_compute in Hg. injection Hg as <- <-. repeat split; reflexivity.
Defined.

(** The same run with the dynamics [dy/dt = 3 y] and the states
    [1, 2, 4]: the contributions are [3 * 2 * 5 = 30] at [t[1]] and
    [3 * 4 * 7 = 84] at [t[2]], and the remaining time adjoint is
    [0 - 84 - 30]. *)
Lemma backward_pass_time_gradient_witness :
  exists res trace time_grads,
    Euler.grad_scaled (F64.of_Z 3) Euler.ans3 Euler.t3 Euler.one_variable
      Euler.grad_output3
    = Ok (res, trace)
    /\ last (input_grads res) = Some time_grads
    /\ data time_grads = [F64.of_Z (-114); F64.of_Z 30; F64.of_Z 84].
Proof.
  destruct (Euler.grad_scaled (F64.of_Z 3) Euler.ans3 Euler.t3 Euler.one_variable
              Euler.grad_output3)
    as [[res trace]|e] eqn:Hg; [|vm_compute in Hg; discriminate Hg].
  destruct (backward_pass_time_gradient (F:=Euler.scaled_framework (F64.of_Z 3))
              (E:=mk_closure Euler.ans3 Euler.t3 Euler.solver_settings
                    Euler.one_variable) _ _ _ Hg)
    as (T & vjps & a_out & adj_out & tg & _ & _ & _ & _ & _ & _ & _ & Hres).
  exists res, trace, tg. split; [reflexivity|].
  split; [rewrite Hres; apply last_snoc|].
  vm_compute in Hg. injection Hg as <- _. cbn [input_grads] in Hres.
  match type of Hres with [?a; ?b] = _ => change ([a] ++ [b] = adj_out ++ [tg]) in Hres end.
  apply app_inj_tail in Hres as [_ <-]. reflexivity.
Defined.

(** One state component with a gradient, time and parameter without. *)
Lemma missing_gradients_become_zeros_witness :
  exists vjp_params,
    Euler.augmented_dynamics Euler.ans3 Euler.one_variable
      (scalar_zero float64 Euler.cpu)
      [Euler.vec_item 2; Euler.vec_item 3; Euler.vec_item 0; Euler.vec_item 0]
    = Ok [Euler.vec_item 2; Euler.vec_item (-3);
          scalar_zero float64 Euler.cpu; vjp_params]
    /\ data vjp_params = [F64.zero].
Proof.
  destruct (missing_gradients_become_zeros (F:=Euler.framework)
              (E:=mk_closure Euler.ans3 (scalar_zero float64 Euler.cpu)
                    Euler.solver_settings Euler.one_variable)
              (scalar_zero float64 Euler.cpu)
              [Euler.vec_item 2; Euler.vec_item 3; Euler.vec_item 0; Euler.vec_item 0]
              (mk_tensor [1%nat] float64 Euler.cpu [F64.of_Z (-3)])
              None [Some (Euler.vec_item (-3))] [None]
              [Euler.vec_item 2] float64)
    as (vjp_params & Hrun & Hdata & _);
    try (vm_compute; reflexivity).
  - discriminate.
  - repeat constructor.
  - exists vjp_params. split; [exact Hrun | exact Hdata].
Defined.

End BackwardRuns.

(** ** Zero crossings *)

Section ZeroCrossings.

Import NP Utils.

Lemma where_from_In (k : nat) (l : list F64.float) (i : nat) :
  In i (where_from k l)
  <-> exists j v, i = (k + j)%nat /\ l !! j = Some v /\ F64.truthy v = true.
Proof.
  revert k. induction l as [|x l IH]; intros k; cbn [where_from].
  - split; [intros []|]. intros (j & v & _ & Hj & _). discriminate.
  - destruct (F64.truthy x) eqn:Hx.
    + cbn [In]. rewrite IH. split.
      * intros [<-|(j & v & -> & Hj & Hv)].
        -- exists 0%nat, x. rewrite Nat.add_0_r. auto.
        -- exists (S j), v. split; [lia|]. auto.
      * intros (j & v & -> & Hj & Hv). destruct j as [|j].
        -- left. lia.
        -- right. exists j, v. split; [lia|]. auto.
    + rewrite IH. split.
      * intros (j & v & -> & Hj & Hv). exists (S j), v. split; [lia|]. auto.
      * intros (j & v & -> & Hj & Hv). destruct j as [|j].
        -- cbn in Hj. injection Hj as ->. congruence.
        -- exists j, v. split; [lia|]. auto.
Qed.

Lemma diff_lookup (l : list F64.float) (j : nat) (v : F64.float) :
  diff l !! j = Some v
  <-> exists a b, l !! j = Some a /\ l !! S j = Some b /\ v = F64.sub b a.
Proof.
  revert j. induction l as [|a l IH]; intros j.
  - cbn. split; [discriminate|]. intros (a & b & Ha & _). discriminate.
  - destruct l as [|b l].
    + cbn. split; [discriminate|]. intros (a' & b' & _ & Hb & _).
      destruct j; discriminate.
    + change (diff (a :: b :: l)) with (F64.sub b a :: diff (b :: l)).
      destruct j as [|j].
      * cbn. split.
        -- intros [= <-]. eauto.
        -- intros (a' & b' & [= <-] & [= <-] & ->). reflexivity.
      * change ((F64.sub b a :: diff (b :: l)) !! S j) with (diff (b :: l) !! j).
        rewrite IH. reflexivity.
Qed.

Lemma diff_length (l : list F64.float) : length (diff l) = (length l - 1)%nat.
Proof.
  induction l as [|a [|b l] IH]; try reflexivity.
  change (diff (a :: b :: l)) with (F64.sub b a :: diff (b :: l)).
  cbn [length] in *. rewrite IH. lia.
Qed.

Lemma zero_crossings_spec (x : list F64.float) (i : nat) :
  In i (zero_crossings x)
  <-> exists a b, x !! i = Some a /\ x !! S i = Some b
                  /\ F64.truthy (F64.sub (sign b) (sign a)) = true.
Proof.
  unfold zero_crossings, where_nonzero. rewrite where_from_In. split.
  - intros (j & v & -> & Hj & Hv). cbn [Nat.add].
    apply diff_lookup in Hj as (sa & sb & Ha & Hb & ->).
    rewrite list_lookup_fmap in Ha, Hb.
    destruct (x !! j) as [a|]; [|discriminate].
    destruct (x !! S j) as [b|]; [|discriminate].
    injection Ha as <-. injection Hb as <-. eauto.
  - intros (a & b & Ha & Hb & Hv). exists i, (F64.sub (sign b) (sign a)).
    split; [reflexivity|]. split; [|exact Hv].
    apply diff_lookup. exists (sign a), (sign b).
    rewrite !list_lookup_fmap, Ha, Hb. auto.
Qed.

(** X1.  Index [i] is reported exactly when samples [i] and [i + 1] exist
    and the difference of their signs is not zero. *)
Theorem zero_crossings_In (x : list F64.float) (i : nat) :
  In i (zero_crossings x)
  <-> exists a b, x !! i = Some a /\ x !! S i = Some b
                  /\ F64.truthy (F64.sub (sign b) (sign a)) = true.
Proof. apply zero_crossings_spec. Qed.

Lemma where_from_sorted (k : nat) (l : list F64.float) :
  StronglySorted lt (where_from k l)
  /\ Forall (fun i => (k <= i < k + length l)%nat) (where_from k l)
  /\ (length (where_from k l) <= length l)%nat.
Proof.
  revert k. induction l as [|x l IH]; intros k; cbn [where_from].
  - repeat constructor.
  - destruct (IH (S k)) as (Hs & Hb & Hl).
    assert (Hb' : Forall (fun i => (k <= i < k + length (x :: l))%nat)
                         (where_from (S k) l)).
    { eapply Forall_impl; [exact Hb|]. cbn. intros i Hi. lia. }
    destruct (F64.truthy x).
    + split; [|split].
      * constructor; [exact Hs|]. eapply Forall_impl; [exact Hb|].
        cbn. intros i Hi. lia.
      * constructor; [cbn; lia | exact Hb'].
      * cbn. lia.
    + split; [exact Hs|]. split; [exact Hb'|]. cbn. lia.
Qed.

(** X2.  The reported indices are strictly increasing and each of them
    has a successor sample; an empty signal has no crossing, and a signal
    that is not empty has fewer crossings than samples. *)
Theorem zero_crossings_sorted (x : list F64.float) :
  StronglySorted lt (zero_crossings x)
  /\ Forall (fun i => (S i < length x)%nat) (zero_crossings x)
  /\ (x = [] -> zero_crossings x = [])
  /\ (x <> [] -> (length (zero_crossings x) < length x)%nat).
Proof.
  unfold zero_crossings, where_nonzero.
  destruct (where_from_sorted 0 (diff (map sign x))) as (Hs & Hb & Hl).
  rewrite diff_length, length_map in Hb, Hl.
  split; [exact Hs|]. split; [|split].
  - eapply Forall_impl; [exact Hb|]. cbn. intros i Hi. lia.
  - intros ->. reflexivity.
  - intros Hne. destruct x as [|v x]; [congruence|]. cbn [length] in *. lia.
Qed.

Lemma sign_positive (v : F64.float) :
  F64.ltb F64.zero v = true -> sign v = F64.one.
Proof. unfold sign. intros ->. reflexivity. Qed.

Lemma zero_crossings_positive (x : list F64.float) :
  Forall (fun v => F64.ltb F64.zero v = true) x -> zero_crossings x = [].
Proof.
  intros Hpos. destruct (zero_crossings x) as [|i rest] eqn:Hz; [reflexivity|].
  assert (Hi : In i (zero_crossings x)) by (rewrite Hz; left; reflexivity).
  apply zero_crossings_spec in Hi as (a & b & Ha & Hb & Hv).
  rewrite Forall_forall in Hpos.
  rewrite (sign_positive a), (sign_positive b) in Hv.
  - discriminate Hv.
  - apply Hpos. eapply list_elem_of_lookup_2. exact Hb.
  - apply Hpos. eapply list_elem_of_lookup_2. exact Ha.
Qed.

(** X3.  When the positions of either signal are all strictly positive, no
    crossing is retained and [relative_phase_error] returns NaN, the mean
    of an empty array, without raising. *)
Theorem relative_phase_error_no_crossing
    (x_pred x_val pos_pred pos_val : ndarray) :
  column x_val 0 = Ok pos_val ->
  column x_pred 0 = Ok pos_pred ->
  Forall (fun v => F64.ltb F64.zero v = true) (data pos_pred)
  \/ Forall (fun v => F64.ltb F64.zero v = true) (data pos_val) ->
  relative_phase_error x_pred x_val = Ok F64.nan.
Proof.
  intros Hv Hp H. rewrite (relative_phase_error_value _ _ _ _ Hv Hp).
  destruct H as [H|H]; rewrite (zero_crossings_positive _ H); cbn [length].
  - reflexivity.
  - rewrite Nat.min_0_r. reflexivity.
Qed.

Lemma relative_phase_error_no_crossing_witness :
  relative_phase_error (trajectory_of [1; 2; 3]%Z) (trajectory_of [1; -1; 1]%Z)
  = Ok F64.nan.
Proof.
  apply (relative_phase_error_no_crossing
           (trajectory_of [1; 2; 3]%Z) (trajectory_of [1; -1; 1]%Z)
           _ _ eq_refl eq_refl).
  left. repeat constructor.
Defined.

End ZeroCrossings.

(** ** Energy and trajectory error *)

Section EnergyFacts.

Import NP Utils Harness.

Lemma energy_term_outcome (k : Z) (a : result ndarray) :
  energy_term k a
  = if F64.is_finite (F64.of_Z k)
    then match a with
         | Ok a =>
             Ok (mk_ndarray (shape a)
                   (zip_with F64.mul
                      (map (F64.mul (F64.mul F64.half (F64.of_Z k))) (data a))
                      (data a)))
         | Raise e => Raise e
         end
    else Raise OverflowError.
Proof.
  unfold energy_term, half_times.
  destruct (F64.is_finite (F64.of_Z k)); cbn [bind]; [|reflexivity].
  destruct a as [a|e]; cbn [bind]; [|reflexivity].
  rewrite binop_same_shape by reflexivity. reflexivity.
Qed.

Lemma energy_expr_same_shape k m (a b : ndarray) :
  shape a = shape b ->
  energy_expr k m (Ok a) (Ok b)
  = if F64.is_finite (F64.of_Z k) && F64.is_finite (F64.of_Z m)
    then
      Ok (mk_ndarray (shape a)
            (zip_with F64.add
               (zip_with F64.mul
                  (map (F64.mul (F64.mul F64.half (F64.of_Z k))) (data a)) (data a))
               (zip_with F64.mul
                  (map (F64.mul (F64.mul F64.half (F64.of_Z m))) (data b)) (data b))))
    else Raise OverflowError.
Proof.
  intros Hs. unfold energy_expr. rewrite !energy_term_outcome.
  destruct (F64.is_finite (F64.of_Z k)); cbn [bind andb]; [|reflexivity].
  destruct (F64.is_finite (F64.of_Z m)); cbn [bind]; [|reflexivity].
  rewrite binop_same_shape by (cbn; exact Hs). reflexivity.
Qed.

(** The outcome when the first or the second component cannot be read. *)
Lemma energy_expr_first_missing k m (e : exn) (b : result ndarray) :
  energy_expr k m (Raise e) b
  = if F64.is_finite (F64.of_Z k) then Raise e else Raise OverflowError.
Proof.
  unfold energy_expr. rewrite energy_term_outcome.
  destruct (F64.is_finite (F64.of_Z k)); reflexivity.
Qed.

Lemma energy_expr_second_missing k m (a : ndarray) (e : exn) :
  energy_expr k m (Ok a) (Raise e)
  = if F64.is_finite (F64.of_Z k)
    then if F64.is_finite (F64.of_Z m) then Raise e else Raise OverflowError
    else Raise OverflowError.
Proof.
  unfold energy_expr. rewrite !energy_term_outcome.
  destruct (F64.is_finite (F64.of_Z k)); cbn [bind]; [|reflexivity].
  destruct (F64.is_finite (F64.of_Z m)); reflexivity.
Qed.

Lemma getitem0_vector_shape (state : ndarray) (c : nat) (i : nat) :
  shape state = [c] ->
  (i < c)%nat ->
  exists s, getitem0 state (Z.of_nat i) = Ok s /\ shape s = [].
Proof.
  intros Hs Hi. unfold getitem0, norm_index. rewrite Hs.
  replace (Z.of_nat i <? 0)%Z with false by lia.
  replace ((0 <=? Z.of_nat i) && (Z.of_nat i <? Z.of_nat c))%Z with true by lia.
  cbn [bind]. eexists. split; reflexivity.
Qed.

Lemma getitem0_vector_out (state : ndarray) (c : nat) (i : nat) :
  shape state = [c] ->
  (c <= i)%nat ->
  getitem0 state (Z.of_nat i) = Raise IndexError.
Proof.
  intros Hs Hi. unfold getitem0, norm_index. rewrite Hs.
  replace (Z.of_nat i <? 0)%Z with false by lia.
  replace ((0 <=? Z.of_nat i) && (Z.of_nat i <? Z.of_nat c))%Z with false by lia.
  reflexivity.
Qed.

(** X4.  For integers [k] and [m] within the range of the floats,
    [total_energy] returns exactly for a state of shape [(c,)] or a batch
    of shape [(n, c)] with [c >= 2], giving a scalar or one energy per row,
    and raises [IndexError] with fewer than two entries per state.  An
    integer beyond the range of the floats (such as [10 ** 400]) raises
    [OverflowError] in [0.5*k] or [0.5*m], before the entry next to it is
    read.  Any other rank raises [ValueError]. *)
Theorem total_energy_outcome (state : ndarray) (k m : Z) :
  let fits := fun z : Z => F64.is_finite (F64.of_Z z) in
  let outcome := fun (c : nat) (sh : list nat) =>
    if negb (fits k) then total_energy state k m = Raise OverflowError
    else if (c =? 0)%nat then total_energy state k m = Raise IndexError
    else if negb (fits m) then total_energy state k m = Raise OverflowError
    else if (c =? 1)%nat then total_energy state k m = Raise IndexError
    else exists e, total_energy state k m = Ok e /\ shape e = sh in
  match shape state with
  | [c] => outcome c []
  | [n; c] => outcome c [n]
  | _ => total_energy state k m = Raise ValueError
  end
  /\ fits 1%Z = true /\ fits (10 ^ 400)%Z = false.
Proof.
  intros fits outcome. split; [|split; vm_compute; reflexivity].
  unfold outcome, fits, total_energy, ndim.
  destruct (shape state) as [|c [|c' [|c'' rest]]] eqn:Hs; cbn [length];
    try reflexivity.
  - destruct c as [|[|c]]; cbn [Nat.eqb].
    + pose proof (getitem0_vector_out state 0 0 Hs) as H0.
      change (Z.of_nat 0) with 0%Z in H0. rewrite H0 by lia.
      rewrite energy_expr_first_missing.
      destruct (F64.is_finite (F64.of_Z k)); reflexivity.
    + destruct (getitem0_vector_shape state 1 0 Hs) as (s0 & H0 & _); [lia|].
      change (Z.of_nat 0) with 0%Z in H0. rewrite H0.
      pose proof (getitem0_vector_out state 1 1 Hs) as H1.
      change (Z.of_nat 1) with 1%Z in H1. rewrite H1 by lia.
      rewrite energy_expr_second_missing.
      destruct (F64.is_finite (F64.of_Z k)), (F64.is_finite (F64.of_Z m));
        reflexivity.
    + destruct (getitem0_vector_shape state (S (S c)) 0 Hs) as (s0 & H0 & Hs0);
        [lia|].
      destruct (getitem0_vector_shape state (S (S c)) 1 Hs) as (s1 & H1 & Hs1);
        [lia|].
      change (Z.of_nat 0) with 0%Z in H0. change (Z.of_nat 1) with 1%Z in H1.
      rewrite H0, H1. rewrite energy_expr_same_shape by congruence.
      destruct (F64.is_finite (F64.of_Z k)), (F64.is_finite (F64.of_Z m));
        cbn [negb andb]; try reflexivity.
      eexists. split; [reflexivity|]. exact Hs0.
  - unfold column. rewrite Hs. destruct c' as [|[|c']]; cbn [Nat.eqb Nat.ltb Nat.leb].
    + rewrite energy_expr_first_missing.
      destruct (F64.is_finite (F64.of_Z k)); reflexivity.
    + rewrite energy_expr_second_missing.
      destruct (F64.is_finite (F64.of_Z k)), (F64.is_finite (F64.of_Z m));
        reflexivity.
    + rewrite energy_expr_same_shape by reflexivity.
      destruct (F64.is_finite (F64.of_Z k)), (F64.is_finite (F64.of_Z m));
        cbn [negb andb]; try reflexivity.
      eexists. split; reflexivity.
Qed.

Lemma binary_round_aux_carries prec emax s m e l :
  carries s (binary_round_aux prec emax s m e l).
Proof.
  unfold binary_round_aux.
  destruct (shr_fexp prec emax m e l) as [mrs' e'].
  destruct (shr_fexp prec emax _ e' loc_Exact) as [mrs'' e''].
  destruct (shr_m mrs''); [reflexivity| |exact I].
  destruct (Z.leb _ _); reflexivity.
Qed.

Lemma binary_round_carries prec emax s m e :
  carries s (binary_round prec emax s m e).
Proof.
  unfold binary_round. destruct (shl_align _ _ _) as [mz ez].
  apply binary_round_aux_carries.
Qed.

Lemma mul_carries sx sy x y :
  carries sx x -> carries sy y -> carries (xorb sx sy) (F64.mul x y).
Proof.
  unfold F64.mul.
  destruct x as [s|s| |s m e], y as [s'|s'| |s' m' e']; cbn; intros Hx Hy;
    subst; try reflexivity; try exact I.
  apply binary_round_aux_carries.
Qed.

Lemma carries_exists x : exists s, carries s x.
Proof. destruct x as [s|s| |s m e]; cbn; eauto. exists false. exact I. Qed.

Lemma square_term_carries c x :
  carries false c -> carries false (F64.mul (F64.mul c x) x).
Proof.
  intros Hc. destruct (carries_exists x) as [s Hs].
  replace false with (xorb (xorb false s) s) by (destruct s; reflexivity).
  apply mul_carries; [apply mul_carries; assumption | exact Hs].
Qed.

Lemma add_carries_false x y :
  carries false x -> carries false y -> carries false (F64.add x y).
Proof.
  unfold F64.add.
  destruct x as [s|s| |s m e], y as [s'|s'| |s' m' e']; cbn; intros Hx Hy;
    subst; try reflexivity; try exact I.
  destruct (shl_align m e _) as [a ?], (shl_align m' e' _) as [b ?]. cbn.
  apply binary_round_carries.
Qed.

Lemma of_Z_carries (z : Z) : (0 <= z)%Z -> carries false (F64.of_Z z).
Proof.
  intros Hz. unfold F64.of_Z, binary_normalize. destruct z as [|p|p]; [reflexivity| |lia].
  apply binary_round_carries.
Qed.

Lemma weight_carries (z : Z) :
  (0 <= z)%Z -> carries false (F64.mul F64.half (F64.of_Z z)).
Proof.
  intros Hz. change false with (xorb false false).
  apply mul_carries; [reflexivity | apply of_Z_carries, Hz].
Qed.

Lemma squares_carry c (l : list F64.float) :
  carries false c ->
  Forall (carries false) (zip_with F64.mul (map (F64.mul c) l) l).
Proof.
  intros Hc. induction l as [|x l IH]; cbn; constructor; [|exact IH].
  apply square_term_carries, Hc.
Qed.

Lemma sums_carry (l1 l2 : list F64.float) :
  Forall (carries false) l1 -> Forall (carries false) l2 ->
  Forall (carries false) (zip_with F64.add l1 l2).
Proof.
  intros H1. revert l2. induction H1 as [|x l1 Hx H1 IH]; intros l2 H2; cbn.
  - constructor.
  - destruct H2 as [|y l2 Hy H2]; constructor.
    + apply add_carries_false; assumption.
    + apply IH, H2.
Qed.

Lemma carries_not_negative x :
  carries false x -> not_negative x = true /\ F64.ltb x F64.zero = false.
Proof. destruct x as [s|s| |s m e]; cbn; intros H; subst; auto. Qed.

(** The operands [total_energy] squares and adds, for a result. *)
Lemma energy_expr_data (k m : Z) (a b : result ndarray) (sh : list nat)
    (e : ndarray) :
  (forall a', a = Ok a' -> shape a' = sh) ->
  (forall b', b = Ok b' -> shape b' = sh) ->
  energy_expr k m a b = Ok e ->
  exists a' b',
    data e
    = zip_with F64.add
        (zip_with F64.mul
           (map (F64.mul (F64.mul F64.half (F64.of_Z k))) (data a')) (data a'))
        (zip_with F64.mul
           (map (F64.mul (F64.mul F64.half (F64.of_Z m))) (data b')) (data b')).
Proof.
  intros Ha Hb H. destruct a as [a'|ea].
  - destruct b as [b'|eb].
    + rewrite energy_expr_same_shape in H
        by (rewrite (Ha a' eq_refl), (Hb b' eq_refl); reflexivity).
      destruct (_ && _); [|discriminate H].
      injection H as <-. exists a', b'. reflexivity.
    + rewrite energy_expr_second_missing in H.
      destruct (F64.is_finite (F64.of_Z k)), (F64.is_finite (F64.of_Z m));
        discriminate H.
  - rewrite energy_expr_first_missing in H.
    destruct (F64.is_finite (F64.of_Z k)); discriminate H.
Qed.

(** The operands [total_energy] squares and adds, for a result. *)
Lemma total_energy_data (state : ndarray) (k m : Z) (e : ndarray) :
  total_energy state k m = Ok e ->
  exists a b,
    data e
    = zip_with F64.add
        (zip_with F64.mul
           (map (F64.mul (F64.mul F64.half (F64.of_Z k))) (data a)) (data a))
        (zip_with F64.mul
           (map (F64.mul (F64.mul F64.half (F64.of_Z m))) (data b)) (data b)).
Proof.
  unfold total_energy, ndim.
  destruct (shape state) as [|c [|c' [|c'' rest]]] eqn:Hs; cbn [length];
    try discriminate; intros H.
  - apply (energy_expr_data k m _ _ []) in H; [exact H| |];
      intros s Hget; unfold getitem0 in Hget; rewrite Hs in Hget;
      destruct (norm_index _ c); cbn [bind] in Hget; [|discriminate Hget| |discriminate Hget];
      injection Hget as <-; reflexivity.
  - apply (energy_expr_data k m _ _ [c]) in H; [exact H| |];
      intros s Hget; unfold column in Hget; rewrite Hs in Hget;
      destruct (_ <? c')%nat; [|discriminate Hget| |discriminate Hget];
      injection Hget as <-; reflexivity.
Qed.

(** X5.  With non-negative stiffness and mass (the defaults are 1), no
    entry of the energy is negative: each is a NaN or has a clear sign
    bit, so [e < 0] is false throughout. *)
Theorem total_energy_not_negative (state : ndarray) (k m : Z) (e : ndarray) :
  (0 <= k)%Z -> (0 <= m)%Z ->
  total_energy state k m = Ok e ->
  Forall (fun x => not_negative x = true /\ F64.ltb x F64.zero = false) (data e).
Proof.
  intros Hk Hm H. apply total_energy_data in H as (a & b & ->).
  eapply Forall_impl; [|intros x; apply carries_not_negative].
  apply sums_carry; apply squares_carry, weight_carries; assumption.
Qed.

Lemma total_energy_not_negative_witness :
  exists e, total_energy (mk_ndarray [2%nat] [F64.of_Z (-3); F64.of_Z 4]) 1 1 = Ok e
            /\ Forall (fun x => not_negative x = true /\ F64.ltb x F64.zero = false)
                      (data e).
Proof.
  eexists. split; [reflexivity|].
  apply (total_energy_not_negative
           (mk_ndarray [2%nat] [F64.of_Z (-3); F64.of_Z 4]) 1 1); [lia | lia |].
  reflexivity.
Defined.

Lemma div_by_zero_nonfinite d z :
  F64.is_zero z = true -> F64.is_finite (F64.div d z) = false.
Proof.
  destruct z as [s|s| |s m e]; try discriminate. intros _.
  destruct d as [[]|[]| |[] m e]; destruct s; reflexivity.
Qed.

(** X6.  When the reference state has zero energy the drift is a division
    by zero: for single states [relative_energy_drift] raises nothing and
    returns a value that is not finite (an infinity or NaN). *)
Theorem relative_energy_drift_zero_reference
    (x_pred x_true : ndarray) (t : Z) (p z : F64.float) :
  energy_at x_pred t = Ok (scalar p) ->
  energy_at x_true t = Ok (scalar z) ->
  F64.is_zero z = true ->
  exists v, relative_energy_drift x_pred x_true t = Ok (scalar v)
            /\ F64.is_finite v = false.
Proof.
  unfold energy_at, relative_energy_drift. intros Hp Ht Hz.
  destruct (getitem0 x_pred t) as [sp|]; cbn [bind] in *; [|discriminate].
  rewrite Hp. cbn [bind].
  destruct (getitem0 x_true t) as [st|]; cbn [bind] in *; [|discriminate].
  rewrite Ht. cbn [bind].
  rewrite binop_same_shape by reflexivity. cbn [bind].
  rewrite binop_same_shape by reflexivity. cbn.
  eexists. split; [reflexivity|]. apply div_by_zero_nonfinite, Hz.
Qed.

Lemma relative_energy_drift_zero_reference_witness :
  exists v, relative_energy_drift (trajectory_of [1]%Z) (trajectory_of [0]%Z) (-1)
            = Ok (scalar v)
            /\ F64.is_finite v = false.
Proof.
  apply (relative_energy_drift_zero_reference
           (trajectory_of [1]%Z) (trajectory_of [0]%Z) (-1)
           F64.half F64.zero); reflexivity.
Defined.

End EnergyFacts.

(** ** Trajectory error *)

Section TrajectoryError.

Import NP Utils Harness.

Lemma abs_binary_round_aux prec emax s s' m e l :
  SFabs (binary_round_aux prec emax s m e l)
  = SFabs (binary_round_aux prec emax s' m e l).
Proof.
  unfold binary_round_aux.
  destruct (shr_fexp prec emax m e l) as [mrs' e'].
  destruct (shr_fexp prec emax _ e' loc_Exact) as [mrs'' e''].
  destruct (shr_m mrs''); [reflexivity| |reflexivity].
  destruct (Z.leb _ _); reflexivity.
Qed.

Lemma abs_binary_normalize_opp prec emax z e :
  SFabs (binary_normalize prec emax (- z) e false)
  = SFabs (binary_normalize prec emax z e false).
Proof.
  destruct z as [|p|p]; [reflexivity| |].
  - change (- Z.pos p)%Z with (Z.neg p). unfold binary_normalize, binary_round.
    destruct (shl_align _ _ _) as [mz ez]. apply abs_binary_round_aux.
  - change (- Z.neg p)%Z with (Z.pos p). unfold binary_normalize, binary_round.
    destruct (shl_align _ _ _) as [mz ez]. apply abs_binary_round_aux.
Qed.

(** [|a - b| = |b - a|], bit for bit. *)
Lemma abs_sub_comm a b : F64.abs (F64.sub a b) = F64.abs (F64.sub b a).
Proof.
  unfold F64.abs, F64.sub.
  destruct a as [s|s| |s m e], b as [s'|s'| |s' m' e'];
    try (destruct s, s'; reflexivity); try reflexivity.
  cbn [SFsub]. rewrite (Z.min_comm e' e).
  set (A := cond_Zopp s _). set (B := cond_Zopp s' _).
  replace (B - A)%Z with (- (A - B))%Z by lia.
  symmetry. apply abs_binary_normalize_opp.
Qed.

Lemma abs_diffs_comm (l1 l2 : list F64.float) :
  map F64.abs (zip_with F64.sub l1 l2) = map F64.abs (zip_with F64.sub l2 l1).
Proof.
  revert l2. induction l1 as [|a l1 IH]; intros [|b l2]; cbn; try reflexivity.
  rewrite abs_sub_comm, IH. reflexivity.
Qed.

(** X7.  For trajectories of one shape the error does not depend on which
    is called the prediction: [trajectory_error(a, b)] and
    [trajectory_error(b, a)] are the same float. *)
Theorem trajectory_error_symmetric (a b : ndarray) :
  shape a = shape b ->
  trajectory_error a b = trajectory_error b a.
Proof.
  intros Hs. unfold trajectory_error.
  rewrite (binop_same_shape F64.sub a b Hs).
  rewrite (binop_same_shape F64.sub b a (eq_sym Hs)).
  cbn [bind data]. rewrite abs_diffs_comm. reflexivity.
Qed.

Lemma trajectory_error_symmetric_witness :
  trajectory_error (trajectory_of [1; 2]%Z) (trajectory_of [1; 4]%Z)
  = trajectory_error (trajectory_of [1; 4]%Z) (trajectory_of [1; 2]%Z).
Proof.
  apply (trajectory_error_symmetric
           (trajectory_of [1; 2]%Z) (trajectory_of [1; 4]%Z)).
  reflexivity.
Defined.

Lemma sub_self_is_zero x :
  F64.is_finite x = true -> F64.abs (F64.sub x x) = F64.zero.
Proof.
  destruct x as [s|s| |s m e]; try discriminate; intros _.
  - destruct s; reflexivity.
  - rewrite sub_self_finite. reflexivity.
Qed.

Lemma abs_diffs_self (l : list F64.float) :
  forallb F64.is_finite l = true ->
  map F64.abs (zip_with F64.sub l l) = replicate (length l) F64.zero.
Proof.
  induction l as [|x l IH]; cbn; [reflexivity|].
  intros H. apply andb_prop in H as [Hx Hl].
  rewrite (sub_self_is_zero x Hx), IH by exact Hl. reflexivity.
Qed.

Lemma sum_zeros (n : nat) : sum (replicate n F64.zero) = F64.zero.
Proof.
  unfold sum. induction n as [|n IH]; [reflexivity|]. cbn. exact IH.
Qed.

Lemma digits2_pos_lower (p : positive) :
  (2 ^ (Z.pos (digits2_pos p) - 1) <= Z.pos p)%Z.
Proof.
  induction p as [p IH|p IH|]; cbn [digits2_pos].
  - rewrite Pos2Z.inj_succ.
    replace (Z.succ (Z.pos (digits2_pos p)) - 1)%Z
      with (Z.succ (Z.pos (digits2_pos p) - 1)) by lia.
    rewrite Z.pow_succ_r by lia. lia.
  - rewrite Pos2Z.inj_succ.
    replace (Z.succ (Z.pos (digits2_pos p)) - 1)%Z
      with (Z.succ (Z.pos (digits2_pos p) - 1)) by lia.
    rewrite Z.pow_succ_r by lia. lia.
  - reflexivity.
Qed.

Lemma digits2_pos_iter (p k : positive) :
  digits2_pos (Pos.iter xO p k) = (digits2_pos p + k)%positive.
Proof.
  induction k as [|k IH] using Pos.peano_ind.
  - cbn. lia.
  - rewrite Pos.iter_succ. cbn [digits2_pos]. rewrite IH. lia.
Qed.

Lemma binary_round_aux_exact (mz : positive) (ez : Z) :
  Z.pos (digits2_pos mz) = 53%Z ->
  (-1074 <= ez <= 971)%Z ->
  binary_round_aux F64.prec F64.emax false (Z.pos mz) ez loc_Exact
  = S754_finite false mz ez.
Proof.
  intros Hd He. unfold binary_round_aux, shr_fexp. cbn [Zdigits2 shr_record_of_loc].
  rewrite Hd. unfold fexp, emin, F64.prec, F64.emax.
  replace (Z.max (53 + ez - 53) (3 - 1024 - 53) - ez)%Z with 0%Z by lia.
  cbn [shr shr_m loc_of_shr_record round_nearest_even Zdigits2 shr_record_of_loc].
  rewrite Hd.
  replace (Z.max (53 + ez - 53) (3 - 1024 - 53) - ez)%Z with 0%Z by lia.
  cbn [shr shr_m].
  replace (ez <=? 1024 - 53)%Z with true by lia. reflexivity.
Qed.

Lemma of_Z_small_positive (p : positive) :
  (Z.pos p < 2 ^ 53)%Z ->
  exists m e, F64.of_Z (Z.pos p) = S754_finite false m e.
Proof.
  intros Hp. unfold F64.of_Z, binary_normalize, binary_round.
  assert (Hd : (1 <= Z.pos (digits2_pos p) <= 53)%Z).
  { split; [lia|]. pose proof (digits2_pos_lower p) as Hl.
    destruct (Z_le_gt_dec (Z.pos (digits2_pos p)) 53) as [|Hgt]; [assumption|].
    assert (2 ^ 53 <= 2 ^ (Z.pos (digits2_pos p) - 1))%Z
      by (apply Z.pow_le_mono_r; lia).
    lia. }
  unfold shl_align, fexp, emin, F64.prec, F64.emax.
  replace (Z.max (Z.pos (digits2_pos p) + 0 - 53) (3 - 1024 - 53) - 0)%Z
    with (Z.pos (digits2_pos p) - 53)%Z by lia.
  destruct (Z.pos (digits2_pos p) - 53)%Z as [|k|k] eqn:Hk; [|lia|].
  - exists p, 0%Z. apply binary_round_aux_exact; lia.
  - eexists _, _.
    replace (Z.max (Z.pos (digits2_pos p) + 0 - 53) (3 - 1024 - 53))
      with (Z.neg k) by lia.
    apply binary_round_aux_exact; [|lia].
    rewrite digits2_pos_iter. lia.
Qed.

Lemma mean_zeros (n : nat) :
  (0 < n)%nat -> (Z.of_nat n < 2 ^ 53)%Z ->
  mean (replicate n F64.zero) = F64.zero.
Proof.
  intros Hn Hlt. unfold mean. rewrite sum_zeros, length_replicate.
  destruct (Z.of_nat n) as [|p|p] eqn:Hp; [lia| |lia].
  destruct (of_Z_small_positive p Hlt) as (m & e & ->). reflexivity.
Qed.

(** X8.  A trajectory with finite entries is at distance exactly [0.0]
    from itself; for an empty trajectory the mean of no element is NaN. *)
Theorem trajectory_error_self (x : ndarray) :
  all_finite x = true ->
  (Z.of_nat (length (data x)) < 2 ^ 53)%Z ->
  trajectory_error x x
  = Ok (match data x with [] => F64.nan | _ :: _ => F64.zero end).
Proof.
  intros Hf Hlt. unfold trajectory_error.
  rewrite (binop_same_shape F64.sub x x eq_refl). cbn [bind data].
  rewrite abs_diffs_self by exact Hf.
  destruct (data x) as [|v l] eqn:Hd; [reflexivity|].
  rewrite mean_zeros; [reflexivity | cbn; lia | exact Hlt].
Qed.

Lemma trajectory_error_self_witness :
  trajectory_error (trajectory_of [3; -4]%Z) (trajectory_of [3; -4]%Z) = Ok F64.zero.
Proof.
  apply (trajectory_error_self (trajectory_of [3; -4]%Z)); [reflexivity|].
  cbn. lia.
Defined.

End TrajectoryError.

(** ** The array handed to [visualize] *)

Section VisualizeInput.

Import NP Harness.

Lemma visualize_reshape_value (x : ndarray) :
  visualize_reshape x
  = if (numel (shape x) mod 4 =? 0)%nat
    then Ok (mk_ndarray [2%nat; (numel (shape x) / 4)%nat; 2%nat] (data x))
    else Raise ValueError.
Proof.
  unfold visualize_reshape, np_reshape.
  change (unknown_count [2; -1; 2]%Z) with 1%nat.
  change (known_size [2; -1; 2]%Z) with 4%Z.
  set (n := numel (shape x)).
  assert (Hmod : (Z.of_nat n mod 4 =? 0)%Z = (n mod 4 =? 0)%nat).
  { change 4%Z with (Z.of_nat 4). rewrite <- Nat2Z.inj_mod.
    destruct (n mod 4 =? 0)%nat eqn:Hm.
    - apply Nat.eqb_eq in Hm. rewrite Hm. reflexivity.
    - apply Nat.eqb_neq in Hm. apply Z.eqb_neq. lia. }
  cbn [andb Z.ltb Z.compare]. rewrite Hmod.
  destruct (n mod 4 =? 0)%nat; [|reflexivity].
  cbn [map]. change (2 =? -1)%Z with false. change (-1 =? -1)%Z with true.
  cbn iota. change 4%Z with (Z.of_nat 4).
  rewrite <- Nat2Z.inj_div, Nat2Z.id. reflexivity.
Qed.

(** X9.  [visualize] begins with [x_val.reshape(2, -1, 2)], which needs a
    number of elements divisible by 4.  An array of shape [(2, S, 2)] is kept
    as it is; the shapes of the docstring, [(S, 2)] and [(1, S, 2)], raise
    [ValueError] for an odd [S] (such as the 1001 samples of the dataset),
    and for an even [S] a single series [(S, 2)] is cut into two series of
    [S / 2] samples. *)
Theorem visualize_reshape_outcome (x : ndarray) :
  (visualize_reshape x
   = if (numel (shape x) mod 4 =? 0)%nat
     then Ok (mk_ndarray [2%nat; (numel (shape x) / 4)%nat; 2%nat] (data x))
     else Raise ValueError)
  /\ (forall S, shape x = [2%nat; S; 2%nat] -> visualize_reshape x = Ok x)
  /\ (forall S, Nat.odd S = true ->
        shape x = [S; 2%nat] \/ shape x = [1%nat; S; 2%nat] ->
        visualize_reshape x = Raise ValueError)
  /\ (forall S, Nat.even S = true ->
        shape x = [S; 2%nat] ->
        visualize_reshape x = Ok (mk_ndarray [2%nat; (S / 2)%nat; 2%nat] (data x))).
Proof.
  split; [apply visualize_reshape_value|]. rewrite visualize_reshape_value.
  split; [|split].
  - intros S Hs. rewrite Hs. cbn [numel foldr].
    replace (2 * (S * (2 * 1)))%nat with (S * 4)%nat by lia.
    rewrite Nat.Div0.mod_mul, Nat.div_mul by lia. cbn [Nat.eqb].
    destruct x as [sh d]. cbn in Hs |- *. rewrite Hs. reflexivity.
  - intros S Hodd Hs.
    assert (Hn : numel (shape x) = (S * 2)%nat)
      by (destruct Hs as [-> | ->]; cbn [numel foldr]; lia).
    rewrite Hn. apply Nat.odd_spec in Hodd as [q ->].
    replace ((2 * q + 1) * 2)%nat with (2 + q * 4)%nat by lia.
    rewrite Nat.Div0.mod_add. reflexivity.
  - intros S Heven Hs. rewrite Hs. cbn [numel foldr].
    apply Nat.even_spec in Heven as [q ->].
    replace (2 * q * (2 * 1))%nat with (q * 4)%nat by lia.
    rewrite Nat.Div0.mod_mul, Nat.div_mul by lia. cbn [Nat.eqb].
    replace (2 * q / 2)%nat with q; [reflexivity|].
    rewrite Nat.mul_comm, Nat.div_mul; lia.
Qed.

End VisualizeInput.

(** ** The results log over many evaluations *)

Section LogRuns.

Import Log Runs.

Lemma string_app_assoc (a b c : string) :
  String.append (String.append a b) c = String.append a (String.append b c).
Proof.
  induction a as [|x a IH]; [reflexivity|].
  change (String x (String.append (String.append a b) c)
          = String x (String.append a (String.append b c))).
  rewrite IH. reflexivity.
Qed.

Lemma string_app_nil_r (a : string) : String.append a EmptyString = a.
Proof.
  induction a as [|x a IH]; [reflexivity|].
  change (String x (String.append a EmptyString) = String x a).
  rewrite IH. reflexivity.
Qed.

Lemma visualize_log_other PLOT_DIR TIME_OF_RUN a m (fs : gmap string string) q :
  q <> file_path PLOT_DIR TIME_OF_RUN a ->
  visualize_log PLOT_DIR TIME_OF_RUN a m fs !! q = fs !! q.
Proof.
  intros Hq. unfold visualize_log. cbv zeta.
  rewrite append_to_other by exact Hq.
  destruct (negb _); [apply append_to_other; exact Hq | reflexivity].
Qed.

Lemma visualize_log_all_lookup PLOT_DIR TIME_OF_RUN a m ms (fs : gmap string string) :
  visualize_log_all PLOT_DIR TIME_OF_RUN a (m :: ms) fs
    !! file_path PLOT_DIR TIME_OF_RUN a
  = Some (String.append
            (match fs !! file_path PLOT_DIR TIME_OF_RUN a with
             | Some old => old
             | None => title_string
             end)
            (foldr String.append EmptyString (map format_row (m :: ms)))).
Proof.
  revert m fs. induction ms as [|m' ms IH]; intros m fs.
  - cbn [visualize_log_all foldl map foldr]. rewrite visualize_log_lookup.
    rewrite string_app_nil_r. reflexivity.
  - change (visualize_log_all PLOT_DIR TIME_OF_RUN a (m :: m' :: ms) fs)
      with (visualize_log_all PLOT_DIR TIME_OF_RUN a (m' :: ms)
              (visualize_log PLOT_DIR TIME_OF_RUN a m fs)).
    rewrite IH, visualize_log_lookup.
    change (map format_row (m :: m' :: ms))
      with (format_row m :: map format_row (m' :: ms)).
    cbn [foldr]. rewrite string_app_assoc. reflexivity.
Qed.

Lemma no_newline_app (a b : string) :
  no_newline (String.append a b) = no_newline a && no_newline b.
Proof.
  induction a as [|x a IH]; [reflexivity|].
  change (String.append (String x a) b) with (String x (String.append a b)).
  cbn [no_newline]. rewrite IH. apply andb_assoc.
Qed.

Lemma rows_from_line (cur s rest : string) :
  no_newline s = true ->
  rows_from cur (String.append s (String.append newline rest))
  = String.append cur s :: rows_from EmptyString rest.
Proof.
  revert cur. induction s as [|x s IH]; intros cur Hs.
  - change (String.append EmptyString (String.append newline rest))
      with (String (Ascii.ascii_of_nat 10) rest).
    cbn [rows_from]. rewrite Ascii.eqb_refl, string_app_nil_r. reflexivity.
  - cbn [no_newline] in Hs. apply andb_true_iff in Hs as [Hx Hs].
    change (String.append (String x s) (String.append newline rest))
      with (String x (String.append s (String.append newline rest))).
    cbn [rows_from].
    destruct (Ascii.eqb x (Ascii.ascii_of_nat 10)); [discriminate Hx|].
    rewrite IH by exact Hs. rewrite string_app_assoc. reflexivity.
Qed.

Lemma no_newline_row (m : metrics) :
  forallb no_newline (fields m) = true -> no_newline (row_text m) = true.
Proof.
  unfold row_text, fields, join_comma. cbn [forallb String.concat].
  intros H. repeat (apply andb_true_iff in H as [?H H]).
  repeat (rewrite no_newline_app; apply andb_true_iff; split;
          [assumption|]; try (rewrite no_newline_app; apply andb_true_iff;
                              split; [reflexivity|])).
  assumption.
Qed.

Lemma rows_of_rows (ms : list metrics) :
  Forall (fun m => forallb no_newline (fields m) = true) ms ->
  rows_from EmptyString (foldr String.append EmptyString (map format_row ms))
  = map row_text ms.
Proof.
  induction 1 as [|m ms Hm _ IH]; [reflexivity|].
  cbn [map foldr]. change (format_row m) with (String.append (row_text m) newline).
  rewrite string_app_assoc, rows_from_line by (apply no_newline_row; exact Hm).
  rewrite IH. reflexivity.
Qed.

(** X11.  When the log file is absent at the first evaluation and the
    formatted values hold no line end, the file read back after [n]
    evaluations has [n + 1] rows: the header as written, once, and then the
    row of each evaluation. *)
Theorem visualize_log_all_rows PLOT_DIR TIME_OF_RUN a m ms
    (fs : gmap string string) :
  fs !! file_path PLOT_DIR TIME_OF_RUN a = None ->
  Forall (fun m => forallb no_newline (fields m) = true) (m :: ms) ->
  exists content,
    visualize_log_all PLOT_DIR TIME_OF_RUN a (m :: ms) fs
      !! file_path PLOT_DIR TIME_OF_RUN a = Some content
    /\ rows content = written_header :: map row_text (m :: ms)
    /\ length (rows content) = S (length (m :: ms)).
Proof.
  intros Hnone Hrows. eexists. split.
  - rewrite visualize_log_all_lookup, Hnone. reflexivity.
  - assert (Hr : rows (String.append title_string
                         (foldr String.append EmptyString
                            (map format_row (m :: ms))))
                 = written_header :: map row_text (m :: ms)).
    { unfold rows. rewrite title_string_written, string_app_assoc.
      rewrite rows_from_line by reflexivity.
      rewrite rows_of_rows by exact Hrows. reflexivity. }
    split; [exact Hr|]. rewrite Hr. cbn [length]. rewrite length_map. reflexivity.
Qed.

Lemma visualize_log_all_rows_witness :
  exists content,
    visualize_log_all "plots/" "20200101-120000" sample_args
      [sample_row; sample_row; sample_row] ∅
      !! file_path "plots/" "20200101-120000" sample_args = Some content
    /\ rows content = written_header :: map row_text [sample_row; sample_row; sample_row]
    /\ length (rows content) = 4%nat.
Proof.
  apply (visualize_log_all_rows "plots/" "20200101-120000" sample_args
           sample_row [sample_row; sample_row] ∅).
  - apply lookup_empty.
  - repeat constructor.
Defined.

(** X12.  The name of the log file joins [str(args.lr)],
    [str(args.dataset_size)] and [str(args.batch_size)] without a
    separator, so digits can move from one to the next without changing
    the name; two runs with different settings and one name share the
    file, and the second run appends its rows under the header of the
    first. *)
Theorem file_path_shared PLOT_DIR TIME_OF_RUN :
  (forall l d x b,
      file_path PLOT_DIR TIME_OF_RUN (mk_args l (String.append d x) b)
      = file_path PLOT_DIR TIME_OF_RUN (mk_args l d (String.append x b)))
  /\ (mk_args "0.001" "51" "2" <> mk_args "0.001" "5" "12"
      /\ file_path PLOT_DIR TIME_OF_RUN (mk_args "0.001" "51" "2")
         = file_path PLOT_DIR TIME_OF_RUN (mk_args "0.001" "5" "12"))
  /\ (forall a1 a2 m1 m2 (fs : gmap string string),
        file_path PLOT_DIR TIME_OF_RUN a1 = file_path PLOT_DIR TIME_OF_RUN a2 ->
        fs !! file_path PLOT_DIR TIME_OF_RUN a1 = None ->
        visualize_log PLOT_DIR TIME_OF_RUN a2 m2
          (visualize_log PLOT_DIR TIME_OF_RUN a1 m1 fs)
          !! file_path PLOT_DIR TIME_OF_RUN a2
        = Some (String.append (String.append title_string (format_row m1))
                  (format_row m2))).
Proof.
  split; [|split].
  - intros l d x b. unfold file_path. cbn [lr dataset_size batch_size].
    rewrite !string_app_assoc. reflexivity.
  - split; [discriminate|]. unfold file_path. reflexivity.
  - intros a1 a2 m1 m2 fs Heq Hnone.
    rewrite visualize_log_lookup, <- Heq, visualize_log_lookup, Hnone.
    reflexivity.
Qed.

End LogRuns.

(** ** [visualize] and the files it touches *)

Section VisualizeFiles.

Import NP Utils Harness Log FS Runs Visualize.

Variable rollout : ndarray -> result (ndarray * ndarray).
Variable draw_axes : ndarray -> ndarray -> result unit.
Variable draw_energy : list ndarray -> result string.
Variable wall_time : string -> result F64.float.
Variable format_value : ndarray -> string.

Lemma last_char_app (a b : string) (c : Ascii.ascii) :
  last_char b = Some c -> last_char (String.append a b) = Some c.
Proof.
  intros Hb. induction a as [|x a IH]; [exact Hb|].
  change (String.append (String x a) b) with (String x (String.append a b)).
  cbn [last_char]. rewrite IH. reflexivity.
Qed.

(** The picture and the log are different files: one name ends in [g]
    (character 103), the other in [v] (character 118). *)
Lemma plot_path_not_log (PLOT_DIR TIME_OF_RUN : string) (a : args) (epoch : Z) :
  plot_path PLOT_DIR epoch <> file_path PLOT_DIR TIME_OF_RUN a.
Proof.
  intros Heq. apply (f_equal last_char) in Heq. revert Heq.
  unfold plot_path, file_path.
  rewrite (last_char_app PLOT_DIR _ (Ascii.ascii_of_nat 103))
    by (do 2 apply last_char_app; reflexivity).
  rewrite (last_char_app PLOT_DIR _ (Ascii.ascii_of_nat 118))
    by (do 5 apply last_char_app; reflexivity).
  discriminate.
Qed.

Lemma write_file_inv {A} (path : string) (content : A) (fs fs1 : store A) :
  write_file path content fs = Ok fs1 ->
  isdir (dirname path) fs = true
  /\ fs1 = mk_store (dirs fs) (<[path := content]> (files fs)).
Proof.
  unfold write_file, open_and_write. destruct (isdir _ fs); [|discriminate].
  intros [= <-]. auto.
Qed.

Lemma compute_metrics_epoch x_val x_t TIME_OF_RUN epoch_ m :
  compute_metrics wall_time format_value x_val x_t TIME_OF_RUN epoch_ = Ok m ->
  epoch m = str_int epoch_
  /\ exists w, wall_time TIME_OF_RUN = Ok w.
Proof.
  unfold compute_metrics. intros H.
  repeat match type of H with
  | bind ?e _ = Ok _ =>
      let x := fresh "x" in let Hx := fresh "H" x in
      destruct e as [x|] eqn:Hx; cbn [bind] in H; [|discriminate H]
  end.
  injection H as <-. eauto.
Qed.

(** A call that returns: what it went through. *)
Lemma visualize_returns x_val PLOT_DIR TIME_OF_RUN a epoch_ fs fs' :
  visualize rollout draw_axes draw_energy wall_time format_value
    x_val PLOT_DIR TIME_OF_RUN a epoch_ fs = (fs', Ok tt) ->
  exists x_val' x_t picture m,
    evaluate rollout draw_axes draw_energy x_val = Ok (x_val', x_t, picture)
    /\ isdir (dirname (plot_path PLOT_DIR epoch_)) fs = true
    /\ compute_metrics wall_time format_value x_val' x_t TIME_OF_RUN epoch_ = Ok m
    /\ fs' = mk_store (dirs fs)
               (visualize_log PLOT_DIR TIME_OF_RUN a m
                  (<[plot_path PLOT_DIR epoch_ := picture]> (files fs))).
Proof.
  unfold visualize. intros H.
  destruct (evaluate _ _ _ x_val) as [[[xv xt] pic]|e]; [|discriminate H].
  destruct (write_file _ pic fs) as [fs1|e] eqn:Hw; [|discriminate H].
  apply write_file_inv in Hw as [Hdir ->].
  destruct (compute_metrics _ _ xv xt TIME_OF_RUN epoch_) as [m|e] eqn:Hm;
    [|discriminate H].
  cbv zeta in H.
  destruct (isdir (dirname (file_path PLOT_DIR TIME_OF_RUN a)) _);
    [|discriminate H].
  injection H as <-. exists xv, xt, pic, m. auto.
Qed.

(** C9, on the code.  A call of [visualize] that returns appends exactly
    one row to the log file, with the epoch in its second field, after what
    the file held; when the file is absent the row comes after a header,
    written once.  But the header written is
    [wall_time,epoch,energy_drift_interp,energy_drift_extrap, phase_error_interp,phase_error_extrap, traj_err_interp, traj_err_extrap],
    with a blank after the fourth, the sixth and the seventh comma: the
    first row of the new file is not the header of the specification. *)
Theorem visualize_header_row x_val PLOT_DIR TIME_OF_RUN a epoch_
    (fs fs' : store string) :
  visualize rollout draw_axes draw_energy wall_time format_value
    x_val PLOT_DIR TIME_OF_RUN a epoch_ fs = (fs', Ok tt) ->
  exists m content,
    epoch m = str_int epoch_
    /\ files fs' !! file_path PLOT_DIR TIME_OF_RUN a = Some content
    /\ content
       = String.append
           (match files fs !! file_path PLOT_DIR TIME_OF_RUN a with
            | Some old => old
            | None => String.append written_header newline
            end)
           (format_row m)
    /\ (files fs !! file_path PLOT_DIR TIME_OF_RUN a = None ->
        head (rows content) = Some written_header
        /\ head (rows content) <> Some claimed_header).
Proof.
  intros H. apply visualize_returns in H
    as (xv & xt & pic & m & _ & _ & Hm & ->).
  apply compute_metrics_epoch in Hm as [Hepoch _].
  exists m. eexists. split; [exact Hepoch|]. cbn [files].
  rewrite visualize_log_lookup.
  rewrite lookup_insert_ne by apply plot_path_not_log.
  rewrite <- title_string_written.
  split; [reflexivity|]. split; [reflexivity|].
  intros ->. rewrite title_string_written, string_app_assoc.
  unfold rows. rewrite rows_from_line by reflexivity.
  split; [reflexivity | discriminate].
Qed.

(** X10.  Whatever its outcome, [visualize] creates no directory and
    changes at most two files, the picture [PLOT_DIR/<epoch>.png] and the
    log.  When it returns, the picture has been written.  When the
    reshape of [x_val] raises, nothing has been written; when
    [TIME_OF_RUN] is not a time [strptime] accepts, the call does not
    return and the log is left as it was. *)
Theorem visualize_files x_val PLOT_DIR TIME_OF_RUN a epoch_ (fs : store string) :
  let out := visualize rollout draw_axes draw_energy wall_time format_value
               x_val PLOT_DIR TIME_OF_RUN a epoch_ fs in
  dirs (fst out) = dirs fs
  /\ (forall q,
        q <> plot_path PLOT_DIR epoch_ ->
        q <> file_path PLOT_DIR TIME_OF_RUN a ->
        files (fst out) !! q = files fs !! q)
  /\ (snd out = Ok tt ->
      exists picture, files (fst out) !! plot_path PLOT_DIR epoch_ = Some picture)
  /\ (forall e, np_reshape x_val [2; -1; 2]%Z = Raise e -> out = (fs, Raise e))
  /\ (forall e, wall_time TIME_OF_RUN = Raise e ->
        snd out <> Ok tt
        /\ files (fst out) !! file_path PLOT_DIR TIME_OF_RUN a
           = files fs !! file_path PLOT_DIR TIME_OF_RUN a).
Proof.
  intros out.
  assert (Hreshape : forall e, np_reshape x_val [2; -1; 2]%Z = Raise e ->
                               out = (fs, Raise e)).
  { intros e He. unfold out, visualize, evaluate. rewrite He. reflexivity. }
  unfold out, visualize in *. clear out.
  destruct (evaluate _ _ _ x_val) as [[[xv xt] pic]|e0].
  2:{ cbn [fst snd]. repeat split; try reflexivity; try discriminate.
      exact Hreshape. }
  destruct (write_file _ pic fs) as [fs1|e1] eqn:Hw.
  2:{ cbn [fst snd]. repeat split; try reflexivity; try discriminate.
      exact Hreshape. }
  apply write_file_inv in Hw as [Hdir ->].
  destruct (compute_metrics _ _ xv xt TIME_OF_RUN epoch_) as [m|e2] eqn:Hm.
  - cbv zeta.
    destruct (isdir (dirname (file_path PLOT_DIR TIME_OF_RUN a)) _) eqn:Hlog;
      cbn [fst snd dirs files].
    + split; [reflexivity|]. split; [|split; [|split]].
      * intros q Hq1 Hq2. rewrite visualize_log_other by exact Hq2.
        apply lookup_insert_ne. congruence.
      * intros _. exists pic. rewrite visualize_log_other by apply plot_path_not_log.
        apply lookup_insert_eq.
      * exact Hreshape.
      * intros e He. apply compute_metrics_epoch in Hm as [_ [w Hw]].
        rewrite Hw in He. discriminate He.
    + split; [reflexivity|]. split; [|split; [|split]].
      * intros q Hq1 Hq2. apply lookup_insert_ne. congruence.
      * discriminate.
      * exact Hreshape.
      * intros e He. split; [discriminate|].
        apply lookup_insert_ne. apply plot_path_not_log.
  - cbn [fst snd dirs files]. split; [reflexivity|]. split; [|split; [|split]].
    + intros q Hq1 Hq2. apply lookup_insert_ne. congruence.
    + discriminate.
    + exact Hreshape.
    + intros e He. split; [discriminate|].
      apply lookup_insert_ne. apply plot_path_not_log.
Qed.

End VisualizeFiles.

Section VisualizeRuns.

Import NP Log FS Runs Visualize.

(** One evaluation on the stand-ins, the log file absent. *)
Lemma visualize_header_row_witness :
  exists fs' content,
    run "20200101-120000" 3 plots_store = (fs', Ok tt)
    /\ files fs' !! file_path "plots" "20200101-120000" sample_args = Some content
    /\ rows content = [written_header; "1,3,1,1,1,1,1,1"]
    /\ head (rows content) <> Some claimed_header.
Proof.
  destruct (run "20200101-120000" 3 plots_store) as [fs' r] eqn:Hrun.
  assert (Hr : r = Ok tt) by (vm_compute in Hrun; congruence). subst r.
  destruct (visualize_header_row exact_rollout blank_axes blank_energy
              twelve_seconds count_format two_series "plots" "20200101-120000"
              sample_args 3 plots_store fs' Hrun)
    as (m & content & _ & Hfile & _ & Hhead).
  exists fs', content. split; [reflexivity|]. split; [exact Hfile|].
  split; [|apply Hhead; reflexivity].
  vm_compute in Hrun. injection Hrun as <-.
  vm_compute in Hfile. injection Hfile as <-. reflexivity.
Defined.

End VisualizeRuns.

(** ** The running average of the loss *)

Section Meter.

Import Harness.

Lemma last_cons_default {A} (x : A) (l : list A) (d d' : A) :
  List.last (x :: l) d = List.last (x :: l) d'.
Proof.
  revert x. induction l as [|y l IH]; intros x; [reflexivity|].
  change (List.last (y :: l) d = List.last (y :: l) d'). apply IH.
Qed.

Lemma foldl_update (vs : list F64.float) (m a v0 : F64.float) :
  foldl update (mk_meter m (Some v0) a) vs
  = mk_meter m (Some (List.last vs v0)) (foldl (blend m) a vs).
Proof.
  revert a v0. induction vs as [|v vs IH]; intros a v0; [reflexivity|].
  cbn [foldl]. unfold update at 2. cbn [val momentum avg].
  rewrite IH. destruct vs as [|f vs]; [reflexivity|].
  rewrite (last_cons_default f vs v v0). reflexivity.
Qed.

Lemma meter_after_updates_eq (self : RunningAverageMeter) (v : F64.float)
    (vs : list F64.float) :
  foldl update (reset self) (v :: vs)
  = mk_meter (momentum self) (Some (List.last vs v))
             (foldl (blend (momentum self)) v vs).
Proof.
  cbn [foldl]. unfold update at 2, reset. cbn [val momentum avg].
  apply foldl_update.
Qed.

(** X13.  After [reset()] and the updates [v], [vs] the meter holds the
    last value in [val] and, in [avg], the first value blended from left
    to right with the later ones; the momentum is unchanged, and nothing
    of what the meter held before the reset is left. *)
Theorem meter_after_updates (self : RunningAverageMeter) (v : F64.float)
    (vs : list F64.float) :
  foldl update (reset self) (v :: vs)
  = mk_meter (momentum self) (Some (List.last vs v))
             (foldl (blend (momentum self)) v vs).
Proof. apply meter_after_updates_eq. Qed.

Lemma blend_nan_avg (m v : F64.float) : blend m F64.nan v = F64.nan.
Proof. reflexivity. Qed.

Lemma blend_nan_val (m a : F64.float) : blend m a F64.nan = F64.nan.
Proof.
  unfold blend, F64.add, F64.mul, F64.nan.
  destruct (SFmul F64.prec F64.emax a m); reflexivity.
Qed.

Lemma foldl_blend_nan (m : F64.float) (vs : list F64.float) :
  foldl (blend m) F64.nan vs = F64.nan.
Proof. induction vs as [|v vs IH]; [reflexivity | exact IH]. Qed.

(** X14.  A NaN handed to [update] stays: whatever is recorded before and
    after it, the average is NaN until the next [reset()]. *)
Theorem meter_nan_sticks (self : RunningAverageMeter)
    (before after : list F64.float) :
  avg (foldl update (reset self) (before ++ F64.nan :: after)) = F64.nan.
Proof.
  destruct before as [|v before].
  - cbn [app]. rewrite meter_after_updates_eq. cbn [avg].
    apply foldl_blend_nan.
  - change ((v :: before) ++ F64.nan :: after)
      with (v :: (before ++ F64.nan :: after)).
    rewrite meter_after_updates_eq. cbn [avg].
    rewrite foldl_app. cbn [foldl]. rewrite blend_nan_val.
    apply foldl_blend_nan.
Qed.

End Meter.

(** ** The reference field and the model wrapper *)

Section ModelCalls.

Import NP Harness.

Lemma omap_all_some {A B} (f : A -> option B) (g : A -> B) (l : list A) :
  (forall a, In a l -> f a = Some (g a)) -> omap f l = map g l.
Proof.
  induction l as [|a l IH]; intros H; [reflexivity|].
  cbn [omap list_omap map]. rewrite (H a) by (left; reflexivity).
  rewrite <- IH by (intros b Hb; apply H; right; exact Hb). reflexivity.
Qed.

Lemma column_total (y : ndarray) (n k j : nat) :
  shape y = [n; k] -> (j < k)%nat -> length (data y) = (n * k)%nat ->
  column y j
  = Ok (mk_ndarray [n] (map (fun i => nth (i * k + j) (data y) F64.zero) (seq 0 n))).
Proof.
  intros Hs Hj Hl. unfold column. rewrite Hs.
  destruct (Nat.ltb_spec j k) as [_|]; [|lia].
  rewrite (omap_all_some _ (fun i => nth (i * k + j) (data y) F64.zero));
    [reflexivity|].
  intros i Hi. apply in_seq in Hi.
  destruct (lookup_lt_is_Some_2 (data y) (i * k + j)) as [v Hv]; [nia|].
  rewrite Hv. f_equal. symmetry. apply nth_lookup_Some with (d := F64.zero). exact Hv.
Qed.

Lemma zip_with_maps {A B C D} (f : B -> C -> D) (g : A -> B) (h : A -> C)
    (l : list A) :
  zip_with f (map g l) (map h l) = map (fun a => f (g a) (h a)) l.
Proof. induction l as [|a l IH]; cbn; [reflexivity | rewrite IH; reflexivity]. Qed.

Lemma concat_pairs_lookup {A} (f : nat -> list A) (s n i j : nat) :
  (forall a, length (f a) = 2%nat) -> (i < n)%nat -> (j < 2)%nat ->
  concat (map f (seq s n)) !! (2 * i + j)%nat = f (s + i)%nat !! j.
Proof.
  intros Hf. revert s i. induction n as [|n IH]; intros s i Hi Hj; [lia|].
  cbn [seq map concat]. destruct i as [|i].
  - rewrite lookup_app_l by (rewrite Hf; lia).
    rewrite Nat.add_0_r. reflexivity.
  - rewrite lookup_app_r by (rewrite Hf; lia). rewrite Hf.
    replace (2 * S i + j - 2)%nat with (2 * i + j)%nat by lia.
    rewrite IH by lia. f_equal. f_equal. lia.
Qed.

Lemma concat_pairs_length {A} (f : nat -> list A) (s n : nat) :
  (forall a, length (f a) = 2%nat) ->
  length (concat (map f (seq s n))) = (2 * n)%nat.
Proof.
  intros Hf. revert s. induction n as [|n IH]; intros s; [reflexivity|].
  cbn [seq map concat]. rewrite length_app, IH, Hf. lia.
Qed.

(** The row of [Lambda.call] for the position [x] and the velocity [v]. *)
Lemma Lambda_nonfinite_velocity (x v : F64.float) :
  F64.is_finite v = false ->
  F64.div (SFopp (F64.add (F64.mul (F64.of_Z 0) v) (F64.mul (F64.of_Z 1) x)))
          (F64.of_Z 1)
  = F64.nan.
Proof.
  intros Hv. destruct v as [s| s | |s m e]; try discriminate Hv; reflexivity.
Qed.

(** X15.  On a batch [y] of [n] states with at least two columns
    [Lambda.call] returns [n] rows of two entries: the velocity [y[i, 1]]
    as it is, and [-(0*y[i, 1] + 1*y[i, 0]) / 1].  Although the damping
    coefficient is zero the velocity enters the second entry: where it is
    infinite or NaN, the second entry is NaN. *)
Theorem Lambda_call_rows (t : F64.float) (y : ndarray) (n k : nat) :
  shape y = [n; k] -> (2 <= k)%nat -> length (data y) = (n * k)%nat ->
  exists r,
    Lambda_call t y = Ok r
    /\ shape r = [n; 2%nat]
    /\ length (data r) = (2 * n)%nat
    /\ forall i, (i < n)%nat ->
         exists x v,
           data y !! (i * k)%nat = Some x
           /\ data y !! (i * k + 1)%nat = Some v
           /\ data r !! (2 * i)%nat = Some v
           /\ data r !! (2 * i + 1)%nat
              = Some (F64.div
                        (SFopp (F64.add (F64.mul (F64.of_Z 0) v)
                                        (F64.mul (F64.of_Z 1) x)))
                        (F64.of_Z 1))
           /\ (F64.is_finite v = false ->
               data r !! (2 * i + 1)%nat = Some F64.nan).
Proof.
  intros Hs Hk Hl. unfold Lambda_call. cbv zeta.
  rewrite (column_total y n k 1 Hs) by (lia || exact Hl). cbn [bind].
  rewrite (column_total y n k 0 Hs) by (lia || exact Hl). cbn [bind].
  rewrite binop_same_shape by reflexivity. cbn [bind].
  unfold stack_last, negative, scale. cbn [shape data].
  rewrite decide_True by reflexivity.
  repeat (rewrite map_map || rewrite zip_with_maps).
  set (row := fun i : nat => [_; _]).
  eexists. split; [reflexivity|]. cbn [shape data].
  split; [reflexivity|]. split.
  - apply (concat_pairs_length row 0 n). intros a. reflexivity.
  - intros i Hi.
    destruct (lookup_lt_is_Some_2 (data y) (i * k)) as [x Hx]; [nia|].
    destruct (lookup_lt_is_Some_2 (data y) (i * k + 1)) as [v Hv]; [nia|].
    exists x, v. split; [exact Hx|]. split; [exact Hv|].
    pose proof (concat_pairs_lookup row 0 n i 0 (fun _ => eq_refl) Hi ltac:(lia)) as H0.
    pose proof (concat_pairs_lookup row 0 n i 1 (fun _ => eq_refl) Hi ltac:(lia)) as H1.
    change (0 + i)%nat with i in H0, H1. unfold row in H0 at 2. unfold row in H1 at 2.
    rewrite ?Nat.add_0_r in H0, H1.
    rewrite (nth_lookup_Some _ _ F64.zero _ Hv) in H0, H1.
    rewrite (nth_lookup_Some _ _ F64.zero _ Hx) in H1.
    cbn [lookup list_lookup] in H0, H1.
    split; [exact H0|]. split; [exact H1|].
    intros Hnf. rewrite H1, (Lambda_nonfinite_velocity x v Hnf). reflexivity.
Qed.

Lemma Lambda_call_rows_witness :
  exists r,
    Lambda_call F64.zero
      (mk_ndarray [1; 2]%nat [F64.one; F64.infinity]) = Ok r
    /\ shape r = [1; 2]%nat
    /\ length (data r) = 2%nat
    /\ data r !! 1%nat = Some F64.nan.
Proof.
  destruct (Lambda_call_rows F64.zero
              (mk_ndarray [1; 2]%nat [F64.one; F64.infinity]) 1 2)
    as (r & Hr & Hsh & Hlen & Hrows); [reflexivity | lia | reflexivity |].
  exists r. split; [exact Hr|]. split; [exact Hsh|]. split; [exact Hlen|].
  destruct (Hrows 0%nat) as (x & v & Hx & Hv & _ & _ & Hnan); [lia|].
  injection Hv as <-. apply Hnan. reflexivity.
Defined.

(** X16.  For a single state (one axis) [modelFunc.call] adds the batch
    axis, calls the model and takes entry 0: when the model returns a batch
    of one, the result is that batch without its first axis, so the batch
    axis put back gives the model's output again. *)
Theorem modelFunc_call_single_state (model : ndarray -> result ndarray)
    (t : F64.float) (x r : ndarray) (s : list nat) :
  length (shape x) = 1%nat ->
  model (expand_dims0 x) = Ok r ->
  shape r = 1%nat :: s ->
  length (data r) = numel s ->
  modelFunc_call model t x = Ok (mk_ndarray s (data r))
  /\ expand_dims0 (mk_ndarray s (data r)) = r.
Proof.
  intros Hx Hm Hs Hl. unfold modelFunc_call. rewrite Hx. cbn [Nat.eqb].
  rewrite Hm. cbn [bind]. unfold getitem0. rewrite Hs.
  change (norm_index 0 1) with (@Ok nat 0%nat). cbn [bind Nat.mul drop].
  rewrite <- Hl, firstn_all.
  split; [reflexivity|].
  unfold expand_dims0. cbn [shape data]. destruct r as [sh d].
  cbn [shape] in Hs. rewrite Hs. reflexivity.
Qed.

Lemma modelFunc_call_single_state_witness :
  modelFunc_call (fun a => Ok a) F64.zero (vector [F64.one; F64.half])
  = Ok (vector [F64.one; F64.half]).
Proof.
  apply (modelFunc_call_single_state (fun a => Ok a) F64.zero
           (vector [F64.one; F64.half])
           (expand_dims0 (vector [F64.one; F64.half])) [2%nat]);
    reflexivity.
Defined.

End ModelCalls.

(** ** The files of the dataset *)

Section DatasetFiles.

Import NP FS Dataset Runs.

Variable msd_step : MassSpringDamper -> F64.float -> nat -> ndarray.
Variable msd_call : MassSpringDamper -> F64.float -> ndarray -> ndarray.
Variable random : nat -> F64.float.

(** X17.  Without a series there is nothing to stack: [create_dataset]
    with [n_series = 0] raises [ValueError], whatever the simulator, the
    number of samples and the store, and before any file is written. *)
Theorem create_dataset_no_series (samples_per_series : nat)
    (save_to_disk : bool) (fs : store ndarray) :
  create_dataset msd_step msd_call random 0 samples_per_series save_to_disk fs
  = Raise ValueError.
Proof. reflexivity. Qed.

Lemma absent_spec {A} `{EqDecision A} (o : option A) :
  bool_decide (o = None) = match o with Some _ => false | None => true end.
Proof.
  destruct o; [apply bool_decide_eq_false_2; discriminate
              | apply bool_decide_eq_true_2; reflexivity].
Qed.

(** X18.  [load_dataset] returns exactly when the store holds the four
    files; otherwise it raises [FileNotFoundError] for the first one that
    is missing, in the order x_train, y_train, x_val, y_val. *)
Theorem load_dataset_missing_file (fs : store ndarray) :
  is_ok (load_dataset fs) = bool_decide (first_missing fs = None)
  /\ forall p, first_missing fs = Some p ->
       load_dataset fs = Raise (FileNotFoundError p).
Proof.
  unfold load_dataset, first_missing, np_load. cbn [find].
  rewrite !absent_spec.
  destruct (files fs !! x_train_path) as [a|]; cbn [bind is_ok].
  2:{ split; [reflexivity|]. intros p [= <-]. reflexivity. }
  destruct (files fs !! y_train_path) as [b|]; cbn [bind is_ok].
  2:{ split; [reflexivity|]. intros p [= <-]. reflexivity. }
  destruct (files fs !! x_val_path) as [c|]; cbn [bind is_ok].
  2:{ split; [reflexivity|]. intros p [= <-]. reflexivity. }
  destruct (files fs !! y_val_path) as [d|]; cbn [bind is_ok].
  2:{ split; [reflexivity|]. intros p [= <-]. reflexivity. }
  split; [reflexivity|]. intros p Hp. discriminate Hp.
Qed.

(** The store after the four arrays of [d] have been saved. *)
Lemma create_dataset_inv (n_series samples_per_series : nat)
    (save_to_disk : bool) (fs fs' : store ndarray) (d : dataset) :
  create_dataset msd_step msd_call random n_series samples_per_series
    save_to_disk fs = Ok (d, fs') ->
  (forall save2 fs2,
      create_dataset msd_step msd_call random n_series samples_per_series
        save2 fs2
      = if save2
        then
          if isdir dataset_dir fs2
          then Ok (d, mk_store (dirs fs2)
                        (<[y_val_path := y_val d]>
                           (<[x_val_path := x_val d]>
                              (<[y_train_path := y_train d]>
                                 (<[x_train_path := x_train d]> (files fs2))))))
          else Raise (FileNotFoundError x_train_path)
        else Ok (d, fs2)).
Proof.
  unfold create_dataset. intros H save2 fs2.
  destruct (for_each _ _) as [train|]; cbn [bind] in H |- *; [|discriminate].
  destruct (stack (map fst train)) as [xt|]; cbn [bind] in H |- *; [|discriminate].
  destruct (stack (map snd train)) as [yt|]; cbn [bind] in H |- *; [|discriminate].
  destruct (stack [fst _; fst _]) as [xv|]; cbn [bind] in H |- *; [|discriminate].
  destruct (stack [snd _; snd _]) as [yv|]; cbn [bind] in H |- *; [|discriminate].
  assert (Hd : d = mk_dataset xt yt xv yv).
  { destruct save_to_disk.
    - rewrite save_all in H. destruct (isdir dataset_dir fs); cbn [bind] in H;
        [|discriminate]. injection H as <- _. reflexivity.
    - cbn [bind] in H. injection H as <- _. reflexivity. }
  subst d. cbn [x_train y_train x_val y_val].
  destruct save2; [|reflexivity].
  rewrite save_all. destruct (isdir dataset_dir fs2); reflexivity.
Qed.

(** X19.  The arrays [create_dataset] returns depend neither on
    [save_to_disk] nor on the store.  With [save_to_disk] false the store
    is left as it was.  With [save_to_disk] true the directory of the files
    must exist: then the four files hold the four arrays returned, and
    otherwise the first [np.save] raises [FileNotFoundError] and nothing is
    returned.  No directory is created and every other file is
    untouched. *)
Theorem create_dataset_store (n_series samples_per_series : nat)
    (save_to_disk : bool) (fs fs' : store ndarray) (d : dataset) :
  create_dataset msd_step msd_call random n_series samples_per_series
    save_to_disk fs = Ok (d, fs') ->
  dirs fs' = dirs fs
  /\ (save_to_disk = false -> fs' = fs)
  /\ (save_to_disk = true ->
        isdir dataset_dir fs = true
        /\ files fs' !! x_train_path = Some (x_train d)
        /\ files fs' !! y_train_path = Some (y_train d)
        /\ files fs' !! x_val_path = Some (x_val d)
        /\ files fs' !! y_val_path = Some (y_val d))
  /\ (forall q,
        q <> x_train_path -> q <> y_train_path ->
        q <> x_val_path -> q <> y_val_path ->
        files fs' !! q = files fs !! q)
  /\ (forall fs2,
        create_dataset msd_step msd_call random n_series samples_per_series
          false fs2 = Ok (d, fs2))
  /\ (forall fs2,
        if isdir dataset_dir fs2
        then exists fs2',
               create_dataset msd_step msd_call random n_series
                 samples_per_series true fs2 = Ok (d, fs2')
        else create_dataset msd_step msd_call random n_series
               samples_per_series true fs2
             = Raise (FileNotFoundError x_train_path)).
Proof.
  intros H. pose proof (create_dataset_inv _ _ _ _ _ _ H) as Hinv.
  rewrite (Hinv save_to_disk fs) in H.
  split; [|split; [|split; [|split; [|split]]]].
  - destruct save_to_disk; [destruct (isdir dataset_dir fs); [|discriminate H]|];
      injection H as <-; reflexivity.
  - intros ->. injection H as <-. reflexivity.
  - intros ->. destruct (isdir dataset_dir fs); [|discriminate H].
    injection H as <-. cbn [files]. split; [reflexivity|].
    rewrite lookup_insert_ne, lookup_insert_ne, lookup_insert_ne,
      lookup_insert_eq by discriminate.
    rewrite lookup_insert_ne, lookup_insert_ne, lookup_insert_eq by discriminate.
    rewrite lookup_insert_ne, lookup_insert_eq by discriminate.
    rewrite lookup_insert_eq. auto.
  - intros q H1 H2 H3 H4.
    destruct save_to_disk; [destruct (isdir dataset_dir fs); [|discriminate H]|];
      injection H as <-; [|reflexivity].
    cbn [files]. rewrite !lookup_insert_ne by congruence. reflexivity.
  - intros fs2. apply (Hinv false fs2).
  - intros fs2. rewrite (Hinv true fs2).
    destruct (isdir dataset_dir fs2); [eexists|]; reflexivity.
Qed.

Lemma initial_position_lookup (n_series i : nat) :
  (i < n_series)%nat ->
  (np_random_random random 0 (n_series / 2)
   ++ map (fun r => F64.sub (F64.add r np_pi) F64.one)
        (np_random_random random (n_series / 2) (n_series - n_series / 2)))
    !! i
  = Some (initial_position random n_series i).
Proof.
  intros Hi. unfold np_random_random, initial_position.
  pose proof (Nat.Div0.div_le_upper_bound n_series 2 n_series) as Hh.
  destruct (Nat.ltb_spec i (n_series / 2)) as [Hlt|Hge].
  - rewrite lookup_app_l by (rewrite length_map, length_seq; exact Hlt).
    change (map random (seq 0 (n_series / 2)))
      with (random <$> seq 0 (n_series / 2)).
    rewrite list_lookup_fmap, lookup_seq_lt by exact Hlt. reflexivity.
  - rewrite lookup_app_r by (rewrite length_map, length_seq; exact Hge).
    rewrite length_map, length_seq, map_map.
    change (map (fun x => F64.sub (F64.add (random x) np_pi) F64.one)
              (seq (n_series / 2) (n_series - n_series / 2)))
      with ((fun x => F64.sub (F64.add (random x) np_pi) F64.one)
              <$> seq (n_series / 2) (n_series - n_series / 2)).
    rewrite list_lookup_fmap, lookup_seq_lt by lia. cbn [fmap option_fmap option_map].
    do 4 f_equal. lia.
Qed.

Lemma stack_data (l : list ndarray) (s : ndarray) :
  stack l = Ok s -> data s = concat (map data l).
Proof.
  unfold stack. destruct l as [|a l]; [discriminate|].
  destruct (forallb _ _); [|discriminate]. intros [= <-]. reflexivity.
Qed.

(** X20.  Series [i] of the training set is simulated from the [i]-th
    uniform draw as initial position, shifted by [np.pi - 1] in the second
    half of the series (from index [n_series // 2] on); [x_train] holds the
    simulated trajectories and [y_train] the simulator's derivatives along
    them, series after series. *)
Theorem create_dataset_initial_conditions (n_series samples_per_series : nat)
    (save_to_disk : bool) (fs fs' : store ndarray) (d : dataset) :
  create_dataset msd_step msd_call random n_series samples_per_series
    save_to_disk fs = Ok (d, fs') ->
  let dt := F64.mul (F64.of_Z (Z.of_nat samples_per_series - 1)) delta_t in
  let msd := fun i => mk_msd (initial_position random n_series i) None in
  data (x_train d)
  = concat (map (fun i => data (msd_step (msd i) dt samples_per_series))
              (seq 0 n_series))
  /\ data (y_train d)
     = concat (map (fun i =>
                      data (msd_call (msd i) F64.zero
                              (msd_step (msd i) dt samples_per_series)))
                 (seq 0 n_series)).
Proof.
  intros H dt msd.
  pose proof (create_dataset_inv _ _ _ _ _ _ H false fs) as H'. clear H.
  unfold create_dataset in H'.
  set (g := fun i : nat =>
    (msd_step (msd i) dt samples_per_series,
     msd_call (msd i) F64.zero (msd_step (msd i) dt samples_per_series))).
  rewrite (for_each_all_ok _ g) in H'.
  2:{ intros i Hi. apply in_seq in Hi. unfold simulate_train, getitem.
      rewrite initial_position_lookup by lia. reflexivity. }
  cbn [bind] in H'.
  destruct (stack (map fst _)) as [xt|] eqn:Hxt; cbn [bind] in H'; [|discriminate].
  destruct (stack (map snd _)) as [yt|] eqn:Hyt; cbn [bind] in H'; [|discriminate].
  destruct (stack [fst _; fst _]) as [xv|]; cbn [bind] in H'; [|discriminate].
  destruct (stack [snd _; snd _]) as [yv|]; cbn [bind] in H'; [|discriminate].
  injection H' as <-. cbn [x_train y_train].
  rewrite (stack_data _ _ Hxt), (stack_data _ _ Hyt), !map_map. split; reflexivity.
Qed.

End DatasetFiles.

Section DatasetFilesRuns.

Import NP FS Dataset Runs.

Lemma create_dataset_store_witness :
  exists d fs',
    create_dataset hold_step hold_call constant_draws 3 4 true dataset_store
    = Ok (d, fs')
    /\ files fs' !! x_train_path = Some (x_train d)
    /\ files fs' !! "experiments/datasets/other.npy" = None
    /\ create_dataset hold_step hold_call constant_draws 3 4 true empty_store
       = Raise (FileNotFoundError x_train_path).
Proof.
  destruct (create_dataset hold_step hold_call constant_draws 3 4 true dataset_store)
    as [[d fs']|e] eqn:Hc; [|vm_compute in Hc; discriminate Hc].
  exists d, fs'. split; [reflexivity|].
  destruct (create_dataset_store hold_step hold_call constant_draws 3 4 true
              dataset_store fs' d Hc)
    as (_ & _ & Hsaved & Hother & _ & Hfail).
  split; [apply Hsaved; reflexivity|].
  split; [rewrite Hother by discriminate; apply lookup_empty|].
  exact (Hfail empty_store).
Defined.

Lemma create_dataset_initial_conditions_witness :
  exists d fs',
    create_dataset hold_step hold_call constant_draws 3 4 false empty_store
    = Ok (d, fs')
    /\ data (x_train d)
       = concat (map (fun i =>
                        data (hold_step
                                (mk_msd (initial_position constant_draws 3 i) None)
                                (F64.mul (F64.of_Z 3) delta_t) 4))
                   (seq 0 3)).
Proof.
  destruct (create_dataset hold_step hold_call constant_draws 3 4 false empty_store)
    as [[d fs']|e] eqn:Hc; [|vm_compute in Hc; discriminate Hc].
  exists d, fs'. split; [reflexivity|].
  exact (proj1 (create_dataset_initial_conditions hold_step hold_call
                  constant_draws 3 4 false empty_store fs' d Hc)).
Defined.

End DatasetFilesRuns.

(** ** The backward pass at its edges *)

Section BackwardEdges.

Import TF Adjoint.

Context {F : Framework} {E : Closure}.

Ltac bind_cases H :=
  repeat match type of H with
  | bind ?e _ = Ok _ =>
      let x := fresh "x" in let Hx := fresh "H" x in
      destruct e as [x|] eqn:Hx; cbn [bind] in H; [|discriminate H]
  end.

(** X21.  With a single output time (or none) the loop of [grad] is not
    entered: the solver is never called, the gradient with respect to each
    state is the last entry of its output gradient, and the time gradient
    is the scalar zero of the type of [t] on the device of [t], of rank 0
    where [t] has rank 1. *)
Theorem grad_single_output_time grad_output res trace T :
  output_count = Ok T -> (T <= 1)%nat ->
  grad grad_output = Ok (res, trace) ->
  trace = []
  /\ exists adj_y,
       for_each index_last grad_output = Ok adj_y
       /\ input_grads res
          = adj_y ++ [mk_tensor [] (dtype_of t) (device t) [F64.zero]].
Proof.
  intros HT Hle Hg.
  destruct (grad_inv _ _ _ Hg)
    as (flat & T' & adj0 & st & tg & _ & HT' & Hadj & Hloop & Hcat & Hin & Htr).
  rewrite HT in HT'. injection HT' as <-.
  replace (T - 1)%nat with 0%nat in Hloop by lia.
  cbn [loop] in Hloop. injection Hloop as <-.
  cbn [initial_state adj_time time_vjps adj_y calls] in Hcat, Hin, Htr.
  change (reverse []) with (@nil Tensor) in Hcat. cbn [tf_concat] in Hcat.
  injection Hcat as <-.
  split; [exact Htr|]. exists adj0. split; [exact Hadj | exact Hin].
Qed.

Lemma for_each_lookup {A B} (f : A -> result B) (l : list A) (r : list B)
    (k : nat) (b : B) :
  for_each f l = Ok r -> r !! k = Some b ->
  exists a, l !! k = Some a /\ f a = Ok b.
Proof.
  revert r k. induction l as [|a l IH]; intros r k H Hk.
  - injection H as <-. discriminate Hk.
  - cbn [for_each] in H. bind_cases H. injection H as <-.
    destruct k as [|k].
    + injection Hk as ->. exists a. split; [reflexivity | assumption].
    + apply (IH _ k eq_refl Hk).
Qed.

Lemma zip_lookup_inv {A B} (l1 : list A) (l2 : list B) (k : nat) (p : A * B) :
  zip l1 l2 !! k = Some p -> l1 !! k = Some (fst p) /\ l2 !! k = Some (snd p).
Proof.
  revert l2 k. induction l1 as [|a l1 IH]; intros [|b l2] k H; try discriminate H.
  destruct k as [|k]; [injection H as <-; split; reflexivity|].
  apply (IH l2 k H).
Qed.

(** X22.  The parameter gradients [grad] returns are in the shapes of the
    variables: the [k]-th one has the shape of the [k]-th variable, and
    there are no more gradients than variables. *)
Theorem grad_parameter_shapes grad_output res trace :
  grad grad_output = Ok (res, trace) ->
  (length (adj_params_list res) <= length variables)%nat
  /\ forall k g,
       adj_params_list res !! k = Some g ->
       exists v, variables !! k = Some v /\ shape g = shape v.
Proof.
  unfold grad. intros H. bind_cases H. unfold finish in H. bind_cases H.
  injection H as <- _. cbn [adj_params_list].
  assert (Hall : forall k g, x5 !! k = Some g ->
            exists v, variables !! k = Some v /\ shape g = shape v).
  { intros k g Hk.
    destruct (for_each_lookup _ _ _ _ _ Hx5 Hk) as ([p sh] & Hz & Hr).
    apply zip_lookup_inv in Hz as [_ Hsh]. cbn [snd fst] in Hsh, Hr.
    change (map shape variables) with (shape <$> variables) in Hsh.
    rewrite list_lookup_fmap in Hsh.
    destruct (variables !! k) as [v|]; [|discriminate Hsh].
    injection Hsh as <-. exists v. split; [reflexivity|].
    unfold reshape in Hr. destruct (_ =? _)%nat; [|discriminate Hr].
    injection Hr as <-. reflexivity. }
  split; [|exact Hall].
  destruct (Nat.le_gt_cases (length x5) (length variables)) as [Hle|Hgt]; [exact Hle|].
  destruct (lookup_lt_is_Some_2 x5 (length variables) Hgt) as [g Hg].
  destruct (Hall _ _ Hg) as (v & Hv & _).
  apply lookup_lt_Some in Hv. lia.
Qed.

End BackwardEdges.

Section BackwardEdgesRuns.

Import TF Adjoint Runs.

Lemma grad_single_output_time_witness :
  exists res,
    Euler.grad ans1 t1 Euler.one_variable grad_output1 = Ok (res, [])
    /\ input_grads res
       = [Euler.vec_item 3; mk_tensor [] float64 Euler.cpu [F64.zero]].
Proof.
  destruct (Euler.grad ans1 t1 Euler.one_variable grad_output1)
    as [[res trace]|e] eqn:Hg; [|vm_compute in Hg; discriminate Hg].
  destruct (grad_single_output_time (F:=Euler.framework)
              (E:=mk_closure ans1 t1 Euler.solver_settings Euler.one_variable)
              grad_output1 res trace 1 eq_refl (le_n 1) Hg)
    as (-> & adj & Hadj & Hin).
  exists res. split; [reflexivity|]. rewrite Hin.
  vm_compute in Hadj. injection Hadj as <-. reflexivity.
Defined.

Lemma grad_parameter_shapes_witness :
  exists res trace,
    Euler.grad Euler.ans3 Euler.t3 two_variables Euler.grad_output3
    = Ok (res, trace)
    /\ (length (adj_params_list res) <= 2)%nat
    /\ forall g, adj_params_list res !! 0%nat = Some g -> shape g = [2; 1]%nat.
Proof.
  destruct (Euler.grad Euler.ans3 Euler.t3 two_variables Euler.grad_output3)
    as [[res trace]|e] eqn:Hg; [|vm_compute in Hg; discriminate Hg].
  exists res, trace. split; [reflexivity|].
  destruct (grad_parameter_shapes (F:=Euler.framework)
              (E:=mk_closure Euler.ans3 Euler.t3 Euler.solver_settings
                    two_variables) _ _ _ Hg) as [Hlen Hall].
  split; [exact Hlen|]. intros g Hk.
  destruct (Hall _ _ Hk) as (v & Hv & ->). injection Hv as <-. reflexivity.
Defined.

End BackwardEdgesRuns.
